(** * reMarkable Calibre device plugin: a shallow embedding and its properties

    The development follows the layout of the plugin:
    - [RmData]      : [plugin/rm_data.py]          (the [Book] record and its equality)
    - [Py]          : the few Python built-ins the code relies on
    - [WebInterface]: [plugin/rm_web_interface.py] (device tree, upload, EPUB repackaging)
    - [Plugin]      : [plugin/__init__.py]         (the device driver entry points)
    - [PluginBooks] : [plugin/__init__.py]         (book lists and device presence)

    Python [str] and [bytes] values are both represented by [string]; a
    character of the model is one code unit. *)

From Stdlib Require Import String Ascii List Bool Arith ZArith Lia Permutation.
From Stdlib Require Import DecimalString.
Import ListNotations.
Open Scope list_scope.
Open Scope string_scope.

Set Implicit Arguments.

(* ===================================================================== *)
(** * Python built-ins used by the plugin *)
(* ===================================================================== *)

Module Py.

(** Truth value of a [str]: only the empty string is falsy. *)
Definition truthy (s : string) : bool := negb (s =? "").

(** Truth value of an optional [str] ([None] and [""] are falsy). *)
Definition truthy_opt (o : option string) : bool :=
  match o with Some s => truthy s | None => false end.

(** [x or y] on strings. *)
Definition str_or (x y : string) : string := if truthy x then x else y.

(** [str(n)] for a non-negative integer. *)
Definition str_of_nat (n : nat) : string := NilZero.string_of_uint (Nat.to_uint n).

(** [s.startswith(p)]. *)
Definition startswith (p s : string) : bool := String.prefix p s.

(** [needle in haystack] on strings. *)
Fixpoint contains (needle haystack : string) : bool :=
  String.prefix needle haystack ||
  match haystack with
  | EmptyString => false
  | String _ rest => contains needle rest
  end.

(** [s.endswith(p)]. *)
Fixpoint endswith (p s : string) : bool :=
  (s =? p) ||
  match s with
  | EmptyString => false
  | String _ rest => endswith p rest
  end.

(** [s.rfind(c) + 1]: the position just after the last occurrence of
    character [c], 0 when there is none. *)
Fixpoint after_last (c : ascii) (s : string) : nat :=
  match s with
  | EmptyString => 0
  | String a rest =>
      match after_last c rest with
      | 0 => if Ascii.eqb a c then 1 else 0
      | S k => S (S k)
      end
  end.

Definition drop (n : nat) (s : string) : string :=
  String.substring n (String.length s - n) s.

Definition take (n : nat) (s : string) : string :=
  String.substring 0 n s.

(** [s.rstrip("/")]. *)
Fixpoint rstrip_slash (s : string) : string :=
  match s with
  | EmptyString => EmptyString
  | String a rest =>
      match rstrip_slash rest with
      | EmptyString => if Ascii.eqb a "/" then EmptyString else String a EmptyString
      | r => String a r
      end
  end.

(** [str(z)] for an integer. *)
Definition str_of_Z (z : Z) : string := NilZero.string_of_int (Z.to_int z).

Fixpoint all_dots (s : string) : bool :=
  match s with
  | EmptyString => true
  | String a rest => Ascii.eqb a "." && all_dots rest
  end.

(** [posixpath.splitext]: the extension starts at the last dot of the last
    path component, unless only dots precede it there. *)
Definition splitext (p : string) : string * string :=
  let sep := after_last "/" p in
  let dot := after_last "." p in
  if (sep <? dot)%nat then
    if all_dots (String.substring sep (dot - 1 - sep) p) then (p, "")
    else (take (dot - 1) p, drop (dot - 1) p)
  else (p, "").

(** [sep.join(parts)]. *)
Definition str_join (sep : string) (parts : list string) : string :=
  String.concat sep parts.

(** [posixpath.basename]. *)
Definition basename (p : string) : string := drop (after_last "/" p) p.

(** [posixpath.dirname]: the head up to the last slash, with trailing
    slashes removed unless the head consists of slashes only. *)
Definition dirname (p : string) : string :=
  let head := take (after_last "/" p) p in
  match rstrip_slash head with
  | EmptyString => head
  | stripped => stripped
  end.

(** [posixpath.join(a, b)] for two components. *)
Definition join (a b : string) : string :=
  if startswith "/" b then b
  else if negb (truthy a) || endswith "/" a then a ++ b
  else a ++ "/" ++ b.

End Py.

(* ===================================================================== *)
(** * plugin/rm_data.py *)
(* ===================================================================== *)

Module RmData.

(** The [Book] dataclass.  [thumbnail] and [device_collections] carry no
    behaviour in the plugin and are left out. *)
Record Book := mkBook {
  title : string;
  uuid : string;
  rm_uuid : string;
  authors : list string;
  author_sort : string;
  size : Z;
  datetime : list Z;
  tags : list string;
  path : string;
  in_library : option string
}.

(** [Book.__eq__] on two Books (the [NotImplemented] branch is for
    operands that are not Books). *)
Definition Book_eq (self other : Book) : bool :=
  if Py.truthy (rm_uuid self) && Py.truthy (rm_uuid other)
     && (rm_uuid self =? rm_uuid other) then true
  else if Py.truthy (uuid self) && Py.truthy (uuid other)
     && (uuid self =? uuid other) then true
  else if Py.truthy (path self) && Py.truthy (path other)
     && negb (path self =? "/") && negb (path other =? "/")
     && (path self =? path other) then true
  else false.

(** The three tiers, as propositions. *)
Definition tier_rm_uuid (a b : Book) : Prop :=
  rm_uuid a <> "" /\ rm_uuid b <> "" /\ rm_uuid a = rm_uuid b.
Definition tier_uuid (a b : Book) : Prop :=
  uuid a <> "" /\ uuid b <> "" /\ uuid a = uuid b.
Definition tier_path (a b : Book) : Prop :=
  path a <> "" /\ path b <> "" /\ path a <> "/" /\ path b <> "/" /\ path a = path b.

(** A Book with at least one identifier that an equality tier can use. *)
Definition has_identifier (b : Book) : Prop :=
  rm_uuid b <> "" \/ uuid b <> "" \/ (path b <> "" /\ path b <> "/").

(** Books built the way the plugin builds them. *)
Definition book (t u r p : string) : Book :=
  mkBook t u r [] "" 0 [] [] p None.

(** The three Books of the non-transitivity example. *)
Definition bookA : Book := book "A" "" "x" "/".
Definition bookB : Book := book "B" "y" "x" "/".
Definition bookC : Book := book "C" "y" "" "/".

(** A Book as the dataclass defaults build it: no device id, no library
    id, root path. *)
Definition bare_book : Book := book "t" "" "" "/".

End RmData.

(* ===================================================================== *)
(** * Effects: exceptions, the local world, the outside world *)
(* ===================================================================== *)

Module Eff.

(** The levels of [calibre.devices.errors.UserFeedback]. *)
Inductive feedback_level := FEEDBACK_INFO | FEEDBACK_WARNING | FEEDBACK_ERROR.

(** The exceptions the plugin raises or lets through. *)
Inductive exn : Type :=
| KeyError (key : string)
| ParseError
| BadZipFile
| OSError (what : string)
| URLError (what : string)
| HTTPError (code : nat) (body : string)
| RuntimeError (msg : string)
| TimeoutError (msg : string)
| UserFeedback (title msg : string) (level : feedback_level).

Inductive result (A : Type) : Type :=
| Ok (a : A)
| Raise (e : exn).
Arguments Ok {A} a.
Arguments Raise {A} e.

Inductive level := DEBUG | INFO | WARNING | ERROR.

(** The two requests of the USB web interface. *)
Inductive request :=
| GET_documents (ip path_id : string)
| POST_upload (ip content_type body : string).

Definition is_GET (r : request) : bool :=
  match r with GET_documents _ _ => true | POST_upload _ _ _ => false end.

Definition is_POST (r : request) : bool :=
  match r with GET_documents _ _ => false | POST_upload _ _ _ => true end.

(** [rm_data.DeviceInfo]. *)
Record DeviceInfo := mkDeviceInfo { ip : string; session_id : nat }.

(** Everything the plugin can change: the requests it has sent to the
    device (oldest first), its log, the progress it has reported to the
    host, the local files, the number of random names drawn so far, and the
    two module globals of [plugin/__init__.py]. *)
Record World := mkWorld {
  requests : list request;
  logs : list (level * string);
  reported : list string;
  files : list (string * string);
  fresh : nat;
  _device : option DeviceInfo;
  _ebook_convert_path : option string
}.

(** A JSON object with string values, as [json.loads] returns it. *)
Definition dict := list (string * string).

Fixpoint dict_get (k : string) (d : dict) : option string :=
  match d with
  | [] => None
  | (k', v) :: rest => if k' =? k then Some v else dict_get k rest
  end.

(** [d[k] = v]: an existing key keeps its place, a new key goes last. *)
Fixpoint dict_set (k v : string) (d : dict) : dict :=
  match d with
  | [] => [(k, v)]
  | (k', v') :: rest =>
      if k' =? k then (k, v) :: rest else (k', v') :: dict_set k v rest
  end.

(** [d.update(other)]. *)
Definition dict_update (d other : dict) : dict :=
  fold_left (fun acc kv => dict_set (fst kv) (snd kv) acc) other d.

Definition get_default (k default : string) (d : dict) : string :=
  match dict_get k d with Some v => v | None => default end.

(** What the device answers to [GET /documents/{id}]. *)
Inductive fetch_result :=
| Listing (raw_list : list dict)
| FetchFails (e : exn).

(** What the device answers to [POST /upload]. *)
Inductive post_result :=
| PostOk (json : string)
| PostHTTPError (code : nat) (error_body : string)
| PostFails (e : exn).

(** How one run of the external converter ends. *)
Inductive conv_outcome :=
| ConvSpawnFails (what : string)
| ConvTimeout
| ConvExit (returncode : Z) (stdout : string) (pdf : string).

(** The outside world.  The device answers a listing request by the folder
    id and an upload by its body; the converter's outcome depends on its
    input path; [completion k] is the order in which the worker pool hands
    back [k] submitted conversions (positions in the order of submission);
    [which_ebook_convert] is where the converter is found. *)
Record Env := mkEnv {
  listing : string -> fetch_result;
  upload_response : string -> post_result;
  ebook_convert : string -> conv_outcome;
  completion : nat -> list nat;
  cpu_count : option nat;
  which_ebook_convert : string;
  tmp_name : nat -> string -> string;
  uuid4_hex : nat -> string
}.

(** Computations: state passing over [World], with exceptions. *)
Definition M (A : Type) : Type := World -> result A * World.

Definition ret {A} (a : A) : M A := fun w => (Ok a, w).

Definition raise {A} (e : exn) : M A := fun w => (Raise e, w).

Definition bind {A B} (c : M A) (k : A -> M B) : M B :=
  fun w => match c w with
           | (Ok a, w') => k a w'
           | (Raise e, w') => (Raise e, w')
           end.

(** [try: c except Exception: h]. *)
Definition try_except {A} (c : M A) (h : exn -> M A) : M A :=
  fun w => match c w with
           | (Ok a, w') => (Ok a, w')
           | (Raise e, w') => h e w'
           end.

(** [try: c finally: f]. *)
Definition try_finally {A} (c : M A) (f : M unit) : M A :=
  fun w => match c w with
           | (r, w') =>
               match f w' with
               | (Ok _, w'') => (r, w'')
               | (Raise e, w'') => (Raise e, w'')
               end
           end.

Definition lift {A} (r : result A) : M A := fun w => (r, w).

Definition log (l : level) (msg : string) : M unit :=
  fun w => (Ok tt, mkWorld (requests w) (logs w ++ [(l, msg)])%list (reported w)
                           (files w) (fresh w) (_device w) (_ebook_convert_path w)).

(** [self.report_progress(x, status)]; the fraction is a float and is not
    recorded. *)
Definition report_progress (status : string) : M unit :=
  fun w => (Ok tt, mkWorld (requests w) (logs w) (reported w ++ [status])%list
                           (files w) (fresh w) (_device w) (_ebook_convert_path w)).

Definition send (r : request) : M unit :=
  fun w => (Ok tt, mkWorld (requests w ++ [r])%list (logs w) (reported w)
                           (files w) (fresh w) (_device w) (_ebook_convert_path w)).

Definition set_files (fs : list (string * string)) : M unit :=
  fun w => (Ok tt, mkWorld (requests w) (logs w) (reported w)
                           fs (fresh w) (_device w) (_ebook_convert_path w)).

(** Draw the next random number (temporary names, multipart boundaries). *)
Definition draw : M nat :=
  fun w => (Ok (fresh w), mkWorld (requests w) (logs w) (reported w)
                           (files w) (S (fresh w)) (_device w) (_ebook_convert_path w)).

Definition remove_file (p : string) (fs : list (string * string)) :=
  filter (fun kv => negb (fst kv =? p)) fs.

Definition read_file (p : string) : M string :=
  fun w => match dict_get p (files w) with
           | Some data => (Ok data, w)
           | None => (Raise (OSError p), w)
           end.

Definition write_file (p data : string) : M unit :=
  fun w => set_files ((p, data) :: remove_file p (files w)) w.

(** [os.unlink(p)]. *)
Definition unlink (p : string) : M unit :=
  fun w => match dict_get p (files w) with
           | Some _ => set_files (remove_file p (files w)) w
           | None => (Raise (OSError p), w)
           end.

(** [try: os.unlink(p) except OSError: pass]. *)
Definition unlink_quietly (p : string) : M unit :=
  try_except (unlink p)
    (fun e => match e with OSError _ => ret tt | _ => raise e end).

(** The decorator [log_helper.trace_calls]: one DEBUG line, then the call.
    The line is kept up to the qualified name of the function; the
    rendering of the arguments that follows it in the source is left out. *)
Definition trace_calls {A} (qualname : string) (body : M A) : M A :=
  bind (log DEBUG ("-> " ++ qualname)) (fun _ => body).

(** The requests a computation sends all satisfy [P], whatever its result. *)
Definition emits {A} (P : request -> bool) (c : M A) : Prop :=
  forall w, exists sent,
    requests (snd (c w)) = (requests w ++ sent)%list /\ forallb P sent = true.

Definition no_request (r : request) : bool := false.

Fixpoint map_result {A B} (f : A -> result B) (l : list A) : result (list B) :=
  match l with
  | [] => Ok []
  | a :: rest =>
      match f a with
      | Raise e => Raise e
      | Ok b => match map_result f rest with
                | Raise e => Raise e
                | Ok bs => Ok (b :: bs)
                end
      end
  end.

End Eff.

Declare Scope eff_scope.
Delimit Scope eff_scope with eff.
Notation "x <- c ;; k" := (Eff.bind c (fun x => k))
  (at level 61, c at next level, right associativity) : eff_scope.
Notation "' pat <- c ;; k" := (Eff.bind c (fun x => match x with pat => k end))
  (at level 61, pat pattern, c at next level, right associativity) : eff_scope.
Notation "c ;; k" := (Eff.bind c (fun _ => k))
  (at level 61, right associativity) : eff_scope.
Open Scope eff_scope.
(* ===================================================================== *)
(** * plugin/rm_web_interface.py: the device document model and the crawler *)
(* ===================================================================== *)

Module WebInterface.
Import Eff.

Definition COLLECTION : string := "CollectionType".
Definition DOCUMENT : string := "DocumentType".

Record DeviceEntry := mkDeviceEntry {
  entry_id : string;
  parent_id : string;
  name : string;
  entry_type : string;
  file_type : string
}.

(** [DeviceEntry.from_json]: ["ID"] is indexed and raises when missing, the
    other keys have defaults. *)
Definition from_json (raw : dict) : result DeviceEntry :=
  match dict_get "ID" raw with
  | None => Raise (KeyError "ID")
  | Some id =>
      Ok (mkDeviceEntry id
            (get_default "Parent" "" raw)
            (get_default "VissibleName" "" raw)
            (get_default "Type" DOCUMENT raw)
            (get_default "fileType" "" raw))
  end.

Definition is_folder (e : DeviceEntry) : bool := entry_type e =? COLLECTION.

Inductive FileTree : Type :=
| mkFileTree (entries : list FileTreeNode)
with FileTreeNode : Type :=
| mkFileTreeNode (entry : DeviceEntry) (subtree : FileTree).

Definition entries (t : FileTree) : list FileTreeNode :=
  match t with mkFileTree es => es end.
Definition entry (n : FileTreeNode) : DeviceEntry :=
  match n with mkFileTreeNode e _ => e end.
Definition subtree (n : FileTreeNode) : FileTree :=
  match n with mkFileTreeNode _ s => s end.

(** The ids of one level of a tree. *)
Definition level_ids (t : FileTree) : list string :=
  map (fun n => entry_id (entry n)) (entries t).

(** Every level of the tree satisfies [P]. *)
Fixpoint every_level (P : FileTree -> Prop) (t : FileTree) : Prop :=
  P t /\
  (fix nodes (ns : list FileTreeNode) : Prop :=
     match ns with
     | [] => True
     | mkFileTreeNode _ s :: rest => every_level P s /\ nodes rest
     end) (entries t).

(** A listing response whose entries carry pairwise distinct ids. *)
Definition distinct_ids (raw_list : list dict) : Prop :=
  NoDup (map (dict_get "ID") raw_list).

(** Number of folder levels below the top one. *)
Fixpoint height (t : FileTree) : nat :=
  (fix nodes (ns : list FileTreeNode) : nat :=
     match ns with
     | [] => 0
     | mkFileTreeNode _ s :: rest => Nat.max (S (height s)) (nodes rest)
     end) (entries t).

(** [FileTree.all_files]. *)
Fixpoint all_files (t : FileTree) (prefix : string) : list (string * DeviceEntry) :=
  (fix nodes (ns : list FileTreeNode) : list (string * DeviceEntry) :=
     match ns with
     | [] => []
     | mkFileTreeNode e s :: rest =>
         List.app (if is_folder e then all_files s (prefix ++ name e ++ "/")
                   else [(prefix ++ name e, e)])
                  (nodes rest)
     end) (entries t).

(** [FileTree.folder_id_map]. *)
Fixpoint folder_id_map (t : FileTree) (prefix : string) : dict :=
  (fix nodes (ns : list FileTreeNode) (mapping : dict) : dict :=
     match ns with
     | [] => mapping
     | mkFileTreeNode e s :: rest =>
         if is_folder e then
           let path := prefix ++ name e in
           nodes rest (dict_update (dict_set path (entry_id e) mapping)
                                   (folder_id_map s (path ++ "/")))
         else nodes rest mapping
     end) (entries t) [].

(** [FileTree.all_file_names]. *)
Definition all_file_names (t : FileTree) (prefix : string) : list string :=
  map fst (all_files t prefix).

(** [FileTree.all_file_ids]. *)
Fixpoint all_file_ids (t : FileTree) : list string :=
  (fix nodes (ns : list FileTreeNode) : list string :=
     match ns with
     | [] => []
     | mkFileTreeNode e s :: rest =>
         List.app (if is_folder e then all_file_ids s else [entry_id e])
                  (nodes rest)
     end) (entries t).

(** [FileTree.all_folder_paths]. *)
Fixpoint all_folder_paths (t : FileTree) (prefix : string) : list string :=
  (fix nodes (ns : list FileTreeNode) : list string :=
     match ns with
     | [] => []
     | mkFileTreeNode e s :: rest =>
         List.app (if is_folder e then
                     let path := prefix ++ name e in
                     path :: all_folder_paths s (path ++ "/")
                   else [])
                  (nodes rest)
     end) (entries t).

(** All nodes of a tree, each before the nodes below it. *)
Fixpoint nodes_of (t : FileTree) : list FileTreeNode :=
  (fix nodes (ns : list FileTreeNode) : list FileTreeNode :=
     match ns with
     | [] => []
     | mkFileTreeNode e s :: rest =>
         mkFileTreeNode e s :: List.app (nodes_of s) (nodes rest)
     end) (entries t).

(** [list.sort(key=lambda e: e.parent_id)]: a stable sort on the key. *)
Fixpoint insert_by_parent (e : DeviceEntry) (l : list DeviceEntry) : list DeviceEntry :=
  match l with
  | [] => [e]
  | x :: rest =>
      if String.leb (parent_id e) (parent_id x) then e :: x :: rest
      else x :: insert_by_parent e rest
  end.

Definition sort_by_parent (l : list DeviceEntry) : list DeviceEntry :=
  fold_right insert_by_parent [] l.

Section Device.
Variable env : Env.

(** [fetch_documents]: one [GET /documents/{path_id}]. *)
Definition fetch_documents (ip path_id : string) : M (list dict) :=
  send (GET_documents ip path_id) ;;
  match listing env path_id with
  | Listing raw_list => ret raw_list
  | FetchFails e => raise e
  end.

(** [is_reachable]. *)
Definition is_reachable (ip : string) : M bool :=
  try_except (fetch_documents ip "" ;; ret true)
    (fun _ => log WARNING ("Cannot reach reMarkable at " ++ ip) ;; ret false).

(** The [for entry in entries] loop of [build_file_tree]; [recur] is the
    recursive call for a folder entry. *)
Fixpoint for_entries (recur : string -> nat -> M (FileTree * nat))
    (es : list DeviceEntry) (counter : nat) : M (list FileTreeNode * nat) :=
  match es with
  | [] => ret ([], counter)
  | e :: rest =>
      ' (sub, counter) <-
        (if is_folder e then recur (entry_id e) counter
         else ret (mkFileTree [], counter)) ;;
      ' (nodes, counter) <- for_entries recur rest counter ;;
      ret (mkFileTreeNode e sub :: nodes, counter)
  end.

(** The body of [build_file_tree], by recursion on [max_depth - _depth];
    the shared [_counter] cell is passed in and handed back. *)
Fixpoint build_from (ip : string) (max_depth gap : nat) (root_id : string)
    (progress_cb : option (string -> M unit)) (counter : nat)
    {struct gap} : M (FileTree * nat) :=
  match gap with
  | 0 =>
      log WARNING ("Max folder depth (" ++ Py.str_of_nat max_depth
                   ++ ") reached, stopping recursion") ;;
      ret (mkFileTree [], counter)
  | S gap' =>
      raw_list <- fetch_documents ip root_id ;;
      es <- lift (map_result from_json raw_list) ;;
      let es := sort_by_parent es in
      let counter := counter + length es in
      match progress_cb with
      | Some cb => cb ("Scanning reMarkable... " ++ Py.str_of_nat counter
                       ++ " items found")
      | None => ret tt
      end ;;
      ' (nodes, counter) <-
        for_entries
          (fun id c => build_from ip max_depth gap' id progress_cb c)
          es counter ;;
      ret (mkFileTree nodes, counter)
  end.

(** [build_file_tree(ip, root_id, _depth, max_depth, progress_cb, _counter)]. *)
Definition build_file_tree (ip root_id : string) (_depth max_depth : nat)
    (progress_cb : option (string -> M unit)) (_counter : option nat)
    : M FileTree :=
  ' (tree, _) <- build_from ip max_depth (max_depth - _depth) root_id progress_cb
                   (match _counter with Some c => c | None => 0 end) ;;
  ret tree.

Section FindFolder.
Variable str_lower : string -> string.

(** [find_folder_id]: a crawl of depth 3, an exact match, then a match
    ignoring case; the empty id on any miss or error. *)
Definition find_folder_id (ip folder_name : string) : M string :=
  if negb (Py.truthy folder_name) then ret ""
  else
    try_except
      (tree <- build_file_tree ip "" 0 3 None None ;;
       let folder_map := folder_id_map tree "" in
       match dict_get folder_name folder_map with
       | Some fid => ret fid
       | None =>
           match find (fun kv => str_lower (fst kv) =? str_lower folder_name)
                      folder_map with
           | Some kv => ret (snd kv)
           | None =>
               log WARNING ("Folder '" ++ folder_name
                            ++ "' not found on device, uploading to root") ;;
               ret ""
           end
       end)
      (fun _ =>
         log WARNING ("Failed to look up folder '" ++ folder_name ++ "'") ;;
         ret "").

End FindFolder.
End Device.

(** The tree that the device describes below folder [root_id], cut after
    [gap] levels: a level holds the entries of the listing of its folder,
    sorted by parent id; below a folder entry comes the tree of that
    folder, below any other entry the empty tree. *)
Fixpoint describes (env : Env) (gap : nat) (root_id : string) (t : FileTree)
    : Prop :=
  match gap with
  | 0 => t = mkFileTree []
  | S g =>
      exists raw_list es,
        listing env root_id = Listing raw_list
        /\ map_result from_json raw_list = Ok es
        /\ map entry (entries t) = sort_by_parent es
        /\ Forall (fun n => if is_folder (entry n)
                            then describes env g (entry_id (entry n)) (subtree n)
                            else subtree n = mkFileTree [])
                  (entries t)
  end.

(** Every level of the tree, down to [gap] levels, has the ids of the
    listing of its folder, each as often as the listing has it; so the
    level is unique by id exactly when the listing is. *)
Fixpoint keeps_ids (env : Env) (gap : nat) (root_id : string) (t : FileTree)
    : Prop :=
  match gap with
  | 0 => True
  | S g =>
      (exists raw_list,
         listing env root_id = Listing raw_list
         /\ Permutation (map Some (level_ids t)) (map (dict_get "ID") raw_list)
         /\ (NoDup (level_ids t) <-> distinct_ids raw_list))
      /\ Forall (fun n => if is_folder (entry n)
                          then keeps_ids env g (entry_id (entry n)) (subtree n)
                          else True)
                (entries t)
  end.

(** The folders listed by a crawl of [gap] levels that built [t], in the
    order of the requests: the folder itself, then for each of its folder
    entries in turn the folders of the crawl below it. *)
Fixpoint listed (gap : nat) (root_id : string) (t : FileTree) : list string :=
  match gap with
  | 0 => []
  | S g =>
      root_id
      :: flat_map (fun n => if is_folder (entry n)
                            then listed g (entry_id (entry n)) (subtree n)
                            else [])
                  (entries t)
  end.

(* --------------------------------------------------------------------- *)
(** ** The libraries behind the EPUB code *)
(* --------------------------------------------------------------------- *)

(** An [xml.etree.ElementTree] element: tag (with its namespace in braces),
    attributes, children. *)
#[warnings="-register-all"]
Inductive element : Type :=
| Element (tag : string) (attrib : dict) (children : list element).

Definition tag (e : element) : string :=
  match e with Element t _ _ => t end.
Definition attrib (e : element) : dict :=
  match e with Element _ a _ => a end.
Definition children (e : element) : list element :=
  match e with Element _ _ cs => cs end.

(** [e.get(k)]. *)
Definition get (k : string) (e : element) : option string := dict_get k (attrib e).

(** [e.get(k) == v] for a string [v]. *)
Definition attr_is (k v : string) (e : element) : bool :=
  match get k e with Some x => x =? v | None => false end.

(** [e.find(t)] and [e.findall(t)] for a plain tag: direct children only. *)
Definition find_child (t : string) (e : element) : option element :=
  find (fun c => tag c =? t) (children e).
Definition findall (t : string) (e : element) : list element :=
  filter (fun c => tag c =? t) (children e).

(** The element and all its descendants, in document order. *)
Fixpoint iter_all (e : element) : list element :=
  e :: (fix over (cs : list element) : list element :=
          match cs with
          | [] => []
          | c :: rest => List.app (iter_all c) (over rest)
          end) (children e).

(** [e.iter(t)]. *)
Definition iter (t : string) (e : element) : list element :=
  filter (fun c => tag c =? t) (iter_all e).

(** [e.find(".//" + t)]: the first descendant with tag [t]. *)
Definition find_descendant (t : string) (e : element) : option element :=
  find (fun c => tag c =? t) (tl (iter_all e)).

(** [ET.SubElement(e, ...)] and [e.insert(0, c)], as new values. *)
Definition append_child (c : element) (e : element) : element :=
  Element (tag e) (attrib e) (List.app (children e) [c]).
Definition insert_first (c : element) (e : element) : element :=
  Element (tag e) (attrib e) (c :: children e).

(** The element that [e.find(t)] returns is changed in place by [f]. *)
Fixpoint update_first (t : string) (f : element -> element)
    (cs : list element) : list element :=
  match cs with
  | [] => []
  | c :: rest => if tag c =? t then f c :: rest else c :: update_first t f rest
  end.
Definition update_first_child (t : string) (f : element -> element)
    (e : element) : element :=
  Element (tag e) (attrib e) (update_first t f (children e)).

Inductive compression := ZIP_STORED | ZIP_DEFLATED.

(** One member of an archive: its [ZipInfo] fields, its content, and the
    exception that reading it raises when the stored data cannot be
    decoded ([BadZipFile] for a wrong CRC-32, [RuntimeError] for an
    encrypted member); a member that [writestr] has written is readable. *)
Record ZipInfo := mkZipInfo {
  filename : string;
  compress_type : compression;
  extra : string;
  data : string;
  read_error : option exn
}.

(** An open archive: its members in the order of [infolist()]. *)
Definition ZipFile := list ZipInfo.

(** [zf.read(name)]: the name resolves to the last member that bears it;
    [KeyError] when there is none, the member's own error when its data
    cannot be decoded. *)
Definition zip_read (zf : ZipFile) (name : string) : result string :=
  match find (fun m => filename m =? name) (rev zf) with
  | Some m =>
      match read_error m with
      | Some e => Raise e
      | None => Ok (data m)
      end
  | None => Raise (KeyError name)
  end.


(** The library functions whose results the plugin depends on. *)
Record Lib := mkLib {
  str_lower : string -> string;
  guess_type : string -> option string;
  utf8_encode : string -> string;
  utf8_decode_replace : string -> string;
  ET_fromstring : string -> option element;
  ET_tostring : element -> string;
  zip_load : string -> option ZipFile;
  zip_dump : ZipFile -> string
}.

(* --------------------------------------------------------------------- *)
(** ** EPUB preparation (ZIP fix and cover injection) *)
(* --------------------------------------------------------------------- *)

Definition _OPF_NS : string := "http://www.idpf.org/2007/opf".
Definition _CONTAINER_NS : string := "urn:oasis:names:tc:opendocument:xmlns:container".

Definition opf (local : string) : string := "{" ++ _OPF_NS ++ "}" ++ local.

(** The double quote and the line feed, for the literals below. *)
Definition dq : string := String (Ascii.ascii_of_nat 34) EmptyString.
Definition nl : string := String (Ascii.ascii_of_nat 10) EmptyString.

(** [_COVER_PAGE_HTML], split at its [{href}] field. *)
Definition _COVER_PAGE_HEAD : string :=
  "<?xml version=" ++ dq ++ "1.0" ++ dq ++ " encoding=" ++ dq ++ "UTF-8" ++ dq ++ "?>" ++ nl
  ++ "<html xmlns=" ++ dq ++ "http://www.w3.org/1999/xhtml" ++ dq ++ ">" ++ nl
  ++ "<head><title>Cover</title></head>" ++ nl
  ++ "<body style=" ++ dq ++ "margin:0;padding:0;" ++ dq ++ ">" ++ nl
  ++ "<div style=" ++ dq ++ "text-align:center;" ++ dq ++ ">" ++ nl
  ++ "<img src=" ++ dq.

Definition _COVER_PAGE_TAIL : string :=
  dq ++ " style=" ++ dq ++ "max-width:100%;max-height:100%;" ++ dq
  ++ " alt=" ++ dq ++ "Cover" ++ dq ++ "/>" ++ nl
  ++ "</div>" ++ nl
  ++ "</body>" ++ nl
  ++ "</html>" ++ nl.

(** [_COVER_PAGE_HTML.format(href=href)]. *)
Definition cover_page_html (href : string) : string :=
  _COVER_PAGE_HEAD ++ href ++ _COVER_PAGE_TAIL.

Section Epub.
Variable lib : Lib.

(** [_locate_opf]: the root file named by the container descriptor, else the
    first member whose name ends in [.opf].  Only [KeyError] and
    [ParseError] are caught; any other error of the read gets out. *)
Definition _locate_opf (zf : ZipFile) : result (option string) :=
  let fallback :=
    match find (fun item => Py.endswith ".opf" (filename item)) zf with
    | Some item => Some (filename item)
    | None => None
    end in
  match zip_read zf "META-INF/container.xml" with
  | Raise (KeyError _) | Raise ParseError => Ok fallback
  | Raise e => Raise e
  | Ok bytes =>
      match ET_fromstring lib bytes with
      | None => Ok fallback
      | Some container =>
          match find_descendant ("{" ++ _CONTAINER_NS ++ "}rootfile") container with
          | Some rootfile => Ok (get "full-path" rootfile)
          | None => Ok fallback
          end
      end
  end.

(** The [content] of the first [meta] element named [cover], if any. *)
Definition cover_meta (metas : list element) : option (option string) :=
  match find (attr_is "name" "cover") metas with
  | Some meta => Some (get "content" meta)
  | None => None
  end.

(** The cover image id: the two loops over the [meta] elements. *)
Definition cover_image_id (root : element) : option string :=
  let first := match cover_meta (iter (opf "meta") root) with
               | Some c => c
               | None => None
               end in
  if Py.truthy_opt first then first
  else match cover_meta (iter "meta" root) with
       | Some c => c
       | None => first
       end.

(** The [href] of the manifest item with the cover image id, when that item
    is an image. *)
Definition cover_image_href (manifest : element) (cover_img_id : string)
    : option string :=
  match find (attr_is "id" cover_img_id) (findall (opf "item") manifest) with
  | Some item =>
      let media := match get "media-type" item with Some m => m | None => "" end in
      if Py.startswith "image/" media then get "href" item else None
  | None => None
  end.

(** [posixpath.join(opf_dir, name) if opf_dir else name]. *)
Definition beside_opf (opf_path name : string) : string :=
  let opf_dir := Py.dirname opf_path in
  if Py.truthy opf_dir then Py.join opf_dir name else name.

(** The check of the first spine page: true when the page is in the
    archive and its text mentions the cover image.  A [KeyError] of the
    read is caught; any other error gets out. *)
Definition first_page_shows_cover (zf : ZipFile) (opf_path : string)
    (manifest spine : element) (cover_href : string) : result bool :=
  match children spine with
  | [] => Ok false
  | first :: _ =>
      let first_ref_id := match get "idref" first with Some i => i | None => "" end in
      match find (attr_is "id" first_ref_id) (findall (opf "item") manifest) with
      | Some item =>
          let href := match get "href" item with Some h => h | None => "" end in
          match zip_read zf (beside_opf opf_path href) with
          | Ok bytes => Ok (Py.contains cover_href (utf8_decode_replace lib bytes))
          | Raise (KeyError _) => Ok false
          | Raise e => Raise e
          end
      | None => Ok false
      end
  end.

Definition page_id : string := "rm-cover-page".
Definition page_filename : string := "rm_cover.xhtml".

(** The manifest item, the spine reference and the guide reference of the
    new page. *)
Definition new_item : element :=
  Element (opf "item")
    [("id", page_id); ("href", page_filename);
     ("media-type", "application/xhtml+xml")] [].
Definition ref : element := Element (opf "itemref") [("idref", page_id)] [].
Definition guide_ref : element :=
  Element (opf "reference")
    [("type", "cover"); ("title", "Cover"); ("href", page_filename)] [].

(** The three patches of the package document: the manifest item is
    appended, the spine reference goes first, the guide reference is
    appended to the guide, which is created last in the package when
    missing. *)
Definition patch_package (root : element) : element :=
  let root := update_first_child (opf "manifest") (append_child new_item) root in
  let root := update_first_child (opf "spine") (insert_first ref) root in
  match find_child (opf "guide") root with
  | Some _ => update_first_child (opf "guide") (append_child guide_ref) root
  | None => append_child (Element (opf "guide") [] [guide_ref]) root
  end.

(** The manifest items of a package document and the ids its spine refers
    to, in document order. *)
Definition manifest_items (root : element) : list element :=
  match find_child (opf "manifest") root with
  | Some manifest => findall (opf "item") manifest
  | None => []
  end.
Definition spine_idrefs (root : element) : list string :=
  match find_child (opf "spine") root with
  | Some spine =>
      map (fun r => match get "idref" r with Some i => i | None => "" end)
          (children spine)
  | None => []
  end.

(** No manifest item of the package document bears the id that the new
    page is given. *)
Definition page_id_unused (root : element) : bool :=
  match find (attr_is "id" page_id) (manifest_items root) with
  | Some _ => false
  | None => true
  end.

(** [_ensure_cover_page]: the patched package document and the new files,
    or [(None, {})] when nothing is to be done. *)
Definition _ensure_cover_page (zf : ZipFile) (opf_path opf_bytes : string)
    : result (option string * dict) :=
  match ET_fromstring lib opf_bytes with
  | None => Raise ParseError
  | Some root =>
      match cover_image_id root with
      | None => Ok (None, [])
      | Some cover_img_id =>
          if negb (Py.truthy cover_img_id) then Ok (None, []) else
          match find_child (opf "manifest") root with
          | None => Ok (None, [])
          | Some manifest =>
              match cover_image_href manifest cover_img_id with
              | None => Ok (None, [])
              | Some cover_href =>
                  if negb (Py.truthy cover_href) then Ok (None, []) else
                  match find_child (opf "spine") root with
                  | None => Ok (None, [])
                  | Some spine =>
                      match children spine with
                      | [] => Ok (None, [])
                      | _ :: _ =>
                          match first_page_shows_cover zf opf_path manifest
                                  spine cover_href with
                          | Raise e => Raise e
                          | Ok true => Ok (None, [])
                          | Ok false =>
                            let xhtml := cover_page_html cover_href in
                            let patched :=
                              utf8_encode lib (ET_tostring lib (patch_package root)) in
                            Ok (Some patched,
                                [(beside_opf opf_path page_filename,
                                  utf8_encode lib xhtml)])
                          end
                      end
                  end
              end
          end
      end
  end.

(** The cover step of [_prepare_epub]: skipped without a package document
    or when not asked for; a [KeyError] or [ParseError] leaves the archive
    as it is, any other error gets out. *)
Definition cover_step (src : ZipFile) (opf_path : option string)
    (inject_cover : bool) : result (option string * dict) :=
  match opf_path with
  | Some p =>
      if Py.truthy p && inject_cover then
        match zip_read src p with
        | Raise (KeyError _) | Raise ParseError => Ok (None, [])
        | Raise e => Raise e
        | Ok opf_bytes =>
            match _ensure_cover_page src p opf_bytes with
            | Raise (KeyError _) | Raise ParseError => Ok (None, [])
            | r => r
            end
        end
      else Ok (None, [])
  | None => Ok (None, [])
  end.

(** The marker member written first. *)
Definition mimetype_member : ZipInfo :=
  mkZipInfo "mimetype" ZIP_STORED "" "application/epub+zip" None.

(** One pass of the copy loop of [_prepare_epub]. *)
Definition copy_member (src : ZipFile) (opf_path : option string)
    (patched_opf : option string) (item : ZipInfo) : result ZipInfo :=
  match zip_read src (filename item) with
  | Raise e => Raise e
  | Ok bytes =>
      let bytes :=
        match patched_opf, opf_path with
        | Some patched, Some p =>
            if Py.truthy patched && (filename item =? p) then patched else bytes
        | _, _ => bytes
        end in
      Ok (mkZipInfo (filename item) ZIP_DEFLATED "" bytes None)
  end.

(** The archive that [_prepare_epub] writes: the marker, the members of the
    source other than [mimetype], the new files.  The first member that
    cannot be read stops the copy loop with its error. *)
Definition write_epub (src : ZipFile) (opf_path : option string)
    (patched_opf : option string) (new_files : dict) : result ZipFile :=
  match map_result (copy_member src opf_path patched_opf)
          (filter (fun item => negb (filename item =? "mimetype")) src) with
  | Raise e => Raise e
  | Ok copied =>
      Ok (mimetype_member
          :: List.app copied
               (map (fun kv => mkZipInfo (fst kv) ZIP_DEFLATED "" (snd kv) None)
                    new_files))
  end.

(** The copies made before the copy loop stops: those of the members
    before the first one that cannot be read. *)
Fixpoint copied_before (copy : ZipInfo -> result ZipInfo) (items : list ZipInfo)
    : list ZipInfo :=
  match items with
  | [] => []
  | item :: rest =>
      match copy item with
      | Ok m => m :: copied_before copy rest
      | Raise _ => []
      end
  end.

(** The archive that is in the output file when the copy loop has
    stopped with an error: leaving the [with] block closes the archive
    with the marker and the copies made so far. *)
Definition unfinished_epub (src : ZipFile) (opf_path : option string)
    (patched_opf : option string) : ZipFile :=
  mimetype_member
  :: copied_before (copy_member src opf_path patched_opf)
       (filter (fun item => negb (filename item =? "mimetype")) src).

(** How a member of the output relates to the member of the source it was
    copied from: same name, deflated, no extra field, readable, and the
    content the source gives under that name, or the patched package
    document. *)
Definition copied_from (src : ZipFile) (opf_path patched_opf : option string)
    (item m : ZipInfo) : Prop :=
  filename m = filename item
  /\ compress_type m = ZIP_DEFLATED
  /\ extra m = ""
  /\ read_error m = None
  /\ (zip_read src (filename item) = Ok (data m)
      \/ (patched_opf = Some (data m) /\ opf_path = Some (filename item))).

Section EpubFiles.
Variable env : Env.

(** [zipfile.ZipFile(path, "r")]. *)
Definition open_zip (path : string) : M ZipFile :=
  bytes <- read_file path ;;
  match zip_load lib bytes with
  | Some zf => ret zf
  | None => raise BadZipFile
  end.

(** [_prepare_epub].  The output file is created before the copy loop
    runs; when the loop stops with an error, the file stays, holding the
    archive as far as it was written, and the error goes to the handler,
    which catches [BadZipFile] only. *)
Definition _prepare_epub (path : string) (inject_cover : bool)
    : M (string * option string) :=
  if negb (Py.endswith ".epub" (str_lower lib path)) then ret (path, None)
  else
    try_except
      (src <- open_zip path ;;
       opf_path <- lift (_locate_opf src) ;;
       ' (patched_opf, new_files) <- lift (cover_step src opf_path inject_cover) ;;
       n <- draw ;;
       let out_path := tmp_name env n ".epub" in
       write_file out_path "" ;;
       match write_epub src opf_path patched_opf new_files with
       | Raise e =>
           write_file out_path
             (zip_dump lib (unfinished_epub src opf_path patched_opf)) ;;
           raise e
       | Ok dst =>
           write_file out_path (zip_dump lib dst) ;;
           log DEBUG ("Prepared epub: " ++ path ++ " -> " ++ out_path) ;;
           ret (out_path, Some out_path)
       end)
      (fun e => match e with
                | BadZipFile => ret (path, None)
                | _ => raise e
                end).

End EpubFiles.
End Epub.
(* --------------------------------------------------------------------- *)
(** ** HTTP helpers: the multipart body and the upload *)
(* --------------------------------------------------------------------- *)

Definition crlf : string :=
  String (Ascii.ascii_of_nat 13) (String (Ascii.ascii_of_nat 10) EmptyString).

Definition _MIME_TYPES : dict :=
  [(".epub", "application/epub+zip"); (".pdf", "application/pdf")].

(** [_ProgressBody]: the data, the position in it, and whether a callback
    was given. *)
Record ProgressBody := mkProgressBody {
  _data : string;
  _pos : nat;
  _cb : bool
}.

(** [_ProgressBody.read(size)]: the chunk returned, the object afterwards
    and, when the callback is called, the fraction [self._pos /
    len(self._data)] it is called with, as numerator and denominator. *)
Definition ProgressBody_read (size : Z) (self : ProgressBody)
    : string * ProgressBody * option (nat * nat) :=
  let chunk :=
    if (size <? 0)%Z then Py.drop (_pos self) (_data self)
    else String.substring (_pos self) (Z.to_nat size) (_data self) in
  let pos :=
    if (size <? 0)%Z then String.length (_data self)
    else _pos self + String.length chunk in
  (chunk,
   mkProgressBody (_data self) pos (_cb self),
   if _cb self && Py.truthy (_data self)
   then Some (pos, String.length (_data self))
   else None).

Section Upload.
Variable lib : Lib.
Variable env : Env.

(** The content type of an upload: the explicit map, then
    [mimetypes.guess_type], then the generic type. *)
Definition content_type_of (filename : string) : string :=
  let ext := str_lower lib (snd (Py.splitext filename)) in
  match dict_get ext _MIME_TYPES with
  | Some t => t
  | None =>
      match guess_type lib filename with
      | Some t => if Py.truthy t then t else "application/octet-stream"
      | None => "application/octet-stream"
      end
  end.

(** [_build_multipart(filename, file_data)]: the body and the value of the
    Content-Type header. *)
Definition _build_multipart (filename file_data : string) : M (string * string) :=
  n <- draw ;;
  let boundary := "----remarkable-" ++ uuid4_hex env n in
  let content_type := content_type_of filename in
  let body :=
    utf8_encode lib ("--" ++ boundary ++ crlf)
    ++ utf8_encode lib ("Content-Disposition: form-data; name=" ++ dq ++ "file" ++ dq
                        ++ "; filename=" ++ dq ++ filename ++ dq ++ crlf)
    ++ utf8_encode lib ("Content-Type: " ++ content_type ++ crlf)
    ++ crlf ++ file_data ++ crlf
    ++ utf8_encode lib ("--" ++ boundary ++ "--" ++ crlf) in
  ret (body, "multipart/form-data; boundary=" ++ boundary).

(** The text of the error raised for a non-success status. *)
Definition upload_error_message (code : nat) (error_body display_name : string)
    (size : nat) : string :=
  "Upload failed (HTTP " ++ Py.str_of_nat code ++ "): "
  ++ Py.str_or error_body "no details"
  ++ " [file=" ++ display_name ++ ", size=" ++ Py.str_of_nat size ++ "]".

(** The answer of the device, as [upload_file] hands it on. *)
Definition upload_result (display_name body : string) : result string :=
  match upload_response env body with
  | PostOk json => Ok json
  | PostHTTPError code raw =>
      Raise (RuntimeError
               (upload_error_message code (utf8_decode_replace lib raw)
                  display_name (String.length body)))
  | PostFails e => Raise e
  end.

(** [upload_file].  The progress callback is called with a float fraction
    each time the HTTP client reads a block of the body; these calls are
    left out, so that [reported] lacks the entries that the callback of
    [upload_books] adds while a body is sent. *)
Definition upload_file (ip local_path folder_id display_name : string)
    (inject_cover navigate : bool) : M string :=
  (if navigate then
     try_except (fetch_documents env ip folder_id ;; ret tt)
       (fun _ => log WARNING ("Pre-upload navigation failed for folder="
                              ++ folder_id))
   else ret tt) ;;
  ' (prepared_path, cleanup_path) <- _prepare_epub lib env local_path inject_cover ;;
  try_finally
    (file_data <- read_file prepared_path ;;
     ' (body, content_type) <- _build_multipart display_name file_data ;;
     send (POST_upload ip content_type body) ;;
     match upload_response env body with
     | PostOk json => ret json
     | PostHTTPError code raw =>
         let error_body := utf8_decode_replace lib raw in
         log ERROR ("Upload HTTP " ++ Py.str_of_nat code ++ ": " ++ error_body
                    ++ " (file=" ++ display_name ++ ", folder=" ++ folder_id
                    ++ ", size=" ++ Py.str_of_nat (String.length body) ++ ")") ;;
         raise (RuntimeError
                  (upload_error_message code error_body display_name
                     (String.length body)))
     | PostFails e => raise e
     end)
    (match cleanup_path with
     | Some p => if Py.truthy p then unlink_quietly p else ret tt
     | None => ret tt
     end).

End Upload.
End WebInterface.

(* ===================================================================== *)
(** * plugin/__init__.py: the device driver *)
(* ===================================================================== *)

Module Plugin.
Import Eff WebInterface.

(** [rm_data.PluginSettings]. *)
Record PluginSettings := mkPluginSettings {
  IP : string;
  model : string;
  preferred_format : string;
  target_folder : string;
  inject_cover : bool;
  pdf_margin : nat;
  pdf_font_size : nat;
  pdf_font : string;
  embed_all_fonts : bool
}.

(** One element of [upload_items]. *)
Record UploadItem := mkUploadItem {
  index : nat;
  local_path : string;
  upload_name : string;
  visible_name : string;
  meta : option string;
  needs_convert : bool;
  converted_path : option string;
  cleanup_path : option string
}.

Section Driver.
Variable lib : Lib.
Variable env : Env.

(** [_find_ebook_convert]: the location is looked up once and cached in the
    module global. *)
Definition _find_ebook_convert : M string :=
  fun w =>
    match _ebook_convert_path w with
    | Some p => (Ok p, w)
    | None =>
        (Ok (which_ebook_convert env),
         mkWorld (requests w) (logs w) (reported w) (files w) (fresh w)
                 (_device w) (Some (which_ebook_convert env)))
    end.

(** [_convert_epub_to_pdf].  The command line (page size, margins, fonts)
    goes to the external converter, whose outcome for the input is
    [ebook_convert env]; the function creates the output file first and
    removes it again on any failure.  The two INFO lines are kept up to the
    paths; the options and the page size that follow are left out. *)
Definition _convert_epub_to_pdf (epub_path : string) : M string :=
  n <- draw ;;
  let out_path := tmp_name env n ".pdf" in
  write_file out_path "" ;;
  exe <- _find_ebook_convert ;;
  try_except
    (log INFO ("Converting EPUB to PDF: " ++ exe ++ " " ++ epub_path ++ " " ++ out_path) ;;
     match ebook_convert env epub_path with
     | ConvSpawnFails what => raise (OSError what)
     | ConvTimeout => raise (TimeoutError "ebook-convert timed out after 300s")
     | ConvExit returncode stdout pdf =>
         write_file out_path pdf ;;
         if negb (returncode =? 0)%Z then
           let stdout_tail := Py.take 500 stdout in
           log ERROR ("ebook-convert failed (rc=" ++ Py.str_of_Z returncode
                      ++ "): " ++ stdout_tail) ;;
           raise (RuntimeError ("Conversion failed (rc=" ++ Py.str_of_Z returncode
                                ++ "): " ++ stdout_tail))
         else
           log INFO ("Converted EPUB to PDF: " ++ out_path) ;;
           ret out_path
     end)
    (fun e => unlink_quietly out_path ;; raise e).

(** The exception a conversion ends with, as the outcome of the converter
    decides it. *)
Definition conversion_failure (epub_path : string) : option exn :=
  match ebook_convert env epub_path with
  | ConvSpawnFails what => Some (OSError what)
  | ConvTimeout => Some (TimeoutError "ebook-convert timed out after 300s")
  | ConvExit returncode stdout _ =>
      if negb (returncode =? 0)%Z then
        Some (RuntimeError ("Conversion failed (rc=" ++ Py.str_of_Z returncode
                            ++ "): " ++ Py.take 500 stdout))
      else None
  end.

(** The list [upload_items] built from the three argument lists ([zip]
    stops at the shortest). *)
Fixpoint build_items (cfg : PluginSettings) (i : nat)
    (files_original names : list string) (metadata : list (option string))
    : list UploadItem :=
  match files_original, names, metadata with
  | local_path :: fs, visible_name :: ns, meta :: ms =>
      mkUploadItem i local_path (Py.basename visible_name) visible_name meta
        ((preferred_format cfg =? "pdf")
         && (str_lower lib (snd (Py.splitext local_path)) =? ".epub"))
        None None
      :: build_items cfg (S i) fs ns ms
  | _, _, _ => []
  end.

(** The item dictionaries are shared between [upload_items] and
    [items_to_convert]: a change made through one list is seen through the
    other.  Items are addressed by their [index]. *)
Definition set_converted (pdf_path : string) (it : UploadItem) : UploadItem :=
  mkUploadItem (index it) pdf_path
    (fst (Py.splitext (upload_name it)) ++ ".pdf") (visible_name it) (meta it)
    (needs_convert it) (Some pdf_path) (Some pdf_path).

Fixpoint update_item (i : nat) (f : UploadItem -> UploadItem)
    (items : list UploadItem) : list UploadItem :=
  match items with
  | [] => []
  | it :: rest =>
      if (index it =? i)%nat then f it :: rest else it :: update_item i f rest
  end.

(** The worker pool: every submitted conversion runs to its end (leaving
    the [with] block waits for all of them); the outcomes are listed in the
    order of completion, each with its position in [items_to_convert]. *)
Fixpoint run_workers (to_convert : list UploadItem) (order : list nat)
    : M (list (nat * result string)) :=
  match order with
  | [] => ret []
  | pos :: rest =>
      match nth_error to_convert pos with
      | None => run_workers to_convert rest
      | Some it =>
          fun w =>
            match _convert_epub_to_pdf (local_path it) w with
            | (r, w') =>
                match run_workers to_convert rest w' with
                | (Ok rs, w'') => (Ok ((pos, r) :: rs), w'')
                | (Raise e, w'') => (Raise e, w'')
                end
            end
      end
  end.

(** The loop over [as_completed]: a finished conversion updates its item
    and reports progress, a failed one is logged with the name of the item
    and raised again. *)
Fixpoint collect (total : nat) (to_convert : list UploadItem)
    (outcomes : list (nat * result string))
    (convert_done : nat) (upload_items : list UploadItem)
    : M (list UploadItem) :=
  match outcomes with
  | [] => ret upload_items
  | (pos, r) :: rest =>
      match nth_error to_convert pos with
      | None => collect total to_convert rest convert_done upload_items
      | Some it0 =>
          let item :=
            match find (fun it => (index it =? index it0)%nat) upload_items with
            | Some it => it
            | None => it0
            end in
          match r with
          | Ok pdf_path =>
              let upload_items :=
                update_item (index item) (set_converted pdf_path) upload_items in
              let convert_done := S convert_done in
              report_progress ("Converted " ++ Py.str_of_nat convert_done ++ "/"
                               ++ Py.str_of_nat total) ;;
              collect total to_convert rest convert_done upload_items
          | Raise e =>
              log ERROR ("Conversion failed for " ++ upload_name item) ;;
              raise e
          end
      end
  end.

(** Phase 1 of [upload_books]. *)
Definition convert_phase (cfg : PluginSettings) (upload_items : list UploadItem)
    : M (list UploadItem) :=
  let items_to_convert := filter needs_convert upload_items in
  match items_to_convert with
  | [] => ret upload_items
  | _ :: _ =>
      let total := length items_to_convert in
      let max_workers :=
        Nat.min (Nat.min (Nat.max (match cpu_count env with
                                   | Some (S c) => S c
                                   | _ => 2
                                   end) 2) 4) total in
      log INFO ("Converting " ++ Py.str_of_nat total ++ " EPUBs in parallel ("
                ++ Py.str_of_nat max_workers ++ " workers)") ;;
      report_progress ("Converting " ++ Py.str_of_nat total ++ " books...") ;;
      outcomes <- run_workers items_to_convert (completion env total) ;;
      collect total items_to_convert outcomes 0 upload_items
  end.

(** The upload loop of phase 2; [locations] collects the visible names.
    Of the progress reports of an upload, the one before it starts and
    the one after it has ended are recorded; those that [_upload_progress]
    makes in between, with the same status, are not. *)
Fixpoint upload_loop (cfg : PluginSettings) (folder_id : string)
    (items : list UploadItem) (locations : list string) : M (list string) :=
  match items with
  | [] => ret locations
  | item :: rest =>
      report_progress ("Uploading: " ++ upload_name item) ;;
      let locations := List.app locations [visible_name item] in
      try_finally
        (log INFO ("Uploading: " ++ local_path item ++ " as " ++ upload_name item) ;;
         upload_file lib env (IP cfg) (local_path item) folder_id (upload_name item)
           (inject_cover cfg) false)
        (match cleanup_path item with
         | Some p => if Py.truthy p then unlink_quietly p else ret tt
         | None => ret tt
         end) ;;
      report_progress "" ;;
      upload_loop cfg folder_id rest locations
  end.

(** Phase 2 of [upload_books]: one navigation to the target folder when one
    was resolved, then the uploads in order. *)
Definition upload_phase (cfg : PluginSettings) (folder_id : string)
    (upload_items : list UploadItem) : M (list string) :=
  (if Py.truthy folder_id then
     try_except (fetch_documents env (IP cfg) folder_id ;; ret tt)
       (fun _ => log WARNING "Pre-upload folder navigation failed")
   else ret tt) ;;
  upload_loop cfg folder_id upload_items [].

(** The resolution of the target folder at the start of [upload_books]. *)
Definition resolve_folder (cfg : PluginSettings) : M string :=
  if Py.truthy (target_folder cfg) then
    folder_id <- find_folder_id env (str_lower lib) (IP cfg) (target_folder cfg) ;;
    (if Py.truthy folder_id then
       log INFO ("Uploading to folder: " ++ target_folder cfg
                 ++ " (id=" ++ folder_id ++ ")")
     else
       log WARNING ("Folder '" ++ target_folder cfg
                    ++ "' not found on device - uploading to root. "
                    ++ "Create the folder on your reMarkable first, then retry.")) ;;
    ret folder_id
  else ret "".

(** [metadata or [None] * len(files_original)]. *)
Definition metadata_or_default (metadata : option (list (option string)))
    (files_original : list string) : list (option string) :=
  match metadata with
  | Some (m :: ms) => m :: ms
  | _ => repeat None (length files_original)
  end.

(** [RemarkableUsbDevice.upload_books]; [cfg] is [self._settings()]. *)
Definition upload_books (cfg : PluginSettings) (files_original names : list string)
    (metadata : option (list (option string)))
    : M (list string * list (option string)) :=
  trace_calls "RemarkableUsbDevice.upload_books"
    (match files_original with
     | [] => ret ([], match metadata with Some m => m | None => [] end)
     | _ :: _ =>
         let metadata := metadata_or_default metadata files_original in
         folder_id <- resolve_folder cfg ;;
         let upload_items := build_items cfg 0 files_original names metadata in
         upload_items <- convert_phase cfg upload_items ;;
         locations <- upload_phase cfg folder_id upload_items ;;
         ret (locations, metadata)
     end).

(** The world in which [upload_books] starts its conversion phase, and the
    folder id it has resolved by then. *)
Definition after_resolution (cfg : PluginSettings) (w : World) : World :=
  snd (resolve_folder cfg
         (snd (log DEBUG "-> RemarkableUsbDevice.upload_books" w))).
Definition resolved_folder (cfg : PluginSettings) (w : World) : result string :=
  fst (resolve_folder cfg
         (snd (log DEBUG "-> RemarkableUsbDevice.upload_books" w))).

(** [RemarkableUsbDevice.delete_books]. *)
Definition delete_books (paths : list string) : M unit :=
  trace_calls "RemarkableUsbDevice.delete_books"
    (let book_names :=
       Py.str_join nl (map (fun p => "  - " ++ Py.basename p) paths) in
     raise (UserFeedback
              "Cannot delete via USB web interface"
              ("The reMarkable USB web interface does not support deleting books."
               ++ nl ++ nl
               ++ "Please delete these directly on your reMarkable:" ++ nl
               ++ book_names)
              FEEDBACK_WARNING)).

(** The outcome that belongs to position [fst pr] of [to_convert]: the
    failure of the converter on that item, or some output path. *)
Definition outcome_of (to_convert : list UploadItem)
    (pr : nat * result string) : Prop :=
  exists it, nth_error to_convert (fst pr) = Some it /\
    match conversion_failure (local_path it) with
    | Some e => snd pr = Raise e
    | None => exists out, snd pr = Ok out
    end.

End Driver.
End Plugin.

(* ===================================================================== *)
(** * plugin/__init__.py: book lists and device presence *)
(* ===================================================================== *)

Module PluginBooks.
Import Eff WebInterface Plugin RmData.

(** A [Book] object in a list: its value and the identity of the object.
    Python's [in] and [list.remove] accept an element that is the object
    looked for before they try [==]. *)
Record BookObj := mkBookObj { oid : nat; value : Book }.

(** [y is book or y == book], for an element [y] of a list. *)
Definition same (y book : BookObj) : bool :=
  (oid y =? oid book)%nat || Book_eq (value y) (value book).

(** [book in l]. *)
Definition py_in (book : BookObj) (l : list BookObj) : bool :=
  existsb (fun y => same y book) l.

(** [l.remove(book)]: the first element that is the book or equals it
    goes; [None] stands for the [ValueError] raised when there is none. *)
Fixpoint list_remove (book : BookObj) (l : list BookObj) : option (list BookObj) :=
  match l with
  | [] => None
  | y :: rest =>
      if same y book then Some rest
      else match list_remove book rest with
           | Some rest' => Some (y :: rest')
           | None => None
           end
  end.

(** No element of the list is, or equals, an element after it. *)
Fixpoint pairwise_distinct (l : list BookObj) : Prop :=
  match l with
  | [] => True
  | x :: rest => Forall (fun y => same x y = false) rest /\ pairwise_distinct rest
  end.

(** [for book in src: if book not in dst: dst.append(book)]. *)
Definition append_missing (src dst : list BookObj) : list BookObj :=
  fold_left (fun acc book => if py_in book acc then acc else List.app acc [book])
            src dst.

(** [_books_from_tree]: one new [Book] per file of the tree.  The objects
    get the identities from [next_oid] on; [localtime i] is the default
    [datetime] of the [i]-th of them. *)
Definition _books_from_tree (localtime : nat -> list Z) (next_oid : nat)
    (tree : FileTree) : list BookObj :=
  let found := all_files tree "" in
  map (fun ipe : nat * (string * DeviceEntry) =>
         let i := fst ipe in
         let path := fst (snd ipe) in
         let entry := snd (snd ipe) in
         mkBookObj (next_oid + i)
           (mkBook (Py.str_or (name entry) path) "" (entry_id entry) [] "" 0
                   (localtime i) [] path None))
      (combine (seq 0 (length found)) found).

(** The fields of a Calibre [Metadata] object that [add_books_to_metadata]
    reads; [m_pubdate] is the time tuple of the publication date.  A field
    that [meta.get] finds missing is [None] in the source and the empty
    value of its type here: [Book.__eq__] tests these fields for truth
    before it compares them, and both are false. *)
Record Metadata := mkMetadata {
  m_title : string;
  m_uuid : string;
  m_authors : list string;
  m_size : Z;
  m_pubdate : option (list Z);
  m_tags : list string
}.

(** The loop of [add_books_to_metadata] from index [i] on.  The flag is
    false when [locations[0][i]] raised [IndexError]; the list is the book
    list as the loop left it. *)
Fixpoint add_books (i : nat) (locations0 : list string) (metadata : list Metadata)
    (next_oid : nat) (bl : list BookObj) : list BookObj * bool :=
  match metadata with
  | [] => (bl, true)
  | meta :: rest =>
      match nth_error locations0 i with
      | None => (bl, false)
      | Some location =>
          let book :=
            mkBookObj next_oid
              (mkBook (m_title meta) (m_uuid meta) "" (m_authors meta) ""
                      (m_size meta)
                      (match m_pubdate meta with Some t => t | None => [] end)
                      (m_tags meta) location None) in
          add_books (S i) locations0 rest (S next_oid)
            (if py_in book bl then bl else List.app bl [book])
      end
  end.

(** [RemarkableUsbDevice.add_books_to_metadata]; [bl] is [booklists[0]]
    and [locations0] is [locations[0]]. *)
Definition add_books_to_metadata (locations0 : list string)
    (metadata : list Metadata) (next_oid : nat) (bl : list BookObj)
    : M (list BookObj * bool) :=
  trace_calls "RemarkableUsbDevice.add_books_to_metadata"
    (ret (add_books 0 locations0 metadata next_oid bl)).

(** [RemarkableUsbDevice.remove_books_from_metadata]; [bl] is
    [booklists[0]].  The books to remove are collected first, then removed
    one by one; [None] stands for a [ValueError] of [list.remove]. *)
Definition remove_books_from_metadata (paths : list string) (bl : list BookObj)
    : option (list BookObj) :=
  fold_left (fun acc book => match acc with
                             | Some l => list_remove book l
                             | None => None
                             end)
            (filter (fun b => existsb (fun p => p =? path (value b)) paths) bl)
            (Some bl).

(** [str(DeviceInfo)]. *)
Definition device_str (d : DeviceInfo) : string :=
  "reMarkable at http://" ++ ip d ++ " (session=" ++ Py.str_of_nat (session_id d)
  ++ ")".

(** Reading and setting the module global [_device]. *)
Definition get_device : M (option DeviceInfo) := fun w => (Ok (_device w), w).
Definition set_device (d : option DeviceInfo) : M unit :=
  fun w => (Ok tt, mkWorld (requests w) (logs w) (reported w) (files w)
                           (fresh w) d (_ebook_convert_path w)).

(** [RemarkableUsbDevice.is_usb_connected]. *)
Definition is_usb_connected : M (bool * option DeviceInfo) :=
  trace_calls "RemarkableUsbDevice.is_usb_connected"
    (d <- get_device ;;
     ret (match d with Some _ => true | None => false end, d)).

(** [RemarkableUsbDevice.eject]. *)
Definition eject : M unit :=
  trace_calls "RemarkableUsbDevice.eject" (set_device None).

(** [RemarkableUsbDevice.get_device_information]. *)
Definition get_device_information : M (string * string * string * string) :=
  trace_calls "RemarkableUsbDevice.get_device_information"
    (d <- get_device ;;
     ret (match d with
          | Some dev => (device_str dev, "", "", "application/epub")
          | None => ("reMarkable (not connected)", "", "", "")
          end)).

(** [RemarkableUsbDevice.get_device_uid]. *)
Definition get_device_uid : M string :=
  trace_calls "RemarkableUsbDevice.get_device_uid"
    (d <- get_device ;;
     ret (match d with
          | Some dev => Py.str_of_nat (session_id dev)
          | None => ""
          end)).

Section Books.
Variable env : Env.
Variable localtime : nat -> list Z.

(** [RemarkableUsbDevice.sync_booklists]; the result is the first
    component of the triple returned, the book list, which is the list
    passed in, extended in place.  The progress fractions are floats and
    are not recorded. *)
Definition sync_booklists (cfg : PluginSettings) (next_oid : nat)
    (booklists : option (list BookObj)) : M (list BookObj) :=
  trace_calls "RemarkableUsbDevice.sync_booklists"
    (match booklists with
     | None => ret []
     | Some booklist =>
         report_progress "Connecting to reMarkable..." ;;
         on_device <-
           try_except
             (tree <- build_file_tree env (IP cfg) "" 0 20
                        (Some report_progress) None ;;
              report_progress "Building book list..." ;;
              let on_device := _books_from_tree localtime next_oid tree in
              log INFO ("Book list: " ++ Py.str_of_nat (length on_device)
                        ++ " entries") ;;
              ret on_device)
             (fun _ => log WARNING "Failed to fetch book list" ;; ret []) ;;
         report_progress "Syncing book list..." ;;
         let on_device := append_missing booklist on_device in
         let booklist := append_missing on_device booklist in
         report_progress "" ;;
         ret booklist
     end).

(** [RemarkableUsbDevice.books]. *)
Definition books (cfg : PluginSettings) (next_oid : nat) (oncard : option string)
    : M (list BookObj) :=
  trace_calls "RemarkableUsbDevice.books"
    (match oncard with
     | Some _ => ret []
     | None => sync_booklists cfg next_oid (Some [])
     end).

Section Presence.
(** The clock of [time.monotonic]: [within_interval now last] is
    [(now - last) < _DETECTION_INTERVAL]; [randint n] is the [n]-th random
    session id. *)
Variable time : Type.
Variable within_interval : time -> time -> bool.
Variable randint : nat -> nat.

(** [RemarkableUsbDevice.detect_managed_devices]; [last] is
    [self._last_detection_check], handed back with its new value. *)
Definition detect_managed_devices (cfg : PluginSettings) (now last : time)
    (force_refresh : bool) : M (option DeviceInfo * time) :=
  trace_calls "RemarkableUsbDevice.detect_managed_devices"
    (if negb force_refresh && within_interval now last then
       d <- get_device ;; ret (d, last)
     else
       try_except
         (reachable <- is_reachable env (IP cfg) ;;
          if reachable : bool then
            d <- get_device ;;
            match d with
            | None =>
                n <- draw ;;
                let dev := mkDeviceInfo (IP cfg) (randint n) in
                set_device (Some dev) ;;
                log INFO ("Detected: " ++ device_str dev) ;;
                ret (Some dev, now)
            | Some dev => ret (Some dev, now)
            end
          else ret (None, now))
         (fun _ =>
            log WARNING "Device detection failed" ;;
            set_device None ;;
            ret (None, now))).

End Presence.
End Books.

End PluginBooks.
(* ===================================================================== *)
(** * Concrete devices and inputs *)
(* ===================================================================== *)

Module Examples.
Import Eff WebInterface Plugin.

Definition empty_world : World := mkWorld [] [] [] [] 0 None None.

Definition folder_raw (id parent : string) : dict :=
  [("ID", id); ("Parent", parent); ("VissibleName", id); ("Type", COLLECTION)].

Definition document_raw (id parent : string) : dict :=
  [("ID", id); ("Parent", parent); ("VissibleName", id);
   ("Type", DOCUMENT); ("fileType", "epub")].

Definition quiet_env (l : string -> fetch_result) : Env :=
  mkEnv l (fun _ => PostOk "{}") (fun _ => ConvExit 0 "" "%PDF")
        (fun n => seq 0 n) (Some 4) "/usr/bin/ebook-convert"
        (fun n suffix => "/tmp/tmp" ++ Py.str_of_nat n ++ suffix)
        (fun n => Py.str_of_nat n).

(** A malformed device: the folder [loop] lists itself as its own child. *)
Definition cyclic_env : Env :=
  quiet_env (fun id => Listing [folder_raw "loop" id]).

(** A device whose root listing repeats an id. *)
Definition duplicate_env : Env :=
  quiet_env (fun id =>
    if id =? "" then Listing [document_raw "d1" ""; document_raw "d1" ""]
    else Listing []).

(** A device with a folder and two documents at the root, and two
    documents in the folder. *)
Definition shelf_env : Env :=
  quiet_env (fun id =>
    if id =? "" then
      Listing [document_raw "d1" ""; folder_raw "f1" ""; document_raw "d2" ""]
    else if id =? "f1" then
      Listing [document_raw "d3" "f1"; document_raw "d4" "f1"]
    else Listing []).

Definition shelf_tree : FileTree :=
  mkFileTree
    [mkFileTreeNode (mkDeviceEntry "d1" "" "d1" DOCUMENT "epub") (mkFileTree []);
     mkFileTreeNode (mkDeviceEntry "f1" "" "f1" COLLECTION "")
       (mkFileTree
          [mkFileTreeNode (mkDeviceEntry "d3" "f1" "d3" DOCUMENT "epub")
             (mkFileTree []);
           mkFileTreeNode (mkDeviceEntry "d4" "f1" "d4" DOCUMENT "epub")
             (mkFileTree [])]);
     mkFileTreeNode (mkDeviceEntry "d2" "" "d2" DOCUMENT "epub") (mkFileTree [])].

(** A device with one folder, [Calibre], at the root. *)
Definition calibre_raw : dict :=
  [("ID", "f1"); ("Parent", ""); ("VissibleName", "Calibre"); ("Type", COLLECTION)].

Definition calibre_env : Env :=
  quiet_env (fun id => if id =? "" then Listing [calibre_raw] else Listing []).

(** The same device, with a converter that fails on the second book. *)
Definition failing_env : Env :=
  mkEnv (listing calibre_env) (upload_response calibre_env)
        (fun p => if p =? "/books/two.epub"
                  then ConvExit 1 "ValueError: not a valid EPUB" ""
                  else ConvExit 0 "" "%PDF")
        (completion calibre_env) (cpu_count calibre_env)
        (which_ebook_convert calibre_env) (tmp_name calibre_env)
        (uuid4_hex calibre_env).

(** The same, with a converter whose output mentions its input. *)
Definition verbose_env : Env :=
  mkEnv (listing calibre_env) (upload_response calibre_env)
        (fun p => if p =? "/books/two.epub"
                  then ConvExit 1 ("Cannot read " ++ p) ""
                  else ConvExit 0 "" "%PDF")
        (completion calibre_env) (cpu_count calibre_env)
        (which_ebook_convert calibre_env) (tmp_name calibre_env)
        (uuid4_hex calibre_env).

Definition three_files : list string :=
  ["/books/book.epub"; "/books/two.epub"; "/books/three.epub"].
Definition three_names : list string :=
  ["book.epub"; "two.epub"; "three.epub"].

(** A device that is full: every upload is answered with status 507 and a
    body of a thousand characters. *)
Definition long_error_body : string :=
  String.concat "" (repeat "insufficient storage; " 50).

Definition full_env : Env :=
  mkEnv (listing calibre_env)
        (fun _ => PostHTTPError 507 long_error_body)
        (ebook_convert calibre_env)
        (completion calibre_env) (cpu_count calibre_env)
        (which_ebook_convert calibre_env) (tmp_name calibre_env)
        (uuid4_hex calibre_env).

(** ** Stand-ins for the libraries *)

Definition lower_ascii (a : ascii) : ascii :=
  let n := Ascii.nat_of_ascii a in
  if ((65 <=? n) && (n <=? 90))%nat then Ascii.ascii_of_nat (n + 32) else a.

Fixpoint ascii_lower (s : string) : string :=
  match s with
  | EmptyString => EmptyString
  | String a rest => String (lower_ascii a) (ascii_lower rest)
  end.

(** A rendering of an element as text. *)
Fixpoint render (e : element) : string :=
  "<" ++ tag e
  ++ String.concat "" (map (fun kv => " " ++ fst kv ++ "='" ++ snd kv ++ "'") (attrib e))
  ++ ">"
  ++ (fix over (cs : list element) : string :=
        match cs with
        | [] => ""
        | c :: rest => render c ++ over rest
        end) (children e)
  ++ "</" ++ tag e ++ ">".

Definition container_ns (local : string) : string :=
  "{" ++ _CONTAINER_NS ++ "}" ++ local.

Definition container_doc : element :=
  Element (container_ns "container") [("version", "1.0")]
    [Element (container_ns "rootfiles") []
       [Element (container_ns "rootfile")
          [("full-path", "OEBPS/content.opf");
           ("media-type", "application/oebps-package+xml")] []]].

Definition item (id href media : string) : element :=
  Element (opf "item") [("id", id); ("href", href); ("media-type", media)] [].

Definition package (items : list element) : element :=
  Element (opf "package") [("version", "2.0")]
    [Element (opf "metadata") []
       [Element (opf "meta") [("name", "cover"); ("content", "cover-img")] []];
     Element (opf "manifest") [] items;
     Element (opf "spine") [] [Element (opf "itemref") [("idref", "ch1")] []]].

(** A book with a cover image and no cover page. *)
Definition opf_doc : element :=
  package [item "cover-img" "cover.jpg" "image/jpeg";
           item "ch1" "ch1.xhtml" "application/xhtml+xml"].

(** The same book, whose manifest already uses the id [rm-cover-page] for
    another page. *)
Definition opf_clash : element :=
  package [item "cover-img" "cover.jpg" "image/jpeg";
           item "rm-cover-page" "intro.xhtml" "application/xhtml+xml";
           item "ch1" "ch1.xhtml" "application/xhtml+xml"].

Definition member (name data : string) : ZipInfo :=
  mkZipInfo name ZIP_DEFLATED "" data None.

Definition book_zip : ZipFile :=
  [member "META-INF/container.xml" (render container_doc);
   mkZipInfo "mimetype" ZIP_DEFLATED "streamed" "application/epub+zip" None;
   member "OEBPS/content.opf" (render opf_doc);
   member "OEBPS/ch1.xhtml" "<html><body>Chapter one</body></html>";
   member "OEBPS/cover.jpg" "JFIF"].

Definition clash_zip : ZipFile :=
  [member "mimetype" "application/epub+zip";
   member "META-INF/container.xml" (render container_doc);
   member "OEBPS/content.opf" (render opf_clash);
   member "OEBPS/intro.xhtml" "<html><body>Introduction</body></html>";
   member "OEBPS/ch1.xhtml" "<html><body>Chapter one</body></html>";
   member "OEBPS/cover.jpg" "JFIF"].

(** The first book with a cover image whose stored data fail the CRC
    check, and with a chapter that is encrypted. *)
Definition damaged_zip : ZipFile :=
  [member "META-INF/container.xml" (render container_doc);
   member "mimetype" "application/epub+zip";
   member "OEBPS/content.opf" (render opf_doc);
   member "OEBPS/ch1.xhtml" "<html><body>Chapter one</body></html>";
   mkZipInfo "OEBPS/cover.jpg" ZIP_DEFLATED "" "JFIF" (Some BadZipFile)].

Definition locked_zip : ZipFile :=
  [member "META-INF/container.xml" (render container_doc);
   member "mimetype" "application/epub+zip";
   member "OEBPS/content.opf" (render opf_doc);
   mkZipInfo "OEBPS/ch1.xhtml" ZIP_DEFLATED "" "3fa9c1"
     (Some (RuntimeError
              "File 'OEBPS/ch1.xhtml' is encrypted, password required for extraction"));
   member "OEBPS/cover.jpg" "JFIF"].

(** The parser of the stand-in library knows the documents of this
    section and their patched forms. *)
Definition known_documents : list element :=
  [container_doc; opf_doc; patch_package opf_doc;
   opf_clash; patch_package opf_clash;
   patch_package (patch_package opf_clash)].

Definition toy_fromstring (bytes : string) : option element :=
  find (fun e => render e =? bytes) known_documents.

Definition toy_zip_dump (zf : ZipFile) : string :=
  "PK" ++ String.concat ""
            (map (fun m => "[" ++ filename m
                           ++ match read_error m with
                              | Some _ => "!"
                              | None => "|"
                              end
                           ++ data m ++ "]") zf).

(** The stand-in library without a reader of archives. *)
Definition xml_lib : Lib :=
  mkLib ascii_lower (fun _ => None) (fun s => s) (fun s => s)
        toy_fromstring render (fun _ => None) toy_zip_dump.

(** The archive that [_prepare_epub] writes for an archive, with cover
    injection. *)
Definition repackaged (zf : ZipFile) : ZipFile :=
  match _locate_opf xml_lib zf with
  | Ok opf_path =>
      match cover_step xml_lib zf opf_path true with
      | Ok (patched_opf, new_files) =>
          match write_epub zf opf_path patched_opf new_files with
          | Ok dst => dst
          | Raise _ => []
          end
      | Raise _ => []
      end
  | Raise _ => []
  end.

(** The archives the reader of the stand-in library opens. *)
Definition known_archives : list ZipFile :=
  [book_zip; clash_zip; repackaged book_zip; repackaged clash_zip;
   damaged_zip; locked_zip].

Definition toy_zip_load (bytes : string) : option ZipFile :=
  find (fun zf => toy_zip_dump zf =? bytes) known_archives.

Definition toy_lib : Lib :=
  mkLib ascii_lower (fun _ => None) (fun s => s) (fun s => s)
        toy_fromstring render toy_zip_load toy_zip_dump.

Definition library_world : World :=
  mkWorld [] [] []
    [("/books/book.epub", toy_zip_dump book_zip);
     ("/books/clash.epub", toy_zip_dump clash_zip);
     ("/books/paper.pdf", "%PDF-1.7");
     ("/books/two.epub", toy_zip_dump book_zip);
     ("/books/three.epub", toy_zip_dump book_zip)]
    0 None None.

(** A library with the two books that cannot be read to the end. *)
Definition damaged_world : World :=
  mkWorld [] [] []
    [("/books/damaged.epub", toy_zip_dump damaged_zip);
     ("/books/locked.epub", toy_zip_dump locked_zip)]
    0 None None.

Definition epub_settings : PluginSettings :=
  mkPluginSettings "10.11.99.1" "paper-pro" "epub" "Calibre" true 0 0 "" true.

Definition pdf_settings : PluginSettings :=
  mkPluginSettings "10.11.99.1" "paper-pro" "pdf" "Calibre" true 0 0 "" true.

End Examples.
(* ===================================================================== *)
(** * Properties of plugin/rm_data.py *)
(* ===================================================================== *)

Module RmDataFacts.
Import RmData.

Lemma truthy_true s : Py.truthy s = true <-> s <> "".
Proof.
  unfold Py.truthy. rewrite negb_true_iff. split.
  - intros H E. apply String.eqb_neq in H. contradiction.
  - intros H. apply String.eqb_neq. exact H.
Qed.

Lemma neqb_true s t : negb (s =? t) = true <-> s <> t.
Proof. rewrite negb_true_iff. apply String.eqb_neq. Qed.

Lemma tier_rm_uuid_b a b :
  Py.truthy (rm_uuid a) && Py.truthy (rm_uuid b) && (rm_uuid a =? rm_uuid b) = true
  <-> tier_rm_uuid a b.
Proof.
  unfold tier_rm_uuid.
  rewrite !andb_true_iff, !truthy_true, String.eqb_eq. tauto.
Qed.

Lemma tier_uuid_b a b :
  Py.truthy (uuid a) && Py.truthy (uuid b) && (uuid a =? uuid b) = true
  <-> tier_uuid a b.
Proof.
  unfold tier_uuid.
  rewrite !andb_true_iff, !truthy_true, String.eqb_eq. tauto.
Qed.

Lemma tier_path_b a b :
  Py.truthy (path a) && Py.truthy (path b)
    && negb (path a =? "/") && negb (path b =? "/") && (path a =? path b) = true
  <-> tier_path a b.
Proof.
  unfold tier_path.
  rewrite !andb_true_iff, !truthy_true, !neqb_true, String.eqb_eq. tauto.
Qed.

Lemma Book_eq_true_iff (a b : Book) :
  Book_eq a b = true <-> tier_rm_uuid a b \/ tier_uuid a b \/ tier_path a b.
Proof.
  rewrite <- tier_rm_uuid_b, <- tier_uuid_b, <- tier_path_b.
  unfold Book_eq.
  destruct (Py.truthy (rm_uuid a) && Py.truthy (rm_uuid b)
            && (rm_uuid a =? rm_uuid b)); [tauto|].
  destruct (Py.truthy (uuid a) && Py.truthy (uuid b)
            && (uuid a =? uuid b)); [tauto|].
  destruct (Py.truthy (path a) && Py.truthy (path b)
            && negb (path a =? "/") && negb (path b =? "/")
            && (path a =? path b)); [tauto|].
  split; [discriminate|]. intros [?|[?|?]]; discriminate.
Qed.

(** C1. [a == b] is true exactly when one of the three tiers holds
    (device id, library id, non-root display path, each non-empty on both
    sides and equal); otherwise it is false. *)
Theorem Book_eq_tiers (a b : Book) :
  (Book_eq a b = true <-> tier_rm_uuid a b \/ tier_uuid a b \/ tier_path a b)
  /\ (Book_eq a b = false <->
      ~ (tier_rm_uuid a b \/ tier_uuid a b \/ tier_path a b)).
Proof.
  split; [apply Book_eq_true_iff|].
  rewrite <- Book_eq_true_iff.
  destruct (Book_eq a b); split; intros H; try discriminate; try reflexivity.
  exfalso. apply H. reflexivity.
Qed.

(** The tiers are tried in order: a match on the device id answers true
    whatever the later tiers would say. *)
Lemma Book_eq_first_tier (a b : Book) :
  tier_rm_uuid a b -> Book_eq a b = true.
Proof. intros H. apply Book_eq_true_iff. left. exact H. Qed.

Lemma Book_eq_sym (a b : Book) : Book_eq a b = Book_eq b a.
Proof.
  unfold Book_eq.
  rewrite (String.eqb_sym (rm_uuid a)), (String.eqb_sym (uuid a)),
          (String.eqb_sym (path a) (path b)).
  rewrite (andb_comm (Py.truthy (rm_uuid a))), (andb_comm (Py.truthy (uuid a))).
  replace (Py.truthy (path a) && Py.truthy (path b)
           && negb (path a =? "/") && negb (path b =? "/"))
    with (Py.truthy (path b) && Py.truthy (path a)
          && negb (path b =? "/") && negb (path a =? "/")).
  - reflexivity.
  - destruct (Py.truthy (path a)), (Py.truthy (path b)),
      (negb (path a =? "/")), (negb (path b =? "/")); reflexivity.
Qed.

Lemma Book_eq_refl (b : Book) : has_identifier b -> Book_eq b b = true.
Proof.
  intros H. apply Book_eq_true_iff. unfold tier_rm_uuid, tier_uuid, tier_path.
  destruct H as [H|[H|[H1 H2]]]; tauto.
Qed.

(** C5 as stated fails: a Book without any usable identifier is not equal
    to itself. *)
Lemma Book_eq_not_reflexive : ~ (forall b : Book, Book_eq b b = true).
Proof. intros H. specialize (H bare_book). discriminate H. Qed.

(** C5, amended. Equality is reflexive on every Book that carries a usable
    identifier (and on no other Book), symmetric on all Books, and not
    transitive: A (device id x), B (device id x, library id y),
    C (library id y) satisfy A == B, B == C and not A == C. *)
Theorem Book_eq_partial_equivalence :
  (forall b : Book, Book_eq b b = true <-> has_identifier b)
  /\ (forall a b : Book, Book_eq a b = Book_eq b a)
  /\ (Book_eq bookA bookB = true /\ Book_eq bookB bookC = true
      /\ Book_eq bookA bookC = false).
Proof.
  split; [|split].
  - intros b. split; [|apply Book_eq_refl].
    intros H. apply Book_eq_true_iff in H.
    unfold tier_rm_uuid, tier_uuid, tier_path, has_identifier in *. tauto.
  - apply Book_eq_sym.
  - repeat split.
Qed.

End RmDataFacts.
(* ===================================================================== *)
(** * Properties of the effect layer *)
(* ===================================================================== *)

Module EffFacts.
Import Eff.

Lemma bind_Ok_inv {A B} (c : M A) (k : A -> M B) w b w' :
  bind c k w = (Ok b, w') ->
  exists a w1, c w = (Ok a, w1) /\ k a w1 = (Ok b, w').
Proof.
  unfold bind. destruct (c w) as [[a|e] w1]; intros H.
  - exists a, w1. split; [reflexivity|exact H].
  - discriminate H.
Qed.

Lemma bind_Ok {A B} (c : M A) (k : A -> M B) w a w1 :
  c w = (Ok a, w1) -> bind c k w = k a w1.
Proof. unfold bind. intros ->. reflexivity. Qed.

Lemma bind_Raise {A B} (c : M A) (k : A -> M B) w e w1 :
  c w = (Raise e, w1) -> bind c k w = (Raise e, w1).
Proof. unfold bind. intros ->. reflexivity. Qed.

Lemma lift_Ok_inv {A} (r : result A) w a w' :
  lift r w = (Ok a, w') -> r = Ok a /\ w' = w.
Proof. unfold lift. intros H. inversion H. split; reflexivity. Qed.

Lemma ret_inv {A} (a b : A) w w' :
  ret a w = (Ok b, w') -> a = b /\ w' = w.
Proof. unfold ret. intros H. inversion H. split; reflexivity. Qed.

Lemma map_result_Ok_length {A B} (f : A -> result B) l bs :
  map_result f l = Ok bs -> length bs = length l.
Proof.
  revert bs. induction l as [|a l IH]; simpl; intros bs H.
  - inversion H. reflexivity.
  - destruct (f a) as [b|e]; [|discriminate].
    destruct (map_result f l) as [bs'|e]; [|discriminate].
    inversion H. simpl. f_equal. apply IH. reflexivity.
Qed.

Lemma map_result_Ok_Forall2 {A B} (f : A -> result B) l bs :
  map_result f l = Ok bs -> Forall2 (fun a b => f a = Ok b) l bs.
Proof.
  revert bs. induction l as [|a l IH]; simpl; intros bs H.
  - inversion H. constructor.
  - destruct (f a) as [b|e] eqn:Ea; [|discriminate].
    destruct (map_result f l) as [bs'|e]; [|discriminate].
    inversion H. constructor; [exact Ea|]. apply IH. reflexivity.
Qed.

End EffFacts.

(* ===================================================================== *)
(** * Properties of the crawler *)
(* ===================================================================== *)

Module TreeFacts.
Import Eff WebInterface EffFacts.

(** ** The model follows the recursion of the source *)

(** Below the bound, one call is one fetch, the sort, the progress message
    and the loop over the entries, whose recursive calls run one level
    deeper. *)
Lemma build_from_below env ip d m root cb c :
  d < m ->
  build_from env ip m (m - d) root cb c =
  (raw_list <- fetch_documents env ip root ;;
   es <- lift (map_result from_json raw_list) ;;
   match cb with
   | Some f => f ("Scanning reMarkable... "
                  ++ Py.str_of_nat (c + length (sort_by_parent es))
                  ++ " items found")
   | None => ret tt
   end ;;
   ' (nodes, counter) <-
     for_entries (fun id c => build_from env ip m (m - S d) id cb c)
       (sort_by_parent es) (c + length (sort_by_parent es)) ;;
   ret (mkFileTree nodes, counter)).
Proof.
  intros Hd. replace (m - d) with (S (m - S d)) by lia. reflexivity.
Qed.

(** ** What the loop over one level builds *)

Lemma for_entries_Ok (P : FileTree -> Prop) recur es c w nodes c' w' :
  (forall id c w t c' w', recur id c w = (Ok (t, c'), w') -> P t) ->
  P (mkFileTree []) ->
  for_entries recur es c w = (Ok (nodes, c'), w') ->
  map entry nodes = es /\ Forall (fun n => P (subtree n)) nodes.
Proof.
  intros Hrec Hempty. revert c w nodes c' w'.
  induction es as [|e rest IH]; intros c w nodes c' w' H; simpl in H.
  - apply ret_inv in H. destruct H as [H _]. inversion H. split; constructor.
  - apply bind_Ok_inv in H. destruct H as [[sub c1] [w1 [Hsub H]]].
    apply bind_Ok_inv in H. destruct H as [[ns c2] [w2 [Hrest H]]].
    apply ret_inv in H. destruct H as [H _]. inversion H; subst.
    apply IH in Hrest. destruct Hrest as [Hmap Hall].
    split; [simpl; f_equal; exact Hmap|].
    constructor; [|exact Hall]. simpl.
    destruct (is_folder e).
    + eapply Hrec. exact Hsub.
    + apply ret_inv in Hsub. destruct Hsub as [Hsub _].
      inversion Hsub. exact Hempty.
Qed.

Lemma every_level_nodes (P : FileTree -> Prop) ns :
  P (mkFileTree ns) ->
  Forall (fun n => every_level P (subtree n)) ns ->
  every_level P (mkFileTree ns).
Proof.
  intros HP Hall. simpl. split; [exact HP|]. clear HP.
  induction Hall as [|n ns Hn Hall IH].
  - exact I.
  - destruct n as [e s]. split; [exact Hn|exact IH].
Qed.

Lemma height_nodes g ns :
  Forall (fun n => height (subtree n) <= g) ns ->
  height (mkFileTree ns) <= S g.
Proof.
  intros Hall. cbn -[Nat.max].
  induction Hall as [|n ns Hn Hall IH].
  - lia.
  - destruct n as [e s]. cbn -[Nat.max] in *.
    apply Nat.max_lub; [lia|exact IH].
Qed.

Lemma build_from_height env ip m gap root cb c w t c' w' :
  build_from env ip m gap root cb c w = (Ok (t, c'), w') -> height t <= gap.
Proof.
  revert root c w t c' w'.
  induction gap as [|g IH]; intros root c w t c' w' H; simpl in H.
  - apply bind_Ok_inv in H. destruct H as [[] [w1 [_ H]]].
    apply ret_inv in H. destruct H as [H _]. inversion H. simpl. lia.
  - apply bind_Ok_inv in H. destruct H as [raws [w1 [_ H]]].
    apply bind_Ok_inv in H. destruct H as [es [w2 [_ H]]].
    apply bind_Ok_inv in H. destruct H as [[] [w3 [_ H]]].
    apply bind_Ok_inv in H. destruct H as [[ns c1] [w4 [Hloop H]]].
    apply ret_inv in H. destruct H as [H _]. inversion H; subst.
    apply height_nodes.
    eapply (for_entries_Ok (fun t => height t <= g)); [| |exact Hloop].
    + intros id c0 w0 t0 c0' w0' H0. eapply IH. exact H0.
    + simpl. lia.
Qed.

(** ** Ids within one level *)

Lemma insert_by_parent_perm e l : Permutation (insert_by_parent e l) (e :: l).
Proof.
  induction l as [|x l IH]; simpl.
  - apply Permutation_refl.
  - destruct (String.leb (parent_id e) (parent_id x)).
    + apply Permutation_refl.
    + eapply perm_trans; [apply perm_skip, IH|apply perm_swap].
Qed.

Lemma sort_by_parent_perm l : Permutation (sort_by_parent l) l.
Proof.
  induction l as [|e l IH]; simpl.
  - apply perm_nil.
  - eapply perm_trans; [apply insert_by_parent_perm|apply perm_skip, IH].
Qed.

Lemma from_json_id raw e : from_json raw = Ok e -> dict_get "ID" raw = Some (entry_id e).
Proof.
  unfold from_json. destruct (dict_get "ID" raw) as [id|]; [|discriminate].
  intros H. inversion H. reflexivity.
Qed.

Lemma from_json_ids raws es :
  map_result from_json raws = Ok es ->
  map (dict_get "ID") raws = map (fun e => Some (entry_id e)) es.
Proof.
  intros H. apply map_result_Ok_Forall2 in H.
  induction H as [|r e raws es Hr _ IH]; simpl.
  - reflexivity.
  - rewrite (from_json_id _ Hr), IH. reflexivity.
Qed.

Lemma distinct_ids_sorted raws es :
  distinct_ids raws ->
  map_result from_json raws = Ok es ->
  NoDup (map entry_id (sort_by_parent es)).
Proof.
  unfold distinct_ids. intros Hnd H.
  rewrite (from_json_ids _ H) in Hnd.
  rewrite <- (map_map entry_id Some) in Hnd.
  apply NoDup_map_inv in Hnd.
  eapply Permutation_NoDup; [|exact Hnd].
  apply Permutation_map, Permutation_sym, sort_by_parent_perm.
Qed.

Lemma fetch_documents_Ok_inv env ip id w raws w' :
  fetch_documents env ip id w = (Ok raws, w') -> listing env id = Listing raws.
Proof.
  unfold fetch_documents. intros H.
  apply bind_Ok_inv in H. destruct H as [[] [w1 [_ H]]].
  destruct (listing env id) as [r|e].
  - apply ret_inv in H. destruct H as [-> _]. reflexivity.
  - discriminate H.
Qed.

Lemma build_from_distinct env ip m gap root cb c w t c' w' :
  (forall id raws, listing env id = Listing raws -> distinct_ids raws) ->
  build_from env ip m gap root cb c w = (Ok (t, c'), w') ->
  every_level (fun l => NoDup (level_ids l)) t.
Proof.
  intros Henv. revert root c w t c' w'.
  induction gap as [|g IH]; intros root c w t c' w' H; simpl in H.
  - apply bind_Ok_inv in H. destruct H as [[] [w1 [_ H]]].
    apply ret_inv in H. destruct H as [H _]. inversion H.
    simpl. split; [constructor|exact I].
  - apply bind_Ok_inv in H. destruct H as [raws [w1 [Hfetch H]]].
    apply bind_Ok_inv in H. destruct H as [es [w2 [Hes H]]].
    apply bind_Ok_inv in H. destruct H as [[] [w3 [_ H]]].
    apply bind_Ok_inv in H. destruct H as [[ns c1] [w4 [Hloop H]]].
    apply ret_inv in H. destruct H as [H _]. inversion H; subst.
    apply lift_Ok_inv in Hes. destruct Hes as [Hes _].
    apply fetch_documents_Ok_inv in Hfetch.
    apply (for_entries_Ok (every_level (fun l => NoDup (level_ids l)))) in Hloop.
    + destruct Hloop as [Hmap Hsub].
      apply every_level_nodes; [|exact Hsub].
      unfold level_ids. simpl. rewrite <- (map_map entry entry_id), Hmap.
      eapply distinct_ids_sorted; [|exact Hes]. eapply Henv. exact Hfetch.
    + intros id c0 w0 t0 c0' w0' H0. eapply IH. exact H0.
    + simpl. split; [constructor|exact I].
Qed.

(** ** The levels of a tree and the listings of the device *)

Lemma for_entries_nodes (R : string -> FileTree -> Prop) recur es c w nodes c' w' :
  (forall id c w t c' w', recur id c w = (Ok (t, c'), w') -> R id t) ->
  for_entries recur es c w = (Ok (nodes, c'), w') ->
  map entry nodes = es
  /\ Forall (fun n => if is_folder (entry n)
                      then R (entry_id (entry n)) (subtree n)
                      else subtree n = mkFileTree []) nodes.
Proof.
  intros Hrec. revert c w nodes c' w'.
  induction es as [|e rest IH]; intros c w nodes c' w' H; simpl in H.
  - apply ret_inv in H. destruct H as [H _]. inversion H. split; constructor.
  - apply bind_Ok_inv in H. destruct H as [[sub c1] [w1 [Hsub H]]].
    apply bind_Ok_inv in H. destruct H as [[ns c2] [w2 [Hrest H]]].
    apply ret_inv in H. destruct H as [H _]. inversion H; subst.
    apply IH in Hrest. destruct Hrest as [Hmap Hall].
    split; [simpl; f_equal; exact Hmap|].
    constructor; [|exact Hall]. cbn [entry subtree].
    destruct (is_folder e).
    + eapply Hrec. exact Hsub.
    + apply ret_inv in Hsub. destruct Hsub as [Hsub _].
      inversion Hsub. reflexivity.
Qed.

Lemma build_from_describes env ip m gap root cb c w t c' w' :
  build_from env ip m gap root cb c w = (Ok (t, c'), w') ->
  describes env gap root t.
Proof.
  revert root c w t c' w'.
  induction gap as [|g IH]; intros root c w t c' w' H; simpl in H.
  - apply bind_Ok_inv in H. destruct H as [[] [w1 [_ H]]].
    apply ret_inv in H. destruct H as [H _]. inversion H. reflexivity.
  - apply bind_Ok_inv in H. destruct H as [raws [w1 [Hfetch H]]].
    apply bind_Ok_inv in H. destruct H as [es [w2 [Hes H]]].
    apply bind_Ok_inv in H. destruct H as [[] [w3 [_ H]]].
    apply bind_Ok_inv in H. destruct H as [[ns c1] [w4 [Hloop H]]].
    apply ret_inv in H. destruct H as [H _]. inversion H; subst.
    apply lift_Ok_inv in Hes. destruct Hes as [Hes _].
    apply fetch_documents_Ok_inv in Hfetch.
    apply (for_entries_nodes (describes env g)) in Hloop.
    + destruct Hloop as [Hmap Hsub].
      cbn [describes]. exists raws, es. repeat split; assumption.
    + intros id c0 w0 t0 c0' w0' H0. eapply IH. exact H0.
Qed.

Lemma NoDup_map_Some {A} (l : list A) : NoDup (map Some l) <-> NoDup l.
Proof.
  split; [apply NoDup_map_inv|].
  induction 1 as [|x l Hx _ IH]; cbn [map]; constructor; [|exact IH].
  intros Hin. apply in_map_iff in Hin. destruct Hin as [y [Hy Hin]].
  inversion Hy; subst y. exact (Hx Hin).
Qed.

(** The ids of a level are those of the listing it was built from, each
    as often as the listing has it. *)
Lemma described_level_ids env g root t :
  describes env (S g) root t ->
  exists raw_list,
    listing env root = Listing raw_list
    /\ Permutation (map Some (level_ids t)) (map (dict_get "ID") raw_list)
    /\ (NoDup (level_ids t) <-> distinct_ids raw_list).
Proof.
  cbn [describes]. intros [raw_list [es [Hl [Hes [Hmap _]]]]].
  assert (Hperm : Permutation (map Some (level_ids t))
                    (map (dict_get "ID") raw_list)).
  { unfold level_ids. rewrite <- (map_map entry entry_id), Hmap.
    rewrite (from_json_ids _ Hes), <- (map_map entry_id Some).
    apply Permutation_map, Permutation_map, sort_by_parent_perm. }
  exists raw_list. split; [exact Hl|]. split; [exact Hperm|].
  unfold distinct_ids. rewrite <- NoDup_map_Some. split; intros H.
  - eapply Permutation_NoDup; [exact Hperm|exact H].
  - eapply Permutation_NoDup; [apply Permutation_sym; exact Hperm|exact H].
Qed.

Lemma described_keeps_ids env gap root t :
  describes env gap root t -> keeps_ids env gap root t.
Proof.
  revert root t. induction gap as [|g IH]; intros root t Hd; [exact I|].
  cbn [keeps_ids]. split; [eapply described_level_ids; exact Hd|].
  cbn [describes] in Hd. destruct Hd as [raw_list [es [_ [_ [_ Hsub]]]]].
  eapply Forall_impl; [|exact Hsub]. cbv beta. intros n Hn.
  destruct (is_folder (entry n)); [apply IH; exact Hn|exact I].
Qed.

(** ** The claims about the crawler *)

(** C9. [build_file_tree] always returns: it is a total function whose
    recursion is on [max_depth - _depth].  A tree it returns has at most
    [max_depth - _depth] folder levels, whatever the device lists (also when
    a folder lists itself), and a call at a depth that has reached
    [max_depth] returns the empty tree at once: it raises nothing and sends
    no request, it only logs the warning. *)
Theorem build_file_tree_terminates env ip root d m cb c w :
  (exists r w', build_file_tree env ip root d m cb c w = (r, w'))
  /\ (forall t w', build_file_tree env ip root d m cb c w = (Ok t, w') ->
        height t <= m - d)
  /\ (m <= d ->
      build_file_tree env ip root d m cb c w
      = (Ok (mkFileTree []),
         snd (log WARNING ("Max folder depth (" ++ Py.str_of_nat m
                           ++ ") reached, stopping recursion") w))
      /\ requests (snd (build_file_tree env ip root d m cb c w)) = requests w).
Proof.
  split; [|split].
  - destruct (build_file_tree env ip root d m cb c w) as [r w'].
    exists r, w'. reflexivity.
  - intros t w' H. unfold build_file_tree in H.
    apply bind_Ok_inv in H. destruct H as [[t0 c0] [w1 [Hb H]]].
    apply ret_inv in H. destruct H as [-> _].
    eapply build_from_height. exact Hb.
  - intros Hd. unfold build_file_tree.
    replace (m - d) with 0 by lia. split; reflexivity.
Qed.

(** A call at the depth bound on the self-listing device. *)
Lemma build_file_tree_terminates_witness :
  3 <= 3 /\
  build_file_tree Examples.cyclic_env "10.11.99.1" "loop" 3 3 None None
    Examples.empty_world
  = (Ok (mkFileTree []),
     mkWorld [] [(WARNING, "Max folder depth (3) reached, stopping recursion")]
             [] [] 0 None None).
Proof.
  split; [apply le_n|].
  exact (proj1 (proj2 (proj2
    (build_file_tree_terminates Examples.cyclic_env "10.11.99.1" "loop" 3 3
       None None Examples.empty_world)) (le_n 3))).
Defined.

(** The crawl of the self-listing device from the root with bound 3: three
    requests, three nested levels, then the empty tree. *)
Example cyclic_crawl :
  let loop_entry parent :=
    mkDeviceEntry "loop" parent "loop" COLLECTION "" in
  build_file_tree Examples.cyclic_env "10.11.99.1" "" 0 3 None None
    Examples.empty_world
  = (Ok (mkFileTree [mkFileTreeNode (loop_entry "")
          (mkFileTree [mkFileTreeNode (loop_entry "loop")
            (mkFileTree [mkFileTreeNode (loop_entry "loop")
              (mkFileTree [])])])]),
     mkWorld [GET_documents "10.11.99.1" ""; GET_documents "10.11.99.1" "loop";
              GET_documents "10.11.99.1" "loop"]
             [(WARNING, "Max folder depth (3) reached, stopping recursion")]
             [] [] 0 None None).
Proof. reflexivity. Qed.

(** C10 as stated fails: the device repeats an id in one listing and the
    level built from it repeats the id. *)
Lemma duplicate_ids_kept :
  exists t w',
    build_file_tree Examples.duplicate_env "10.11.99.1" "" 0 20 None None
      Examples.empty_world = (Ok t, w')
    /\ level_ids t = ["d1"; "d1"]
    /\ ~ NoDup (level_ids t).
Proof.
  eexists. eexists. split; [reflexivity|]. split; [reflexivity|].
  simpl. intros H. inversion H as [|x l Hin _]. apply Hin. left. reflexivity.
Qed.

(** C10, amended. A tree built by [build_file_tree] is the tree the
    device describes: each level holds exactly the entries of the listing
    response for its folder, parsed and sorted by parent id, nothing
    removed and nothing added, a folder entry with the tree of its folder
    below it.  So the ids of every level are the ids of its listing, each
    as often as the listing has it: the entries of a level are unique by
    id exactly when its listing carries pairwise distinct ids, and a
    repeated id is repeated.  When every listing response of the device
    carries pairwise distinct ids, every level of the tree is unique by
    id. *)
Theorem build_file_tree_unique_ids env ip root d m cb c w t w' :
  build_file_tree env ip root d m cb c w = (Ok t, w') ->
  describes env (m - d) root t
  /\ keeps_ids env (m - d) root t
  /\ ((forall id raw_list,
         listing env id = Listing raw_list -> distinct_ids raw_list) ->
      every_level (fun l => NoDup (level_ids l)) t).
Proof.
  intros H. unfold build_file_tree in H.
  apply bind_Ok_inv in H. destruct H as [[t0 c0] [w1 [Hb H]]].
  apply ret_inv in H. destruct H as [-> _].
  pose proof (build_from_describes _ _ _ _ _ _ _ _ Hb) as Hd.
  split; [exact Hd|]. split; [apply described_keeps_ids; exact Hd|].
  intros Henv. eapply build_from_distinct; [exact Henv|exact Hb].
Qed.

(** The crawl of the device with a shelf: two levels, each with several
    entries. *)
Lemma build_file_tree_unique_ids_witness :
  describes Examples.shelf_env (3 - 0) "" Examples.shelf_tree
  /\ keeps_ids Examples.shelf_env (3 - 0) "" Examples.shelf_tree
  /\ ((forall id raw_list,
         listing Examples.shelf_env id = Listing raw_list -> distinct_ids raw_list) ->
      every_level (fun l => NoDup (level_ids l)) Examples.shelf_tree).
Proof.
  eapply (@build_file_tree_unique_ids Examples.shelf_env "10.11.99.1" "" 0 3
            None None Examples.empty_world).
  vm_compute. reflexivity.
Defined.

End TreeFacts.
(* ===================================================================== *)
(** * Which requests a computation sends *)
(* ===================================================================== *)

Module RequestFacts.
Import Eff WebInterface EffFacts.

Lemma emits_silent {A} P (c : M A) :
  (forall w, requests (snd (c w)) = requests w) -> emits P c.
Proof.
  intros H w. exists []. rewrite H, app_nil_r. split; reflexivity.
Qed.

Lemma emits_ret {A} P (a : A) : emits P (ret a).
Proof. apply emits_silent. reflexivity. Qed.

Lemma emits_raise {A} P e : emits P (@raise A e).
Proof. apply emits_silent. reflexivity. Qed.

Lemma emits_lift {A} P (r : result A) : emits P (lift r).
Proof. apply emits_silent. reflexivity. Qed.

Lemma emits_log P l msg : emits P (log l msg).
Proof. apply emits_silent. reflexivity. Qed.

Lemma emits_report_progress P msg : emits P (report_progress msg).
Proof. apply emits_silent. reflexivity. Qed.

Lemma emits_draw P : emits P draw.
Proof. apply emits_silent. reflexivity. Qed.

Lemma emits_read_file P p : emits P (read_file p).
Proof.
  apply emits_silent. intros w. unfold read_file.
  destruct (dict_get p (files w)); reflexivity.
Qed.

Lemma emits_write_file P p d : emits P (write_file p d).
Proof. apply emits_silent. reflexivity. Qed.

Lemma emits_send (P : request -> bool) r : P r = true -> emits P (send r).
Proof.
  intros H w. exists [r]. split; [reflexivity|]. simpl. rewrite H. reflexivity.
Qed.

Lemma emits_bind {A B} P (c : M A) (k : A -> M B) :
  emits P c -> (forall a, emits P (k a)) -> emits P (bind c k).
Proof.
  intros Hc Hk w. unfold bind.
  destruct (Hc w) as [l1 [E1 F1]].
  destruct (c w) as [[a|e] w1]; simpl in E1.
  - destruct (Hk a w1) as [l2 [E2 F2]].
    exists (l1 ++ l2)%list. rewrite E2, E1, app_assoc. split; [reflexivity|].
    rewrite forallb_app, F1, F2. reflexivity.
  - exists l1. split; [exact E1|exact F1].
Qed.

Lemma emits_try_except {A} P (c : M A) (h : exn -> M A) :
  emits P c -> (forall e, emits P (h e)) -> emits P (try_except c h).
Proof.
  intros Hc Hh w. unfold try_except.
  destruct (Hc w) as [l1 [E1 F1]].
  destruct (c w) as [[a|e] w1]; simpl in E1.
  - exists l1. split; [exact E1|exact F1].
  - destruct (Hh e w1) as [l2 [E2 F2]].
    exists (l1 ++ l2)%list. rewrite E2, E1, app_assoc. split; [reflexivity|].
    rewrite forallb_app, F1, F2. reflexivity.
Qed.

Lemma emits_try_finally {A} P (c : M A) (f : M unit) :
  emits P c -> emits P f -> emits P (try_finally c f).
Proof.
  intros Hc Hf w. unfold try_finally.
  destruct (Hc w) as [l1 [E1 F1]].
  destruct (c w) as [r w1]; simpl in E1.
  destruct (Hf w1) as [l2 [E2 F2]].
  exists (l1 ++ l2)%list.
  assert (E : requests (snd (f w1)) = (requests w ++ l1 ++ l2)%list)
    by (rewrite E2, E1, app_assoc; reflexivity).
  destruct (f w1) as [[u|e] w2]; simpl in *;
    (split; [exact E|rewrite forallb_app, F1, F2; reflexivity]).
Qed.

Lemma emits_unlink P p : emits P (unlink p).
Proof.
  apply emits_silent. intros w. unfold unlink.
  destruct (dict_get p (files w)); reflexivity.
Qed.

Lemma emits_unlink_quietly P p : emits P (unlink_quietly p).
Proof.
  apply emits_try_except; [apply emits_unlink|].
  intros e. destruct e; first [apply emits_ret | apply emits_raise].
Qed.

Lemma emits_cleanup P (cleanup : option string) :
  emits P (match cleanup with
           | Some p => if Py.truthy p then unlink_quietly p else ret tt
           | None => ret tt
           end).
Proof.
  destruct cleanup as [p|]; [|apply emits_ret].
  destruct (Py.truthy p); [apply emits_unlink_quietly|apply emits_ret].
Qed.

Lemma emits_trace_calls {A} P name (c : M A) :
  emits P c -> emits P (trace_calls name c).
Proof. intros H. apply emits_bind; [apply emits_log|intros _; exact H]. Qed.

Lemma emits_weaken {A} (P Q : request -> bool) (c : M A) :
  (forall r, P r = true -> Q r = true) -> emits P c -> emits Q c.
Proof.
  intros HPQ Hc w. destruct (Hc w) as [l [E F]]. exists l. split; [exact E|].
  rewrite forallb_forall in *. intros r Hr. apply HPQ, F, Hr.
Qed.

(** A computation that sends nothing leaves the list of requests alone. *)
Lemma emits_nothing {A} (c : M A) w :
  emits no_request c -> requests (snd (c w)) = requests w.
Proof.
  intros H. destruct (H w) as [l [E F]].
  destruct l as [|r l]; [rewrite E, app_nil_r; reflexivity|discriminate F].
Qed.

Lemma emits_fetch_documents (P : request -> bool) env ip id :
  P (GET_documents ip id) = true -> emits P (fetch_documents env ip id).
Proof.
  intros H. unfold fetch_documents.
  apply emits_bind; [apply emits_send, H|]. intros _.
  destruct (listing env id); [apply emits_ret|apply emits_raise].
Qed.

Lemma emits_prepare_epub P lib env path inject :
  emits P (_prepare_epub lib env path inject).
Proof.
  unfold _prepare_epub.
  destruct (negb _); [apply emits_ret|].
  apply emits_try_except.
  - apply emits_bind.
    { unfold open_zip. apply emits_bind; [apply emits_read_file|].
      intros b. destruct (zip_load lib b); [apply emits_ret|apply emits_raise]. }
    intros src. apply emits_bind; [apply emits_lift|]. intros opf_path.
    apply emits_bind; [apply emits_lift|]. intros [patched new_files].
    apply emits_bind; [apply emits_draw|]. intros n.
    apply emits_bind; [apply emits_write_file|]. intros _.
    destruct (write_epub src opf_path patched new_files) as [dst|e].
    + apply emits_bind; [apply emits_write_file|]. intros _.
      apply emits_bind; [apply emits_log|]. intros _. apply emits_ret.
    + apply emits_bind; [apply emits_write_file|]. intros _. apply emits_raise.
  - intros e. destruct e; first [apply emits_ret | apply emits_raise].
Qed.

(** An upload that does not navigate sends nothing but its [POST]. *)
Lemma emits_upload_file lib env ip local_path folder_id display_name inject :
  emits is_POST (upload_file lib env ip local_path folder_id display_name inject false).
Proof.
  unfold upload_file.
  apply emits_bind; [apply emits_ret|]. intros _.
  apply emits_bind; [apply emits_prepare_epub|]. intros [prepared cleanup].
  apply emits_try_finally; [|apply emits_cleanup].
  apply emits_bind; [apply emits_read_file|]. intros file_data.
  apply emits_bind.
  { unfold _build_multipart. apply emits_bind; [apply emits_draw|].
    intros n. apply emits_ret. }
  intros [body content_type].
  apply emits_bind; [apply emits_send; reflexivity|]. intros _.
  destruct (upload_response env body).
  - apply emits_ret.
  - apply emits_bind; [apply emits_log|]. intros _. apply emits_raise.
  - apply emits_raise.
Qed.

End RequestFacts.
(* ===================================================================== *)
(** * Properties of the device driver *)
(* ===================================================================== *)

Module PluginFacts.
Import Eff WebInterface Plugin EffFacts RequestFacts.

(** ** Deleting *)

(** C8. [delete_books] raises the capability failure for every list of
    paths (so for every non-empty one): it never returns normally, it sends
    no request to the device, and apart from the DEBUG line of the call
    tracer the world is as before: requests, reported progress, local
    files and the module globals are unchanged.  The booklists are not
    among its arguments; they stay with the caller. *)
Theorem delete_books_unsupported (paths : list string) (w : World) :
  exists msg w',
    delete_books paths w
    = (Raise (UserFeedback "Cannot delete via USB web interface" msg
                FEEDBACK_WARNING), w')
    /\ msg = "The reMarkable USB web interface does not support deleting books."
             ++ nl ++ nl
             ++ "Please delete these directly on your reMarkable:" ++ nl
             ++ Py.str_join nl (map (fun p => "  - " ++ Py.basename p) paths)
    /\ requests w' = requests w
    /\ reported w' = reported w
    /\ files w' = files w
    /\ fresh w' = fresh w
    /\ _device w' = _device w
    /\ _ebook_convert_path w' = _ebook_convert_path w
    /\ logs w' = (logs w ++ [(DEBUG, "-> RemarkableUsbDevice.delete_books")])%list.
Proof.
  eexists. eexists. split; [reflexivity|]. repeat split.
Qed.

(** ** The conversion phase sends nothing *)

Lemma emits_find_ebook_convert P env : emits P (_find_ebook_convert env).
Proof.
  apply emits_silent. intros w. unfold _find_ebook_convert.
  destruct (_ebook_convert_path w); reflexivity.
Qed.

Lemma emits_convert P env p : emits P (_convert_epub_to_pdf env p).
Proof.
  unfold _convert_epub_to_pdf.
  apply emits_bind; [apply emits_draw|]. intros n.
  apply emits_bind; [apply emits_write_file|]. intros _.
  apply emits_bind; [apply emits_find_ebook_convert|]. intros exe.
  apply emits_try_except.
  - apply emits_bind; [apply emits_log|]. intros _.
    destruct (ebook_convert env p) as [what| |rc out pdf];
      try apply emits_raise.
    apply emits_bind; [apply emits_write_file|]. intros _.
    destruct (negb (rc =? 0)%Z).
    + apply emits_bind; [apply emits_log|]. intros _. apply emits_raise.
    + apply emits_bind; [apply emits_log|]. intros _. apply emits_ret.
  - intros e. apply emits_bind; [apply emits_unlink_quietly|].
    intros _. apply emits_raise.
Qed.

Lemma emits_run_workers P env to_convert order :
  emits P (run_workers env to_convert order).
Proof.
  induction order as [|pos rest IH]; simpl.
  - apply emits_ret.
  - destruct (nth_error to_convert pos) as [it|]; [|exact IH].
    intros w.
    destruct (emits_convert P env (local_path it) w) as [l1 [E1 F1]].
    destruct (_convert_epub_to_pdf env (local_path it) w) as [r w1].
    simpl in E1.
    destruct (IH w1) as [l2 [E2 F2]].
    exists (l1 ++ l2)%list.
    assert (E : requests (snd (run_workers env to_convert rest w1))
                = (requests w ++ l1 ++ l2)%list)
      by (rewrite E2, E1, app_assoc; reflexivity).
    destruct (run_workers env to_convert rest w1) as [[rs|e] w2]; simpl in *;
      (split; [exact E|rewrite forallb_app, F1, F2; reflexivity]).
Qed.

Lemma emits_collect P total to_convert outcomes done items :
  emits P (collect total to_convert outcomes done items).
Proof.
  revert done items.
  induction outcomes as [|[pos r] rest IH]; intros done items; simpl.
  - apply emits_ret.
  - destruct (nth_error to_convert pos) as [it0|]; [|apply IH].
    destruct r as [pdf|e].
    + apply emits_bind; [apply emits_report_progress|]. intros _. apply IH.
    + apply emits_bind; [apply emits_log|]. intros _. apply emits_raise.
Qed.

Lemma emits_convert_phase P env cfg items :
  emits P (convert_phase env cfg items).
Proof.
  unfold convert_phase.
  destruct (filter needs_convert items) as [|it rest]; [apply emits_ret|].
  apply emits_bind; [apply emits_log|]. intros _.
  apply emits_bind; [apply emits_report_progress|]. intros _.
  apply emits_bind; [apply emits_run_workers|]. intros outcomes.
  apply emits_collect.
Qed.

(** ** The upload loop sends uploads only *)

Lemma emits_upload_loop lib env cfg folder_id items locations :
  emits is_POST (upload_loop lib env cfg folder_id items locations).
Proof.
  revert locations. induction items as [|item rest IH]; intros locations; simpl.
  - apply emits_ret.
  - apply emits_bind; [apply emits_report_progress|]. intros _.
    apply emits_bind.
    { apply emits_try_finally; [|apply emits_cleanup].
      apply emits_bind; [apply emits_log|]. intros _.
      apply emits_upload_file. }
    intros _. apply emits_bind; [apply emits_report_progress|]. intros _.
    apply IH.
Qed.

(** ** How a conversion ends *)

Lemma unlink_quietly_Ok p w : exists w', unlink_quietly p w = (Ok tt, w').
Proof.
  unfold unlink_quietly, try_except, unlink.
  destruct (dict_get p (files w)); simpl; eexists; reflexivity.
Qed.

Lemma convert_result env p w :
  fst (_convert_epub_to_pdf env p w)
  = match conversion_failure env p with
    | Some e => Raise e
    | None => Ok (tmp_name env (fresh w) ".pdf")
    end.
Proof.
  unfold _convert_epub_to_pdf, conversion_failure, bind, try_except,
    _find_ebook_convert, draw, write_file, set_files, log, raise, ret.
  simpl.
  destruct (_ebook_convert_path w); simpl;
    (destruct (ebook_convert env p) as [what| |rc out pdf]; simpl;
     [ | | destruct (rc =? 0)%Z; simpl ];
     try reflexivity;
     match goal with
     | |- context [unlink_quietly ?q ?W] =>
         destruct (unlink_quietly_Ok q W) as [w' E]; rewrite E; reflexivity
     end).
Qed.

Lemma run_workers_outcomes env to_convert order w :
  exists rs w',
    run_workers env to_convert order w = (Ok rs, w')
    /\ Forall (outcome_of env to_convert) rs
    /\ map fst rs = filter (fun pos => pos <? length to_convert)%nat order.
Proof.
  revert w. induction order as [|pos rest IH]; intros w; simpl.
  - exists [], w. repeat split. constructor.
  - destruct (nth_error to_convert pos) as [it|] eqn:Enth.
    + assert (Hlt : (pos <? length to_convert)%nat = true).
      { apply Nat.ltb_lt. apply nth_error_Some. rewrite Enth. discriminate. }
      rewrite Hlt.
      pose proof (convert_result env (local_path it) w) as Hr.
      destruct (_convert_epub_to_pdf env (local_path it) w) as [r w1].
      simpl in Hr.
      destruct (IH w1) as [rs [w2 [E [Hall Hmap]]]]. rewrite E.
      exists ((pos, r) :: rs), w2. split; [reflexivity|]. split.
      * constructor; [|exact Hall]. exists it. split; [exact Enth|].
        simpl. destruct (conversion_failure env (local_path it)).
        -- exact Hr.
        -- eexists. exact Hr.
      * simpl. f_equal. exact Hmap.
    + assert (Hlt : (pos <? length to_convert)%nat = false).
      { apply Nat.ltb_ge. apply nth_error_None. exact Enth. }
      rewrite Hlt. apply IH.
Qed.

Lemma collect_all_ok total to_convert rs done items w :
  Forall (fun pr : nat * result string => exists out, snd pr = Ok out) rs ->
  exists items' w', collect total to_convert rs done items w = (Ok items', w').
Proof.
  intros Hall. revert done items w.
  induction Hall as [|[pos r] rs [out Hr] _ IH]; intros done items w; simpl.
  - eexists. eexists. reflexivity.
  - destruct (nth_error to_convert pos) as [it0|]; [|apply IH].
    simpl in Hr. subst r. unfold bind, report_progress. apply IH.
Qed.

(** ** Items and their indexes *)

Lemma build_items_index lib cfg i fs ns ms :
  map index (build_items lib cfg i fs ns ms)
  = seq i (length (build_items lib cfg i fs ns ms)).
Proof.
  revert i ns ms. induction fs as [|f fs IH]; intros i ns ms; simpl.
  - reflexivity.
  - destruct ns as [|n ns]; [reflexivity|].
    destruct ms as [|m ms]; [reflexivity|].
    simpl. f_equal. apply IH.
Qed.

Lemma build_items_paths lib cfg i fs ns ms it :
  In it (build_items lib cfg i fs ns ms) -> In (local_path it) fs.
Proof.
  revert i ns ms. induction fs as [|f fs IH]; intros i ns ms H; simpl in H.
  - contradiction.
  - destruct ns as [|n ns]; [contradiction|].
    destruct ms as [|m ms]; [contradiction|].
    destruct H as [H|H].
    + subst it. left. reflexivity.
    + right. eapply IH. exact H.
Qed.

Lemma NoDup_map_filter {A B} (f : A -> B) (p : A -> bool) l :
  NoDup (map f l) -> NoDup (map f (filter p l)).
Proof.
  induction l as [|a l IH]; simpl; intros H.
  - constructor.
  - inversion H as [|x xs Hnin Hnd]; subst.
    destruct (p a); simpl.
    + constructor; [|apply IH, Hnd].
      intros Hin. apply Hnin. apply in_map_iff in Hin.
      destruct Hin as [b [Eb Hb]]. apply filter_In in Hb.
      apply in_map_iff. exists b. split; [exact Eb|apply Hb].
    + apply IH, Hnd.
Qed.

Lemma find_by_index items it :
  NoDup (map index items) -> In it items ->
  find (fun x => (index x =? index it)%nat) items = Some it.
Proof.
  induction items as [|a items IH]; simpl; intros Hnd Hin.
  - contradiction.
  - inversion Hnd as [|x xs Hnin Hnd']; subst.
    destruct Hin as [->|Hin].
    + rewrite Nat.eqb_refl. reflexivity.
    + destruct (index a =? index it)%nat eqn:E.
      * exfalso. apply Hnin. apply Nat.eqb_eq in E. rewrite E.
        apply in_map. exact Hin.
      * apply IH; assumption.
Qed.

Lemma find_update_other i j pdf items :
  i <> j ->
  find (fun x => (index x =? j)%nat) (update_item i (set_converted pdf) items)
  = find (fun x => (index x =? j)%nat) items.
Proof.
  intros Hij. induction items as [|a items IH]; simpl.
  - reflexivity.
  - destruct (index a =? i)%nat eqn:Ei; simpl.
    + apply Nat.eqb_eq in Ei.
      assert (Ej : (index a =? j)%nat = false)
        by (apply Nat.eqb_neq; congruence).
      rewrite Ej. reflexivity.
    + destruct (index a =? j)%nat; [reflexivity|exact IH].
Qed.

Lemma nth_error_index_inj (l : list UploadItem) p q a b :
  NoDup (map index l) ->
  nth_error l p = Some a -> nth_error l q = Some b ->
  index a = index b -> p = q.
Proof.
  intros Hnd Hp Hq Hab.
  rewrite NoDup_nth_error in Hnd. apply Hnd.
  - rewrite length_map. apply nth_error_Some. rewrite Hp. discriminate.
  - rewrite !nth_error_map, Hp, Hq. simpl. f_equal. exact Hab.
Qed.

(** ** The first failed conversion ends the batch *)

Lemma collect_failure total to_convert rs done items w :
  NoDup (map fst rs) ->
  NoDup (map index to_convert) ->
  (forall pos it0, In pos (map fst rs) -> nth_error to_convert pos = Some it0 ->
     find (fun x => (index x =? index it0)%nat) items = Some it0) ->
  (exists pos e it0, In (pos, Raise e) rs /\ nth_error to_convert pos = Some it0) ->
  exists pos e it0 w',
    In (pos, Raise e) rs /\ nth_error to_convert pos = Some it0
    /\ collect total to_convert rs done items w = (Raise e, w')
    /\ In (ERROR, "Conversion failed for " ++ upload_name it0) (logs w').
Proof.
  intros Hnd Hidx. revert done items w Hnd.
  induction rs as [|[pos1 r1] rs IH]; intros done items w Hnd Hinv Hfail.
  - destruct Hfail as [pos [e [it0 [[] _]]]].
  - simpl in Hnd. inversion Hnd as [|x xs Hnin Hnd']; subst.
    simpl. destruct (nth_error to_convert pos1) as [it1|] eqn:E1.
    + rewrite (Hinv pos1 it1 (or_introl eq_refl) E1).
      destruct r1 as [pdf|e1].
      * unfold bind at 1, report_progress at 1.
        match goal with
        | |- context [collect total to_convert rs ?d ?its ?W] =>
            destruct (IH d its W Hnd')
              as [pos [e [it0 [w' [Hin [Hnth [Hc Hlog]]]]]]]
        end.
        -- intros pos it0 Hpos Hnth.
           rewrite find_update_other.
           ++ apply (Hinv pos); [right; exact Hpos|exact Hnth].
           ++ intros Heq. apply Hnin.
              rewrite (@nth_error_index_inj to_convert pos1 pos it1 it0 Hidx E1 Hnth Heq). exact Hpos.
        -- destruct Hfail as [pos [e [it0 [[Hin|Hin] Hnth]]]].
           ++ discriminate Hin.
           ++ exists pos, e, it0. split; assumption.
        -- exists pos, e, it0, w'. repeat split; try assumption.
           right. exact Hin.
      * exists pos1, e1, it1. eexists. split; [left; reflexivity|].
        split; [exact E1|]. split; [reflexivity|].
        simpl. apply in_or_app. right. left. reflexivity.
    + destruct (IH done items w Hnd') as [pos [e [it0 [w' [Hin [Hnth [Hc Hlog]]]]]]].
      * intros pos it0 Hpos Hnth. apply (Hinv pos); [right; exact Hpos|exact Hnth].
      * destruct Hfail as [pos [e [it0 [[Hin|Hin] Hnth]]]].
        -- inversion Hin; subst. rewrite E1 in Hnth. discriminate.
        -- exists pos, e, it0. split; assumption.
      * exists pos, e, it0, w'. repeat split; try assumption.
        right. exact Hin.
Qed.

(** ** The upload phase *)

Lemma convert_phase_Ok env cfg items w :
  (forall it, In it items -> conversion_failure env (local_path it) = None) ->
  exists items' wc, convert_phase env cfg items w = (Ok items', wc).
Proof.
  intros Hok. unfold convert_phase.
  destruct (filter needs_convert items) as [|it0 rest] eqn:Ef.
  - eexists. eexists. reflexivity.
  - rewrite <- Ef. unfold bind at 1, log at 1. unfold bind at 1, report_progress at 1.
    unfold bind.
    match goal with
    | |- context [run_workers env ?tc ?o ?W] =>
        destruct (run_workers_outcomes env tc o W) as [rs [w1 [E [Hall _]]]];
        rewrite E
    end.
    apply collect_all_ok.
    eapply Forall_impl; [|exact Hall].
    intros [pos r] [it [Hnth Hm]]. simpl in *.
    apply nth_error_In in Hnth. apply filter_In in Hnth.
    rewrite (Hok it (proj1 Hnth)) in Hm. exact Hm.
Qed.

Lemma navigation_step env ip fid msg w :
  exists w1,
    try_except (fetch_documents env ip fid ;; ret tt) (fun _ => log WARNING msg) w
    = (Ok tt, w1)
    /\ requests w1 = (requests w ++ [GET_documents ip fid])%list.
Proof.
  unfold try_except, fetch_documents, bind, send, log, ret, raise.
  destruct (listing env fid); eexists; split; reflexivity.
Qed.

(** [upload_books] on a batch that is not empty. *)
Lemma upload_books_nonempty lib env cfg files_original names metadata w :
  files_original <> [] ->
  upload_books lib env cfg files_original names metadata w
  = (log DEBUG "-> RemarkableUsbDevice.upload_books" ;;
     folder_id <- resolve_folder lib env cfg ;;
     upload_items <- convert_phase env cfg
                       (build_items lib cfg 0 files_original names
                          (metadata_or_default metadata files_original)) ;;
     locations <- upload_phase lib env cfg folder_id upload_items ;;
     ret (locations, metadata_or_default metadata files_original)) w.
Proof.
  intros Hne. destruct files_original as [|f fs]; [contradiction|]. reflexivity.
Qed.

(** C7. For a batch of one or more files whose target folder has been
    resolved to a folder id, and whose conversions (if any) succeed so that
    the upload phase is reached: after the folder resolution, the requests
    [upload_books] sends are exactly one listing request for that folder,
    followed by upload requests only.  The navigation comes once, before
    the first upload, and no upload navigates again. *)
Theorem upload_books_navigates_once lib env cfg files_original names metadata w fid :
  files_original <> [] ->
  resolved_folder lib env cfg w = Ok fid ->
  fid <> "" ->
  Forall (fun p => conversion_failure env p = None) files_original ->
  exists uploads,
    requests (snd (upload_books lib env cfg files_original names metadata w))
    = (requests (after_resolution lib env cfg w)
       ++ GET_documents (IP cfg) fid :: uploads)%list
    /\ forallb is_POST uploads = true.
Proof.
  intros Hne Hfid Hnz Hconv.
  rewrite (upload_books_nonempty lib env cfg names metadata w Hne).
  unfold resolved_folder in Hfid. unfold after_resolution.
  unfold bind at 1.
  destruct (log DEBUG "-> RemarkableUsbDevice.upload_books" w) as [[[]|e0] w0] eqn:E0;
    [|discriminate E0].
  cbn [snd] in *.
  unfold bind at 1.
  destruct (resolve_folder lib env cfg w0) as [r0 wr]. cbn [fst snd] in *. subst r0.
  match goal with
  | |- context [convert_phase env cfg ?its] => set (items := its)
  end.
  destruct (convert_phase_Ok env cfg items wr) as [items' [wc Ec]].
  { intros it Hin. unfold items in Hin. apply build_items_paths in Hin.
    rewrite Forall_forall in Hconv. apply Hconv, Hin. }
  pose proof (emits_nothing wr (emits_convert_phase no_request env cfg items)) as Hwc.
  unfold bind at 1. rewrite Ec in *. cbn [snd] in Hwc.
  unfold bind at 1. unfold upload_phase.
  assert (Ht : Py.truthy fid = true).
  { unfold Py.truthy. apply negb_true_iff. apply String.eqb_neq. exact Hnz. }
  rewrite Ht. unfold bind at 1.
  destruct (navigation_step env (IP cfg) fid "Pre-upload folder navigation failed" wc)
    as [w1 [E1 R1]].
  rewrite E1.
  destruct (emits_upload_loop lib env cfg fid items' [] w1) as [uploads [Eu Fu]].
  exists uploads. split; [|exact Fu].
  destruct (upload_loop lib env cfg fid items' [] w1) as [[locs|e] w2];
    cbn [snd fst] in *; unfold bind, ret; cbn [snd fst].
  all: rewrite Eu, R1, Hwc, <- app_assoc; reflexivity.
Qed.

(** A batch on the device with the folder [Calibre]: the folder is resolved
    to [f1], nothing needs conversion. *)
Lemma upload_books_navigates_once_witness :
  resolved_folder Examples.toy_lib Examples.calibre_env Examples.epub_settings
    Examples.library_world = Ok "f1"
  /\ exists uploads,
      requests (snd (upload_books Examples.toy_lib Examples.calibre_env
                       Examples.epub_settings
                       ["/books/book.epub"; "/books/paper.pdf"]
                       ["book.epub"; "paper.pdf"] None Examples.library_world))
      = (requests (after_resolution Examples.toy_lib Examples.calibre_env
                     Examples.epub_settings Examples.library_world)
         ++ GET_documents "10.11.99.1" "f1" :: uploads)%list
      /\ forallb is_POST uploads = true.
Proof.
  split; [vm_compute; reflexivity|].
  apply (@upload_books_navigates_once Examples.toy_lib Examples.calibre_env
           Examples.epub_settings ["/books/book.epub"; "/books/paper.pdf"]
           ["book.epub"; "paper.pdf"] None Examples.library_world "f1").
  - discriminate.
  - vm_compute. reflexivity.
  - discriminate.
  - repeat constructor.
Defined.

(** ** A failed conversion *)

Lemma find_folder_id_Ok env lower ip folder w :
  exists fid w', find_folder_id env lower ip folder w = (Ok fid, w').
Proof.
  unfold find_folder_id. destruct (negb (Py.truthy folder)).
  - eexists. eexists. reflexivity.
  - unfold try_except.
    match goal with
    | |- context [match ?c w with _ => _ end] => destruct (c w) as [[fid|e] w1]
    end.
    + eexists. eexists. reflexivity.
    + eexists. eexists. reflexivity.
Qed.

Lemma resolve_folder_Ok lib env cfg w :
  exists fid w', resolve_folder lib env cfg w = (Ok fid, w').
Proof.
  unfold resolve_folder. destruct (Py.truthy (target_folder cfg)).
  - unfold bind at 1.
    destruct (find_folder_id_Ok env (str_lower lib) (IP cfg) (target_folder cfg) w)
      as [fid [w1 E]].
    rewrite E. destruct (Py.truthy fid); eexists; eexists; reflexivity.
  - eexists. eexists. reflexivity.
Qed.

Lemma convert_phase_failure lib env cfg files_original names metadata it w :
  let items := build_items lib cfg 0 files_original names metadata in
  let to_convert := filter needs_convert items in
  Permutation (completion env (length to_convert)) (seq 0 (length to_convert)) ->
  In it to_convert ->
  conversion_failure env (local_path it) <> None ->
  exists failed e w',
    convert_phase env cfg items w = (Raise e, w')
    /\ In failed to_convert
    /\ conversion_failure env (local_path failed) = Some e
    /\ In (ERROR, "Conversion failed for " ++ upload_name failed) (logs w').
Proof.
  intros items to_convert Hperm Hin Hfail.
  unfold convert_phase. fold to_convert.
  destruct to_convert as [|it0 rest] eqn:Etc; [contradiction|].
  rewrite <- Etc in *.
  unfold bind at 1, log at 1. unfold bind at 1, report_progress at 1.
  unfold bind.
  match goal with
  | |- context [run_workers env ?tc ?o ?W] =>
      destruct (run_workers_outcomes env tc o W) as [rs [w1 [E [Hall Hmap]]]];
      rewrite E
  end.
  assert (Hvalid : filter (fun pos => (pos <? length to_convert)%nat)
                     (completion env (length to_convert))
                   = completion env (length to_convert)).
  { apply forallb_filter_id. apply forallb_forall. intros pos Hpos.
    apply Nat.ltb_lt.
    apply (Permutation_in _ Hperm) in Hpos. apply in_seq in Hpos. lia. }
  rewrite Hvalid in Hmap.
  assert (Hnd : NoDup (map fst rs)).
  { rewrite Hmap. eapply Permutation_NoDup;
      [apply Permutation_sym, Hperm|apply seq_NoDup]. }
  assert (Hitems : NoDup (map index items)).
  { unfold items. rewrite build_items_index. apply seq_NoDup. }
  assert (Hidx : NoDup (map index to_convert)).
  { rewrite Etc. unfold to_convert in *. rewrite <- Etc.
    apply NoDup_map_filter, Hitems. }
  destruct (In_nth_error _ _ Hin) as [pos Hpos].
  assert (Hin_rs : exists r, In (pos, r) rs).
  { assert (Hp : In pos (map fst rs)).
    { rewrite Hmap. apply (Permutation_in _ (Permutation_sym Hperm)).
      apply in_seq. split; [lia|]. simpl.
      apply nth_error_Some. rewrite Hpos. discriminate. }
    apply in_map_iff in Hp. destruct Hp as [[p r] [Ep Hp]].
    simpl in Ep. subst p. exists r. exact Hp. }
  destruct Hin_rs as [r Hr].
  assert (Hraise : exists e, r = Raise e).
  { rewrite Forall_forall in Hall.
    destruct (Hall _ Hr) as [it' [Hnth Hm]]. simpl in *.
    rewrite Hpos in Hnth. inversion Hnth; subst it'.
    destruct (conversion_failure env (local_path it)) as [e|];
      [exists e; exact Hm|contradiction]. }
  destruct Hraise as [e0 ->].
  match goal with
  | |- context [collect ?t ?tc rs ?d ?its ?W] =>
      destruct (@collect_failure t tc rs d its W Hnd Hidx)
        as [pos' [e [failed [w' [Hin' [Hnth' [Hc Hlog]]]]]]]
  end.
  - intros p it1 _ Hnth. apply find_by_index; [exact Hitems|].
    apply nth_error_In in Hnth. apply filter_In in Hnth. apply Hnth.
  - exists pos, e0, it. split; assumption.
  - exists failed, e, w'. split; [exact Hc|].
    split; [eapply nth_error_In; exact Hnth'|]. split; [|exact Hlog].
    rewrite Forall_forall in Hall.
    destruct (Hall _ Hin') as [it' [Hnth Hm]]. simpl in *.
    rewrite Hnth' in Hnth. inversion Hnth; subst it'.
    destruct (conversion_failure env (local_path failed)) as [e'|].
    + inversion Hm. reflexivity.
    + destruct Hm as [out Hm]. discriminate Hm.
Qed.

(** C3 as stated fails in its last part: in this batch of three, where
    the conversion of the second book fails, the failure that
    [upload_books] raises is the converter's own and does not name the
    book; the name is in the ERROR line of the log. *)
Lemma conversion_failure_unnamed :
  exists msg w',
    upload_books Examples.toy_lib Examples.failing_env Examples.pdf_settings
      Examples.three_files Examples.three_names None Examples.library_world
    = (Raise (RuntimeError msg), w')
    /\ msg = "Conversion failed (rc=1): ValueError: not a valid EPUB"
    /\ Py.contains "two" msg = false
    /\ In (ERROR, "Conversion failed for two.epub") (logs w')
    /\ filter is_POST (requests w') = [].
Proof.
  eexists. eexists. split; [vm_compute; reflexivity|].
  split; [reflexivity|]. split; [vm_compute; reflexivity|].
  split; [|vm_compute; reflexivity].
  vm_compute. tauto.
Qed.

(** The converter's output is copied into the failure: when it mentions
    the input file, so does the failure that [upload_books] raises. *)
Example conversion_failure_echoes_output :
  exists msg w',
    upload_books Examples.toy_lib Examples.verbose_env Examples.pdf_settings
      Examples.three_files Examples.three_names None Examples.library_world
    = (Raise (RuntimeError msg), w')
    /\ msg = "Conversion failed (rc=1): Cannot read /books/two.epub"
    /\ Py.contains "two.epub" msg = true.
Proof.
  eexists. eexists. split; [vm_compute; reflexivity|].
  split; [reflexivity|]. vm_compute. reflexivity.
Qed.

(** C3, amended. When the conversion of some item of the batch fails (and
    the worker pool hands back every submitted conversion), [upload_books]
    raises the failure of a failed conversion as [_convert_epub_to_pdf]
    produced it and adds nothing to it: [OSError] when the converter
    could not be started, [TimeoutError] when it timed out, and for an
    exit status other than 0 [RuntimeError] with the status and the first
    500 characters of the converter's output.  The upload phase is not
    started (after the folder resolution no request at all is sent,
    neither the navigation nor any upload, also not for the items whose
    conversion succeeded), and the log has an ERROR line that names the
    failed item. *)
Theorem upload_books_conversion_failure lib env cfg files_original names metadata w it :
  let items := build_items lib cfg 0 files_original names
                 (metadata_or_default metadata files_original) in
  let to_convert := filter needs_convert items in
  files_original <> [] ->
  Permutation (completion env (length to_convert)) (seq 0 (length to_convert)) ->
  In it to_convert ->
  conversion_failure env (local_path it) <> None ->
  exists failed e w',
    upload_books lib env cfg files_original names metadata w = (Raise e, w')
    /\ In failed to_convert
    /\ conversion_failure env (local_path failed) = Some e
    /\ match ebook_convert env (local_path failed) with
       | ConvSpawnFails what => e = OSError what
       | ConvTimeout => e = TimeoutError "ebook-convert timed out after 300s"
       | ConvExit returncode stdout _ =>
           returncode <> 0%Z
           /\ e = RuntimeError ("Conversion failed (rc=" ++ Py.str_of_Z returncode
                                ++ "): " ++ Py.take 500 stdout)
       end
    /\ In (ERROR, "Conversion failed for " ++ upload_name failed) (logs w')
    /\ requests w' = requests (after_resolution lib env cfg w).
Proof.
  intros items to_convert Hne Hperm Hin Hfail.
  rewrite (upload_books_nonempty lib env cfg names metadata w Hne).
  unfold after_resolution.
  unfold bind at 1.
  destruct (log DEBUG "-> RemarkableUsbDevice.upload_books" w) as [[[]|e0] w0] eqn:E0;
    [|discriminate E0].
  cbn [snd].
  unfold bind at 1.
  destruct (resolve_folder_Ok lib env cfg w0) as [fid [wr Er]]. rewrite Er.
  cbn [snd].
  destruct (@convert_phase_failure lib env cfg files_original names
              (metadata_or_default metadata files_original) it wr Hperm Hin Hfail)
    as [failed [e [w' [Ec [Hf [He Hlog]]]]]].
  pose proof (emits_nothing wr
                (emits_convert_phase no_request env cfg items)) as Hreq.
  fold items in Ec. unfold bind at 1. rewrite Ec in *. cbn [snd] in Hreq.
  exists failed, e, w'. fold items. rewrite Ec.
  split; [reflexivity|]. split; [exact Hf|]. split; [exact He|].
  split; [|split; assumption].
  unfold conversion_failure in He.
  destruct (ebook_convert env (local_path failed)) as [what| |rc out pdf].
  - inversion He. reflexivity.
  - inversion He. reflexivity.
  - destruct (rc =? 0)%Z eqn:Erc; cbn [negb] in He; [discriminate He|].
    inversion He. split; [|reflexivity]. apply Z.eqb_neq. exact Erc.
Qed.

(** The batch of three on the device with the folder [Calibre]. *)
Lemma upload_books_conversion_failure_witness :
  exists failed e w',
    upload_books Examples.toy_lib Examples.failing_env Examples.pdf_settings
      Examples.three_files Examples.three_names None Examples.library_world
    = (Raise e, w')
    /\ In failed
         (filter needs_convert
            (build_items Examples.toy_lib Examples.pdf_settings 0
               Examples.three_files Examples.three_names
               (metadata_or_default None Examples.three_files)))
    /\ conversion_failure Examples.failing_env (local_path failed) = Some e
    /\ match ebook_convert Examples.failing_env (local_path failed) with
       | ConvSpawnFails what => e = OSError what
       | ConvTimeout => e = TimeoutError "ebook-convert timed out after 300s"
       | ConvExit returncode stdout _ =>
           returncode <> 0%Z
           /\ e = RuntimeError ("Conversion failed (rc=" ++ Py.str_of_Z returncode
                                ++ "): " ++ Py.take 500 stdout)
       end
    /\ In (ERROR, "Conversion failed for " ++ upload_name failed) (logs w')
    /\ requests w'
       = requests (after_resolution Examples.toy_lib Examples.failing_env
                     Examples.pdf_settings Examples.library_world).
Proof.
  apply (@upload_books_conversion_failure Examples.toy_lib Examples.failing_env
           Examples.pdf_settings Examples.three_files Examples.three_names None
           Examples.library_world
           (mkUploadItem 1 "/books/two.epub" "two.epub" "two.epub" None true
              None None)).
  - discriminate.
  - vm_compute. apply Permutation_refl.
  - vm_compute. right. left. reflexivity.
  - vm_compute. discriminate.
Defined.

End PluginFacts.
(* ===================================================================== *)
(** * Properties of the upload *)
(* ===================================================================== *)

Module UploadFacts.
Import Eff WebInterface EffFacts RequestFacts.

(** ** Substrings *)

Lemma prefix_app x y : String.prefix x (x ++ y) = true.
Proof.
  induction x as [|a x IH]; simpl.
  - destruct y; reflexivity.
  - destruct (Ascii.ascii_dec a a) as [_|N]; [exact IH|contradiction].
Qed.

Lemma contains_prefix x s : String.prefix x s = true -> Py.contains x s = true.
Proof. intros H. destruct s; simpl in *; rewrite H; reflexivity. Qed.

Lemma contains_app_r x p s : Py.contains x s = true -> Py.contains x (p ++ s) = true.
Proof.
  intros H. induction p as [|a p IH]; simpl.
  - exact H.
  - rewrite IH. apply orb_true_r.
Qed.

(** A string occurs in every string built around it. *)
Lemma contains_middle x before after : Py.contains x (before ++ x ++ after) = true.
Proof. apply contains_app_r, contains_prefix, prefix_app. Qed.

(** ** The parts of the error message *)

Lemma upload_error_message_parts code error_body display_name size :
  let msg := upload_error_message code error_body display_name size in
  Py.contains (Py.str_of_nat code) msg = true
  /\ Py.contains (Py.str_or error_body "no details") msg = true
  /\ Py.contains display_name msg = true
  /\ Py.contains (Py.str_of_nat size) msg = true.
Proof.
  unfold upload_error_message. cbv zeta. repeat split.
  - apply contains_middle.
  - do 3 apply contains_app_r. apply contains_prefix, prefix_app.
  - do 5 apply contains_app_r. apply contains_prefix, prefix_app.
  - do 7 apply contains_app_r. apply contains_prefix, prefix_app.
Qed.

(** ** What one call of [upload_file] sends and returns *)

Lemma cleanup_Ok (cleanup : option string) w :
  exists w',
    match cleanup with
    | Some p => if Py.truthy p then unlink_quietly p else ret tt
    | None => ret tt
    end w = (Ok tt, w')
    /\ requests w' = requests w.
Proof.
  pose proof (emits_nothing w (emits_cleanup no_request cleanup)) as Hreq.
  destruct cleanup as [p|]; [|eexists; split; reflexivity].
  destruct (Py.truthy p); [|eexists; split; reflexivity].
  destruct (PluginFacts.unlink_quietly_Ok p w) as [w' E].
  rewrite E in *. exists w'. split; [reflexivity|exact Hreq].
Qed.

Lemma upload_file_outcome lib env ip local_path folder_id display_name inject navigate w :
  let res := upload_file lib env ip local_path folder_id display_name inject navigate w in
  exists gets,
    forallb is_GET gets = true
    /\ ((requests (snd res) = (requests w ++ gets)%list /\ exists e, fst res = Raise e)
        \/ exists content_type body,
             requests (snd res)
             = (requests w ++ gets ++ [POST_upload ip content_type body])%list
             /\ fst res = upload_result lib env display_name body).
Proof.
  cbv zeta. unfold upload_file.
  assert (Hnav : exists gets wn,
             (if navigate
              then try_except (fetch_documents env ip folder_id ;; ret tt)
                     (fun _ => log WARNING ("Pre-upload navigation failed for folder="
                                            ++ folder_id))
              else ret tt) w = (Ok tt, wn)
             /\ requests wn = (requests w ++ gets)%list
             /\ forallb is_GET gets = true).
  { destruct navigate.
    - destruct (PluginFacts.navigation_step env ip folder_id
                  ("Pre-upload navigation failed for folder=" ++ folder_id) w)
        as [wn [E R]].
      exists [GET_documents ip folder_id], wn. repeat split; assumption.
    - exists [], w. rewrite app_nil_r. repeat split. }
  destruct Hnav as [gets [wn [En [Rn Fn]]]].
  exists gets. split; [exact Fn|].
  match goal with
  | |- context [fst (?c w)] => destruct (c w) as [r w'] eqn:E
  end.
  cbn [snd fst].
  unfold bind at 1 in E. rewrite En in E. unfold bind at 1 in E.
  pose proof (emits_nothing wn
                (emits_prepare_epub no_request lib env local_path inject)) as Rp.
  destruct (_prepare_epub lib env local_path inject wn) as [[[prepared cleanup]|e] wp];
    cbn [snd fst] in *.
  2: { inversion E; subst. left.
       split; [rewrite Rp, Rn; reflexivity|exists e; reflexivity]. }
  unfold try_finally in E.
  unfold bind at 1, read_file at 1 in E.
  destruct (dict_get prepared (files wp)) as [file_data|].
  2: { destruct (cleanup_Ok cleanup wp) as [wc [Ec Rc]]. rewrite Ec in E.
       inversion E; subst. left. split; [rewrite Rc, Rp, Rn; reflexivity|].
       eexists. reflexivity. }
  unfold _build_multipart in E. unfold bind at 1 in E.
  unfold bind at 1, draw at 1 in E.
  unfold ret at 1 in E. unfold bind at 1, send at 1 in E.
  match type of E with
  | context [upload_response env ?b] => set (body := b) in *
  end.
  match type of E with
  | context [POST_upload ip ?c body] => set (ctype := c) in *
  end.
  right. exists ctype, body.
  unfold upload_result.
  destruct (upload_response env body) as [json|code raw|e].
  - unfold ret at 1 in E.
    match type of E with
    | context [match ?f ?W with _ => _ end] =>
        destruct (cleanup_Ok cleanup W) as [wc [Ec Rc]]
    end.
    rewrite Ec in E. inversion E; subst. rewrite Rc. cbn [requests].
    rewrite Rp, Rn, <- app_assoc. split; reflexivity.
  - unfold bind at 1, log at 1 in E. unfold raise at 1 in E.
    match type of E with
    | context [match ?f ?W with _ => _ end] =>
        destruct (cleanup_Ok cleanup W) as [wc [Ec Rc]]
    end.
    rewrite Ec in E. inversion E; subst. rewrite Rc. cbn [requests].
    rewrite Rp, Rn, <- app_assoc. split; reflexivity.
  - unfold raise at 1 in E.
    match type of E with
    | context [match ?f ?W with _ => _ end] =>
        destruct (cleanup_Ok cleanup W) as [wc [Ec Rc]]
    end.
    rewrite Ec in E. inversion E; subst. rewrite Rc. cbn [requests].
    rewrite Rp, Rn, <- app_assoc. split; reflexivity.
Qed.

(** C6 as stated fails where it calls the error body truncated and
    bounded: the full device answers with a body of 1100 characters, and
    the message of the raised error carries all of them. *)
Lemma upload_error_body_not_truncated :
  exists msg w',
    upload_file Examples.toy_lib Examples.full_env "10.11.99.1"
      "/books/paper.pdf" "f1" "paper.pdf" true false Examples.library_world
    = (Raise (RuntimeError msg), w')
    /\ String.length Examples.long_error_body = 1100
    /\ Py.contains Examples.long_error_body msg = true
    /\ 1100 < String.length msg.
Proof.
  eexists. eexists. split; [vm_compute; reflexivity|].
  split; [vm_compute; reflexivity|]. split; [vm_compute; reflexivity|].
  vm_compute. repeat constructor.
Qed.

(** C6, amended. When the device answers the [POST /upload] of a call of
    [upload_file] with a non-success status, the call raises one
    [RuntimeError] whose message holds the status code, the error body (in
    full, not truncated; the words [no details] when it is empty), the
    destination filename and the byte size of the multipart body that was
    sent. *)
Theorem upload_file_http_error lib env ip local_path folder_id display_name
    inject navigate w r w' content_type body code raw :
  upload_file lib env ip local_path folder_id display_name inject navigate w = (r, w') ->
  In (POST_upload ip content_type body) (requests w') ->
  ~ In (POST_upload ip content_type body) (requests w) ->
  upload_response env body = PostHTTPError code raw ->
  exists msg,
    r = Raise (RuntimeError msg)
    /\ msg = upload_error_message code (utf8_decode_replace lib raw) display_name
               (String.length body)
    /\ Py.contains (Py.str_of_nat code) msg = true
    /\ Py.contains (Py.str_or (utf8_decode_replace lib raw) "no details") msg = true
    /\ Py.contains display_name msg = true
    /\ Py.contains (Py.str_of_nat (String.length body)) msg = true.
Proof.
  intros E Hin Hnin Hresp.
  destruct (upload_file_outcome lib env ip local_path folder_id display_name
              inject navigate w) as [gets [Hgets Hcases]].
  rewrite E in Hcases. cbn [snd fst] in Hcases.
  assert (Hget : ~ In (POST_upload ip content_type body) gets).
  { intros H. rewrite forallb_forall in Hgets. specialize (Hgets _ H).
    discriminate Hgets. }
  destruct Hcases as [[Hreq _]|[ct0 [body0 [Hreq Hr]]]].
  - exfalso. rewrite Hreq in Hin. apply in_app_or in Hin. tauto.
  - rewrite Hreq in Hin.
    apply in_app_or in Hin. destruct Hin as [Hin|Hin]; [contradiction|].
    apply in_app_or in Hin. destruct Hin as [Hin|Hin]; [contradiction|].
    destruct Hin as [Hin|[]]. inversion Hin; subst ct0 body0.
    unfold upload_result in Hr. rewrite Hresp in Hr.
    eexists. split; [exact Hr|]. split; [reflexivity|].
    apply upload_error_message_parts.
Qed.

(** An upload of a PDF to the full device: status 507. *)
Lemma upload_file_http_error_witness :
  exists body msg w',
    upload_file Examples.toy_lib Examples.full_env "10.11.99.1"
      "/books/paper.pdf" "f1" "paper.pdf" true false Examples.library_world
    = (Raise (RuntimeError msg), w')
    /\ Py.contains "507" msg = true
    /\ Py.contains "paper.pdf" msg = true
    /\ Py.contains (Py.str_of_nat (String.length body)) msg = true
    /\ requests w' = [POST_upload "10.11.99.1"
                        "multipart/form-data; boundary=----remarkable-0" body].
Proof.
  set (res := upload_file Examples.toy_lib Examples.full_env "10.11.99.1"
                "/books/paper.pdf" "f1" "paper.pdf" true false
                Examples.library_world).
  assert (Hres : exists body, requests (snd res)
            = [POST_upload "10.11.99.1"
                 "multipart/form-data; boundary=----remarkable-0" body]).
  { eexists. vm_compute. reflexivity. }
  destruct Hres as [body Hreq].
  destruct (@upload_file_http_error Examples.toy_lib Examples.full_env
              "10.11.99.1" "/books/paper.pdf" "f1" "paper.pdf" true false
              Examples.library_world (fst res) (snd res)
              "multipart/form-data; boundary=----remarkable-0" body
              507 Examples.long_error_body)
    as [msg [Hr [Hmsg [Hcode [_ [Hname Hsize]]]]]].
  - symmetry. apply surjective_pairing.
  - rewrite Hreq. left. reflexivity.
  - intros [].
  - reflexivity.
  - exists body, msg, (snd res). repeat split; try assumption.
    rewrite <- Hr. apply surjective_pairing.
Defined.

End UploadFacts.
(* ===================================================================== *)
(** * Properties of the EPUB preparation *)
(* ===================================================================== *)

Module EpubFacts.
Import Eff WebInterface EffFacts.

(** ** The archive written by [_prepare_epub] *)

Lemma copy_member_spec src opf_path patched_opf item m :
  copy_member src opf_path patched_opf item = Ok m ->
  copied_from src opf_path patched_opf item m.
Proof.
  unfold copy_member, copied_from.
  destruct (zip_read src (filename item)) as [bytes|e]; [|discriminate].
  intros H. inversion H; subst; clear H. simpl.
  do 4 (split; [reflexivity|]).
  destruct patched_opf as [patched|]; [|left; reflexivity].
  destruct opf_path as [p|]; [|left; reflexivity].
  destruct (Py.truthy patched && (filename item =? p)) eqn:E.
  - right. apply andb_true_iff in E. destruct E as [_ E].
    apply String.eqb_eq in E. subst p. split; reflexivity.
  - left. reflexivity.
Qed.

Lemma write_epub_spec src opf_path patched_opf new_files dst :
  write_epub src opf_path patched_opf new_files = Ok dst ->
  exists copied,
    dst = mimetype_member
          :: (copied ++ map (fun kv => mkZipInfo (fst kv) ZIP_DEFLATED "" (snd kv) None)
                          new_files)%list
    /\ Forall2 (copied_from src opf_path patched_opf)
         (filter (fun item => negb (filename item =? "mimetype")) src) copied.
Proof.
  unfold write_epub.
  destruct (map_result _ _) as [copied|e] eqn:E; [|discriminate].
  intros H. inversion H; subst; clear H.
  exists copied. split; [reflexivity|].
  apply map_result_Ok_Forall2 in E.
  eapply Forall2_impl; [|exact E].
  intros item m Hm. apply copy_member_spec. exact Hm.
Qed.

Lemma dict_get_written p d fs :
  dict_get p ((p, d) :: fs) = Some d.
Proof. simpl. rewrite String.eqb_refl. reflexivity. Qed.

(** C2. Whenever [_prepare_epub] repackages its input (it returns a new
    path to clean up, which it does only for a readable [.epub] archive),
    the archive it has written there starts with the member [mimetype],
    stored uncompressed, with an empty extra field and exactly the bytes
    [application/epub+zip]; after it come the members of the source other
    than [mimetype], in their order, each under its name with the content
    the source gives for that name (the package document in its patched
    form when a cover page was injected), and then the new files. *)
Theorem prepare_epub_mimetype_first lib env path inject_cover w out_path cleanup w' :
  _prepare_epub lib env path inject_cover w = (Ok (out_path, Some cleanup), w') ->
  exists src opf_path patched_opf new_files copied,
    open_zip lib path w = (Ok src, w)
    /\ _locate_opf lib src = Ok opf_path
    /\ cover_step lib src opf_path inject_cover = Ok (patched_opf, new_files)
    /\ cleanup = out_path
    /\ dict_get out_path (files w')
       = Some (zip_dump lib
                 (mkZipInfo "mimetype" ZIP_STORED "" "application/epub+zip" None
                  :: (copied
                      ++ map (fun kv => mkZipInfo (fst kv) ZIP_DEFLATED ""
                                          (snd kv) None)
                           new_files)%list))
    /\ Forall2 (copied_from src opf_path patched_opf)
         (filter (fun item => negb (filename item =? "mimetype")) src) copied.
Proof.
  unfold _prepare_epub. intros H.
  destruct (negb (Py.endswith ".epub" (str_lower lib path))).
  { apply ret_inv in H. destruct H as [H _]. discriminate H. }
  unfold try_except in H.
  match type of H with
  | context [match ?c w with _ => _ end] => destruct (c w) as [[a|e] w1] eqn:E
  end.
  2: { destruct e; discriminate H. }
  inversion H; subst a w1; clear H.
  apply bind_Ok_inv in E. destruct E as [src [w1 [Hopen E]]].
  assert (Hw1 : w1 = w).
  { unfold open_zip in Hopen. apply bind_Ok_inv in Hopen.
    destruct Hopen as [bytes [w2 [Hread Hload]]].
    unfold read_file in Hread.
    destruct (dict_get path (files w)); [|discriminate].
    inversion Hread; subst.
    destruct (zip_load lib bytes); [|discriminate].
    apply ret_inv in Hload. destruct Hload as [_ Hw]. congruence. }
  subst w1.
  apply bind_Ok_inv in E. destruct E as [opf_path [w2 [Hopf E]]].
  apply lift_Ok_inv in Hopf. destruct Hopf as [Hopf ->].
  apply bind_Ok_inv in E. destruct E as [[patched new_files] [w2 [Hcover E]]].
  apply lift_Ok_inv in Hcover. destruct Hcover as [Hcover ->].
  apply bind_Ok_inv in E. destruct E as [n [w3 [_ E]]].
  apply bind_Ok_inv in E. destruct E as [[] [w4 [_ E]]].
  destruct (write_epub src opf_path patched new_files) as [dst|e] eqn:Hwrite.
  2: { unfold bind, write_file, raise in E. discriminate E. }
  apply bind_Ok_inv in E. destruct E as [[] [w6 [Hfile E]]].
  apply bind_Ok_inv in E. destruct E as [[] [w7 [Hlog E]]].
  apply ret_inv in E. destruct E as [E ->].
  inversion E; subst; clear E.
  apply write_epub_spec in Hwrite. destruct Hwrite as [copied [Hdst Hcopied]].
  exists src, opf_path, patched, new_files, copied.
  split; [exact Hopen|]. split; [exact Hopf|]. split; [exact Hcover|].
  split; [reflexivity|].
  split; [|exact Hcopied].
  unfold log in Hlog. inversion Hlog; subst; clear Hlog. cbn [files].
  unfold write_file, set_files in Hfile. inversion Hfile; subst; clear Hfile.
  cbn [files]. rewrite dict_get_written. reflexivity.
Qed.

Lemma prepare_epub_mimetype_first_witness :
  exists src opf_path patched_opf new_files copied,
    open_zip Examples.toy_lib "/books/book.epub" Examples.library_world
    = (Ok src, Examples.library_world)
    /\ _locate_opf Examples.toy_lib src = Ok opf_path
    /\ cover_step Examples.toy_lib src opf_path true = Ok (patched_opf, new_files)
    /\ "/tmp/tmp0.epub" = "/tmp/tmp0.epub"
    /\ dict_get "/tmp/tmp0.epub"
         (files (snd (_prepare_epub Examples.toy_lib Examples.calibre_env
                        "/books/book.epub" true Examples.library_world)))
       = Some (zip_dump Examples.toy_lib
                 (mkZipInfo "mimetype" ZIP_STORED "" "application/epub+zip" None
                  :: (copied
                      ++ map (fun kv => mkZipInfo (fst kv) ZIP_DEFLATED ""
                                          (snd kv) None)
                           new_files)%list))
    /\ Forall2 (copied_from src opf_path patched_opf)
         (filter (fun item => negb (filename item =? "mimetype")) src) copied.
Proof.
  apply (@prepare_epub_mimetype_first Examples.toy_lib Examples.calibre_env
           "/books/book.epub" true Examples.library_world
           "/tmp/tmp0.epub" "/tmp/tmp0.epub").
  vm_compute. reflexivity.
Defined.

(** ** The package document after the patch *)

Lemma iter_all_children e : iter_all e = e :: flat_map iter_all (children e).
Proof.
  destruct e as [t a cs]. reflexivity.
Qed.

(** The attributes of the elements that [iter] finds, by the structure of
    the element. *)
Lemma iter_attribs t e :
  map attrib (iter t e)
  = ((if tag e =? t then [attrib e] else [])
     ++ flat_map (fun c => map attrib (iter t c)) (children e))%list.
Proof.
  unfold iter at 1. rewrite iter_all_children. cbn [filter].
  assert (H : map attrib (filter (fun c => tag c =? t)
                            (flat_map iter_all (children e)))
              = flat_map (fun c => map attrib (iter t c)) (children e)).
  { induction (children e) as [|c cs IH]; simpl; [reflexivity|].
    rewrite filter_app, map_app, IH. reflexivity. }
  destruct (tag e =? t); cbn [map app]; rewrite H; reflexivity.
Qed.

Lemma leaf_attribs t T a :
  (T =? t) = false -> map attrib (iter t (Element T a [])) = [].
Proof.
  intros H. rewrite iter_attribs. cbn [tag children flat_map]. rewrite H.
  reflexivity.
Qed.

Lemma append_child_attribs t n e :
  map attrib (iter t n) = [] ->
  map attrib (iter t (append_child n e)) = map attrib (iter t e).
Proof.
  intros H. rewrite (iter_attribs t (append_child n e)), (iter_attribs t e).
  unfold append_child. cbn [tag attrib children].
  rewrite flat_map_app. cbn [flat_map]. rewrite H, !app_nil_r. reflexivity.
Qed.

Lemma insert_first_attribs t n e :
  map attrib (iter t n) = [] ->
  map attrib (iter t (insert_first n e)) = map attrib (iter t e).
Proof.
  intros H. rewrite (iter_attribs t (insert_first n e)), (iter_attribs t e).
  unfold insert_first. cbn [tag attrib children flat_map]. rewrite H.
  reflexivity.
Qed.

Lemma update_first_child_attribs t T f e :
  (forall c, map attrib (iter t (f c)) = map attrib (iter t c)) ->
  map attrib (iter t (update_first_child T f e)) = map attrib (iter t e).
Proof.
  intros Hf.
  rewrite (iter_attribs t (update_first_child T f e)), (iter_attribs t e).
  unfold update_first_child. cbn [tag attrib children]. f_equal.
  induction (children e) as [|c cs IH]; [reflexivity|].
  cbn [update_first]. destruct (tag c =? T); cbn [flat_map].
  - rewrite Hf. reflexivity.
  - rewrite IH. reflexivity.
Qed.

(** The patch adds elements of four tags and changes no attribute: the
    elements of any other tag keep their attributes. *)
Lemma patch_package_attribs t root :
  (opf "item" =? t) = false -> (opf "itemref" =? t) = false ->
  (opf "reference" =? t) = false -> (opf "guide" =? t) = false ->
  map attrib (iter t (patch_package root)) = map attrib (iter t root).
Proof.
  intros Hitem Hitemref Hreference Hguide.
  assert (Hm : map attrib
                 (iter t (update_first_child (opf "spine") (insert_first ref)
                            (update_first_child (opf "manifest")
                               (append_child new_item) root)))
               = map attrib (iter t root)).
  { rewrite update_first_child_attribs
      by (intros c; apply insert_first_attribs, leaf_attribs; exact Hitemref).
    apply update_first_child_attribs.
    intros c. apply append_child_attribs, leaf_attribs. exact Hitem. }
  unfold patch_package. cbv zeta.
  destruct (find_child (opf "guide") _).
  - rewrite update_first_child_attribs; [exact Hm|].
    intros c. apply append_child_attribs, leaf_attribs. exact Hreference.
  - rewrite append_child_attribs; [exact Hm|].
    rewrite iter_attribs. cbn [tag children flat_map]. rewrite Hguide.
    unfold guide_ref. rewrite leaf_attribs by exact Hreference. reflexivity.
Qed.

Lemma cover_meta_attribs l1 l2 :
  map attrib l1 = map attrib l2 -> cover_meta l1 = cover_meta l2.
Proof.
  revert l2. induction l1 as [|a l1 IH]; intros [|b l2] H; try discriminate H.
  - reflexivity.
  - cbn [map] in H. inversion H as [[Hab Hl]].
    assert (Hname : attr_is "name" "cover" a = attr_is "name" "cover" b)
      by (unfold attr_is, get; rewrite Hab; reflexivity).
    assert (Hcontent : get "content" a = get "content" b)
      by (unfold get; rewrite Hab; reflexivity).
    specialize (IH l2 Hl). unfold cover_meta in *. cbn [find].
    rewrite Hname. destruct (attr_is "name" "cover" b).
    + rewrite Hcontent. reflexivity.
    + exact IH.
Qed.

Lemma cover_image_id_patch root :
  cover_image_id (patch_package root) = cover_image_id root.
Proof.
  unfold cover_image_id.
  rewrite (cover_meta_attribs (iter (opf "meta") (patch_package root))
             (iter (opf "meta") root))
    by (apply patch_package_attribs; reflexivity).
  rewrite (cover_meta_attribs (iter "meta" (patch_package root))
             (iter "meta" root))
    by (apply patch_package_attribs; reflexivity).
  reflexivity.
Qed.

(** ** Where the patch leaves the manifest and the spine *)

Lemma find_app_Some A (p : A -> bool) l l' x :
  find p l = Some x -> find p (l ++ l')%list = Some x.
Proof.
  induction l as [|a l IH]; cbn [find app]; [discriminate|].
  destruct (p a); [trivial|exact IH].
Qed.

Lemma find_app_None A (p : A -> bool) l l' :
  find p l = None -> find p (l ++ l')%list = find p l'.
Proof.
  induction l as [|a l IH]; cbn [find app]; [reflexivity|].
  destruct (p a); [discriminate|exact IH].
Qed.

Lemma find_app_last A (p : A -> bool) l x :
  p x = false -> find p (l ++ [x])%list = find p l.
Proof.
  intros Hx. induction l as [|a l IH]; cbn [find app].
  - rewrite Hx. reflexivity.
  - destruct (p a); [reflexivity|exact IH].
Qed.

Lemma find_update_first_same T f cs :
  (forall c, tag (f c) = tag c) ->
  find (fun c => tag c =? T) (update_first T f cs)
  = option_map f (find (fun c => tag c =? T) cs).
Proof.
  intros Hf. induction cs as [|c cs IH]; [reflexivity|].
  cbn [update_first find]. destruct (tag c =? T) eqn:E; cbn [find option_map].
  - rewrite Hf, E. reflexivity.
  - rewrite E. exact IH.
Qed.

Lemma find_update_first_other T T' f cs :
  (T' =? T) = false -> (forall c, tag (f c) = tag c) ->
  find (fun c => tag c =? T) (update_first T' f cs)
  = find (fun c => tag c =? T) cs.
Proof.
  intros HT Hf. induction cs as [|c cs IH]; [reflexivity|].
  cbn [update_first find]. destruct (tag c =? T') eqn:E; cbn [find].
  - rewrite Hf. apply String.eqb_eq in E. rewrite E, HT. reflexivity.
  - destruct (tag c =? T); [reflexivity|exact IH].
Qed.

Lemma find_child_guide T root :
  (opf "guide" =? T) = false ->
  find_child T
    (match find_child (opf "guide") root with
     | Some _ => update_first_child (opf "guide") (append_child guide_ref) root
     | None => append_child (Element (opf "guide") [] [guide_ref]) root
     end)
  = find_child T root.
Proof.
  intros HT. destruct (find_child (opf "guide") root); unfold find_child.
  - unfold update_first_child. cbn [children].
    apply find_update_first_other; [exact HT|reflexivity].
  - unfold append_child. cbn [children]. apply find_app_last. exact HT.
Qed.

Lemma find_manifest_patch root :
  find_child (opf "manifest") (patch_package root)
  = option_map (append_child new_item) (find_child (opf "manifest") root).
Proof.
  unfold patch_package. cbv zeta.
  rewrite find_child_guide by reflexivity.
  unfold find_child, update_first_child. cbn [children].
  rewrite find_update_first_other by reflexivity.
  apply find_update_first_same. reflexivity.
Qed.

Lemma find_spine_patch root :
  find_child (opf "spine") (patch_package root)
  = option_map (insert_first ref) (find_child (opf "spine") root).
Proof.
  unfold patch_package. cbv zeta.
  rewrite find_child_guide by reflexivity.
  unfold find_child, update_first_child. cbn [children].
  rewrite find_update_first_same by reflexivity.
  rewrite find_update_first_other by reflexivity.
  reflexivity.
Qed.

Lemma findall_item_append m :
  findall (opf "item") (append_child new_item m)
  = (findall (opf "item") m ++ [new_item])%list.
Proof.
  unfold findall, append_child. cbn [children]. rewrite filter_app. reflexivity.
Qed.

Lemma cover_image_href_append m cid href :
  cover_image_href m cid = Some href ->
  cover_image_href (append_child new_item m) cid = Some href.
Proof.
  unfold cover_image_href. rewrite findall_item_append.
  destruct (find (attr_is "id" cid) (findall (opf "item") m)) as [it|] eqn:E;
    [|discriminate].
  rewrite find_app_Some with (x := it) by exact E. trivial.
Qed.

(** ** The page written by the first pass *)

Lemma zip_read_last zf name c e d :
  zip_read (zf ++ [mkZipInfo name c e d None])%list name = Ok d.
Proof.
  unfold zip_read. rewrite rev_app_distr. cbn [rev app find filename].
  rewrite String.eqb_refl. reflexivity.
Qed.

(** X13. The second pass of [_ensure_cover_page], on the archive written from
    the results of the first: when the first pass has injected a page, the
    id [rm-cover-page] was unused in the manifest, the serialized package
    document parses back to the patched tree and decoding undoes encoding,
    the second pass finds the page and returns nothing to patch. *)
Lemma ensure_cover_page_second_pass lib zf opf_path opf_bytes root patched
    new_files once :
  ET_fromstring lib opf_bytes = Some root ->
  _ensure_cover_page lib zf opf_path opf_bytes = Ok (Some patched, new_files) ->
  page_id_unused root = true ->
  ET_fromstring lib patched = Some (patch_package root) ->
  (forall s, utf8_decode_replace lib (utf8_encode lib s) = s) ->
  write_epub zf (Some opf_path) (Some patched) new_files = Ok once ->
  _ensure_cover_page lib once opf_path patched = Ok (None, []).
Proof.
  intros Hroot Hfirst Hfree Hparse Hutf Hwrite.
  unfold _ensure_cover_page in Hfirst. rewrite Hroot in Hfirst.
  destruct (cover_image_id root) as [cid|] eqn:Ecid; [|discriminate].
  destruct (Py.truthy cid) eqn:Etc; cbn [negb] in Hfirst; [|discriminate].
  destruct (find_child (opf "manifest") root) as [m|] eqn:Em; [|discriminate].
  destruct (cover_image_href m cid) as [href|] eqn:Eh; [|discriminate].
  destruct (Py.truthy href) eqn:Eth; cbn [negb] in Hfirst; [|discriminate].
  destruct (find_child (opf "spine") root) as [sp|] eqn:Esp; [|discriminate].
  destruct (children sp) as [|c cs] eqn:Ecs; [discriminate|].
  destruct (first_page_shows_cover lib zf opf_path m sp href) as [[|]|e0];
    try discriminate Hfirst.
  inversion Hfirst; subst patched new_files; clear Hfirst.
  apply write_epub_spec in Hwrite. destruct Hwrite as [copied [Honce _]].
  unfold _ensure_cover_page. rewrite Hparse, cover_image_id_patch, Ecid, Etc.
  cbn [negb]. rewrite find_manifest_patch, Em. cbn [option_map].
  rewrite (cover_image_href_append _ _ Eh), Eth. cbn [negb].
  rewrite find_spine_patch, Esp. cbn [option_map insert_first children].
  assert (Hshown : first_page_shows_cover lib once opf_path
                     (append_child new_item m) (insert_first ref sp) href
                   = Ok true).
  { unfold first_page_shows_cover. cbn [insert_first children].
    change (get "idref" ref) with (Some page_id). cbv iota.
    rewrite findall_item_append.
    unfold page_id_unused, manifest_items in Hfree. rewrite Em in Hfree.
    destruct (find (attr_is "id" page_id) (findall (opf "item") m)) eqn:Efind;
      [discriminate|].
    rewrite find_app_None by exact Efind.
    change (find (attr_is "id" page_id) [new_item]) with (Some new_item).
    cbv iota. change (get "href" new_item) with (Some page_filename). cbv iota.
    rewrite Honce. cbn [map fst snd]. rewrite app_comm_cons.
    rewrite zip_read_last, Hutf. f_equal. apply UploadFacts.contains_middle. }
  rewrite Hshown. reflexivity.
Qed.

Example ensure_cover_page_second_pass_book :
  _ensure_cover_page Examples.toy_lib (Examples.repackaged Examples.book_zip)
    "OEBPS/content.opf" (Examples.render (patch_package Examples.opf_doc))
  = Ok (None, []).
Proof.
  apply (@ensure_cover_page_second_pass Examples.toy_lib Examples.book_zip
           "OEBPS/content.opf" (Examples.render Examples.opf_doc)
           Examples.opf_doc _
           [("OEBPS/rm_cover.xhtml", cover_page_html "cover.jpg")]).
  - vm_compute. reflexivity.
  - vm_compute. reflexivity.
  - vm_compute. reflexivity.
  - vm_compute. reflexivity.
  - intros s. reflexivity.
  - vm_compute. reflexivity.
Defined.

(** C4, the case the second pass misses.  A book whose manifest already
    has an item with the id [rm-cover-page], for another page, is prepared
    twice with cover injection.  The first pass injects a cover page.  The
    second pass looks up the first spine reference, [rm-cover-page], in
    the manifest, finds the older item of that id first, reads a page that
    does not mention the cover image, and injects again: the package
    document of the second output has the injected manifest item twice and
    the spine reference twice, and the archive has the page twice. *)
Theorem cover_injection_repeats_on_taken_id :
  let lib := Examples.toy_lib in
  let env := Examples.calibre_env in
  let once := Examples.repackaged Examples.clash_zip in
  let first := _prepare_epub lib env "/books/clash.epub" true Examples.library_world in
  let second := _prepare_epub lib env "/tmp/tmp0.epub" true (snd first) in
  let root1 := patch_package Examples.opf_clash in
  let root2 := patch_package root1 in
  fst first = Ok ("/tmp/tmp0.epub", Some "/tmp/tmp0.epub")
  /\ dict_get "/tmp/tmp0.epub" (files (snd first)) = Some (zip_dump lib once)
  /\ zip_read once "OEBPS/content.opf" = Ok (ET_tostring lib root1)
  /\ _ensure_cover_page lib once "OEBPS/content.opf" (ET_tostring lib root1)
     = Ok (Some (ET_tostring lib root2),
           [("OEBPS/rm_cover.xhtml", cover_page_html "cover.jpg")])
  /\ map (get "id") (manifest_items root2)
     = [Some "cover-img"; Some "rm-cover-page"; Some "ch1";
        Some "rm-cover-page"; Some "rm-cover-page"]
  /\ spine_idrefs root2 = ["rm-cover-page"; "rm-cover-page"; "ch1"]
  /\ fst second = Ok ("/tmp/tmp1.epub", Some "/tmp/tmp1.epub")
  /\ exists twice,
       dict_get "/tmp/tmp1.epub" (files (snd second)) = Some (zip_dump lib twice)
       /\ zip_read twice "OEBPS/content.opf" = Ok (ET_tostring lib root2)
       /\ map filename twice
          = ["mimetype"; "META-INF/container.xml"; "OEBPS/content.opf";
             "OEBPS/intro.xhtml"; "OEBPS/ch1.xhtml"; "OEBPS/cover.jpg";
             "OEBPS/rm_cover.xhtml"; "OEBPS/rm_cover.xhtml"].
Proof.
  cbv zeta. repeat split; try (vm_compute; reflexivity).
  exists (Examples.repackaged (Examples.repackaged Examples.clash_zip)).
  repeat split; vm_compute; reflexivity.
Qed.

End EpubFacts.
(* ===================================================================== *)
(** * Properties of the device tree *)
(* ===================================================================== *)

Module FileTreeFacts.
Import Eff WebInterface EffFacts.

(** ** The listings of a tree *)

Lemma all_files_nodes e s rest prefix :
  all_files (mkFileTree (mkFileTreeNode e s :: rest)) prefix
  = List.app (if is_folder e then all_files s (prefix ++ name e ++ "/")
              else [(prefix ++ name e, e)])
             (all_files (mkFileTree rest) prefix).
Proof. reflexivity. Qed.

Lemma all_file_ids_nodes e s rest :
  all_file_ids (mkFileTree (mkFileTreeNode e s :: rest))
  = List.app (if is_folder e then all_file_ids s else [entry_id e])
             (all_file_ids (mkFileTree rest)).
Proof. reflexivity. Qed.

Lemma all_folder_paths_nodes e s rest prefix :
  all_folder_paths (mkFileTree (mkFileTreeNode e s :: rest)) prefix
  = List.app (if is_folder e
              then (prefix ++ name e)
                   :: all_folder_paths s ((prefix ++ name e) ++ "/")
              else [])
             (all_folder_paths (mkFileTree rest) prefix).
Proof. reflexivity. Qed.

(** Induction on a tree: over the nodes of a level, with the property
    known for the tree below each node. *)
Lemma FileTree_nodes_ind (P : FileTree -> Prop) :
  P (mkFileTree []) ->
  (forall e s rest, P s -> P (mkFileTree rest) ->
                    P (mkFileTree (mkFileTreeNode e s :: rest))) ->
  forall t, P t.
Proof.
  intros Hnil Hcons.
  fix IH 1. intros [ns].
  induction ns as [|[e s] rest IHrest].
  - exact Hnil.
  - apply Hcons; [apply IH|exact IHrest].
Qed.

(** X1. [all_file_ids] lists the ids of the entries of [all_files], in the
    same order, whatever the prefix. *)
Theorem all_file_ids_of_all_files t prefix :
  all_file_ids t = map (fun pe => entry_id (snd pe)) (all_files t prefix).
Proof.
  revert prefix. induction t as [|e s rest IHs IHrest] using FileTree_nodes_ind;
    intros prefix.
  - reflexivity.
  - rewrite all_file_ids_nodes, all_files_nodes, map_app, <- IHrest.
    destruct (is_folder e); [rewrite <- IHs|]; reflexivity.
Qed.

Lemma prefix_app_l x y s : String.prefix (x ++ y) s = true -> String.prefix x s = true.
Proof.
  revert s. induction x as [|a x IH]; intros s H.
  - destruct s; reflexivity.
  - destruct s as [|b s]; [discriminate H|]. simpl in *.
    destruct (Ascii.ascii_dec a b); [apply IH; exact H|discriminate H].
Qed.

Lemma endswith_app x n : Py.endswith n (x ++ n) = true.
Proof.
  induction x as [|a x IH]; simpl.
  - destruct n; simpl; rewrite ?String.eqb_refl, ?Ascii.eqb_refl; reflexivity.
  - rewrite IH. apply orb_true_r.
Qed.

(** X2. Every pair of [all_files] is a non-folder entry with its path: the
    path starts with the prefix and ends with the name of the entry. *)
Theorem all_files_paths t prefix :
  Forall (fun pe => is_folder (snd pe) = false
                    /\ Py.startswith prefix (fst pe) = true
                    /\ Py.endswith (name (snd pe)) (fst pe) = true)
         (all_files t prefix).
Proof.
  revert prefix. induction t as [|e s rest IHs IHrest] using FileTree_nodes_ind;
    intros prefix.
  - constructor.
  - rewrite all_files_nodes. apply Forall_app. split; [|apply IHrest].
    destruct (is_folder e) eqn:Ef.
    + eapply Forall_impl; [|apply IHs]. cbv beta.
      intros pe [H1 [H2 H3]]. repeat split; [exact H1| |exact H3].
      unfold Py.startswith in *. eapply prefix_app_l. exact H2.
    + constructor; [|constructor]. cbn [fst snd]. repeat split.
      * exact Ef.
      * apply UploadFacts.prefix_app.
      * apply endswith_app.
Qed.

(** ** The folder map *)

Lemma dict_set_keys k k' v d :
  In k (map fst (dict_set k' v d)) <-> k = k' \/ In k (map fst d).
Proof.
  induction d as [|[k0 v0] d IH]; simpl.
  - intuition congruence.
  - destruct (k0 =? k') eqn:E; simpl.
    + apply String.eqb_eq in E. subst k0. intuition congruence.
    + rewrite IH. intuition congruence.
Qed.

Lemma dict_update_keys k d other :
  In k (map fst (dict_update d other)) <-> In k (map fst d) \/ In k (map fst other).
Proof.
  unfold dict_update. revert d. induction other as [|[k0 v0] other IH]; intros d; simpl.
  - tauto.
  - rewrite IH, dict_set_keys. simpl. intuition congruence.
Qed.

(** X3. The keys of [folder_id_map] are the paths of [all_folder_paths]. *)
Theorem folder_id_map_keys t prefix k :
  In k (map fst (folder_id_map t prefix)) <-> In k (all_folder_paths t prefix).
Proof.
  assert (H : forall t prefix mapping,
             In k (map fst
                     ((fix nodes (ns : list FileTreeNode) (mapping : dict) : dict :=
                         match ns with
                         | [] => mapping
                         | mkFileTreeNode e s :: rest =>
                             if is_folder e then
                               let path := prefix ++ name e in
                               nodes rest
                                 (dict_update (dict_set path (entry_id e) mapping)
                                    (folder_id_map s (path ++ "/")))
                             else nodes rest mapping
                         end) (entries t) mapping))
             <-> In k (map fst mapping) \/ In k (all_folder_paths t prefix)).
  { clear t prefix.
    induction t as [|e s rest IHs IHrest] using FileTree_nodes_ind;
      intros prefix mapping.
    - simpl. tauto.
    - rewrite all_folder_paths_nodes. cbn [entries]. cbv zeta.
      destruct s as [below].
      destruct (is_folder e).
      + rewrite (IHrest prefix). rewrite dict_update_keys, dict_set_keys.
        rewrite in_app_iff. cbn [In].
        specialize (IHs ((prefix ++ name e) ++ "/") []). cbn [map In] in IHs.
        change (In k (map fst (folder_id_map (mkFileTree below)
                                 ((prefix ++ name e) ++ "/")))
                <-> False \/ In k (all_folder_paths (mkFileTree below)
                                     ((prefix ++ name e) ++ "/")))
          in IHs.
        rewrite IHs. intuition congruence.
      + rewrite (IHrest prefix). cbn [app]. tauto. }
  specialize (H t prefix []). cbn [map In] in H. destruct t as [ns].
  change (In k (map fst (folder_id_map (mkFileTree ns) prefix))
          <-> False \/ In k (all_folder_paths (mkFileTree ns) prefix)) in H.
  tauto.
Qed.

Lemma nodes_of_nodes e s rest :
  nodes_of (mkFileTree (mkFileTreeNode e s :: rest))
  = mkFileTreeNode e s :: List.app (nodes_of s) (nodes_of (mkFileTree rest)).
Proof. reflexivity. Qed.

Lemma dict_get_In k v d : dict_get k d = Some v -> In (k, v) d.
Proof.
  induction d as [|[k0 v0] d IH]; simpl; [discriminate|].
  destruct (k0 =? k) eqn:E.
  - apply String.eqb_eq in E. intros H. inversion H. subst. left. reflexivity.
  - intros H. right. apply IH, H.
Qed.

Lemma dict_set_In kv k' v' d :
  In kv (dict_set k' v' d) -> kv = (k', v') \/ In kv d.
Proof.
  induction d as [|[k0 v0] d IH]; simpl.
  - intros [H|[]]. left. symmetry. exact H.
  - destruct (k0 =? k'); simpl.
    + intros [H|H]; [left; symmetry; exact H|right; right; exact H].
    + intros [H|H]; [right; left; exact H|].
      destruct (IH H) as [H'|H']; [left; exact H'|right; right; exact H'].
Qed.

Lemma dict_update_In kv d other :
  In kv (dict_update d other) -> In kv d \/ In kv other.
Proof.
  unfold dict_update. revert d. induction other as [|[k0 v0] other IH]; intros d; simpl.
  - intros H. left. exact H.
  - intros H. destruct (IH _ H) as [H'|H']; [|right; right; exact H'].
    apply dict_set_In in H'. destruct H' as [H'|H'].
    + right. left. symmetry. exact H'.
    + left. exact H'.
Qed.

(** The values of [folder_id_map] are ids of folder nodes of the tree. *)
Lemma folder_id_map_values t prefix kv :
  In kv (folder_id_map t prefix) ->
  exists n, In n (nodes_of t) /\ is_folder (entry n) = true
            /\ entry_id (entry n) = snd kv.
Proof.
  assert (H : forall t prefix mapping,
             In kv
               ((fix nodes (ns : list FileTreeNode) (mapping : dict) : dict :=
                   match ns with
                   | [] => mapping
                   | mkFileTreeNode e s :: rest =>
                       if is_folder e then
                         let path := prefix ++ name e in
                         nodes rest
                           (dict_update (dict_set path (entry_id e) mapping)
                              (folder_id_map s (path ++ "/")))
                       else nodes rest mapping
                   end) (entries t) mapping)
             -> In kv mapping
                \/ exists n, In n (nodes_of t) /\ is_folder (entry n) = true
                             /\ entry_id (entry n) = snd kv).
  { clear t prefix.
    induction t as [|e s rest IHs IHrest] using FileTree_nodes_ind;
      intros prefix mapping.
    - simpl. tauto.
    - rewrite nodes_of_nodes. cbn [entries]. cbv zeta.
      destruct s as [below].
      destruct (is_folder e) eqn:Ef; intros Hin.
      + apply IHrest in Hin. destruct Hin as [Hin|[n [Hn Hf]]].
        * apply dict_update_In in Hin. destruct Hin as [Hin|Hin].
          -- apply dict_set_In in Hin. destruct Hin as [Hin|Hin]; [|left; exact Hin].
             right. exists (mkFileTreeNode e (mkFileTree below)).
             split; [left; reflexivity|]. subst kv. split; [exact Ef|reflexivity].
          -- right.
             destruct (IHs ((prefix ++ name e) ++ "/") [] Hin) as [[]|[n [Hn Hf]]].
             exists n. split; [|exact Hf]. right. apply in_or_app. left. exact Hn.
        * right. exists n. split; [|exact Hf]. right. apply in_or_app. right. exact Hn.
      + apply IHrest in Hin. destruct Hin as [Hin|[n [Hn Hf]]]; [left; exact Hin|].
        right. exists n. split; [|exact Hf]. right. apply in_or_app. right. exact Hn. }
  intros Hin. destruct t as [ns].
  destruct (H (mkFileTree ns) prefix [] Hin) as [[]|Hn]. exact Hn.
Qed.

End FileTreeFacts.
(* ===================================================================== *)
(** * The crawl and the device *)
(* ===================================================================== *)

Module CrawlFacts.
Import Eff WebInterface EffFacts TreeFacts RequestFacts FileTreeFacts.

Lemma for_entries_requests (L : string -> FileTree -> list request)
    recur es c w nodes c' w' :
  (forall id c w t c' w', recur id c w = (Ok (t, c'), w') ->
                          requests w' = (requests w ++ L id t)%list) ->
  for_entries recur es c w = (Ok (nodes, c'), w') ->
  requests w'
  = (requests w
     ++ flat_map (fun n => if is_folder (entry n)
                           then L (entry_id (entry n)) (subtree n)
                           else []) nodes)%list.
Proof.
  intros Hrec. revert c w nodes c' w'.
  induction es as [|e rest IH]; intros c w nodes c' w' H; simpl in H.
  - apply ret_inv in H. destruct H as [H ->]. inversion H.
    simpl. rewrite app_nil_r. reflexivity.
  - apply bind_Ok_inv in H. destruct H as [[sub c1] [w1 [Hsub H]]].
    apply bind_Ok_inv in H. destruct H as [[ns c2] [w2 [Hrest H]]].
    apply ret_inv in H. destruct H as [H ->]. inversion H; subst.
    apply IH in Hrest. rewrite Hrest. cbn [flat_map entry subtree].
    rewrite app_assoc. f_equal.
    destruct (is_folder e).
    + eapply Hrec. exact Hsub.
    + apply ret_inv in Hsub. destruct Hsub as [_ ->].
      rewrite app_nil_r. reflexivity.
Qed.

(** X4. A tree that [build_file_tree] returns is the tree the device
    describes, cut after [max_depth - _depth] levels: every level is the
    listing of its folder, parsed and sorted by parent id, a folder entry
    carries the tree of that folder and any other entry the empty tree. *)
Theorem build_file_tree_describes env ip root d m cb c w t w' :
  build_file_tree env ip root d m cb c w = (Ok t, w') ->
  describes env (m - d) root t.
Proof.
  unfold build_file_tree. intros H.
  apply bind_Ok_inv in H. destruct H as [[t0 c0] [w1 [Hbuild H]]].
  apply ret_inv in H. destruct H as [-> _].
  eapply build_from_describes. exact Hbuild.
Qed.

Lemma build_file_tree_describes_witness :
  describes Examples.cyclic_env (2 - 0) ""
    (mkFileTree
       [mkFileTreeNode (mkDeviceEntry "loop" "" "loop" COLLECTION "")
          (mkFileTree
             [mkFileTreeNode (mkDeviceEntry "loop" "loop" "loop" COLLECTION "")
                (mkFileTree [])])]).
Proof.
  apply (@build_file_tree_describes Examples.cyclic_env "10.11.99.1" "" 0 2
           None None Examples.empty_world _
           (snd (build_file_tree Examples.cyclic_env "10.11.99.1" "" 0 2
                   None None Examples.empty_world))).
  vm_compute. reflexivity.
Defined.

(** ** The requests of a crawl *)

Lemma fetch_documents_requests env ip id w :
  requests (snd (fetch_documents env ip id w))
  = (requests w ++ [GET_documents ip id])%list.
Proof.
  unfold fetch_documents, bind, send. cbn [requests snd].
  destruct (listing env id); reflexivity.
Qed.

Lemma map_flat_map {A B C} (f : B -> C) (g : A -> list B) l :
  map f (flat_map g l) = flat_map (fun a => map f (g a)) l.
Proof.
  induction l as [|a l IH]; simpl; [reflexivity|].
  rewrite map_app, IH. reflexivity.
Qed.

Lemma flat_map_ext_if {A B} (p : A -> bool) (f g : A -> list B) l :
  (forall a, f a = g a) -> flat_map f l = flat_map g l.
Proof.
  intros H. induction l as [|a l IH]; simpl; [reflexivity|].
  rewrite H, IH. reflexivity.
Qed.

Lemma build_from_requests env ip m gap root cb c w t c' w' :
  (forall f, cb = Some f -> forall msg w0, requests (snd (f msg w0)) = requests w0) ->
  build_from env ip m gap root cb c w = (Ok (t, c'), w') ->
  requests w' = (requests w ++ map (GET_documents ip) (listed gap root t))%list.
Proof.
  intros Hcb. revert root c w t c' w'.
  induction gap as [|g IH]; intros root c w t c' w' H; simpl in H.
  - apply bind_Ok_inv in H. destruct H as [[] [w1 [Hlog H]]].
    apply ret_inv in H. destruct H as [_ ->].
    unfold log in Hlog. inversion Hlog. cbn [requests listed map].
    rewrite app_nil_r. reflexivity.
  - apply bind_Ok_inv in H. destruct H as [raws [w1 [Hfetch H]]].
    apply bind_Ok_inv in H. destruct H as [es [w2 [Hes H]]].
    apply bind_Ok_inv in H. destruct H as [[] [w3 [Hprog H]]].
    apply bind_Ok_inv in H. destruct H as [[ns c1] [w4 [Hloop H]]].
    apply ret_inv in H. destruct H as [H ->]. inversion H; subst.
    apply lift_Ok_inv in Hes. destruct Hes as [_ ->].
    assert (H1 : requests w1 = (requests w ++ [GET_documents ip root])%list).
    { pose proof (fetch_documents_requests env ip root w) as E.
      rewrite Hfetch in E. exact E. }
    assert (H3 : requests w3 = requests w1).
    { destruct cb as [f|].
      - match type of Hprog with
        | f ?msg w1 = _ => pose proof (Hcb f eq_refl msg w1) as E
        end.
        rewrite Hprog in E. exact E.
      - apply ret_inv in Hprog. destruct Hprog as [_ ->]. reflexivity. }
    apply (for_entries_requests
             (fun id t => map (GET_documents ip) (listed g id t))) in Hloop.
    + rewrite Hloop, H3, H1. cbn [listed map entries].
      rewrite <- app_assoc. cbn [app]. do 2 f_equal.
      rewrite map_flat_map. apply (flat_map_ext_if (fun _ => true)).
      intros n. destruct (is_folder (entry n)); reflexivity.
    + intros id c0 w0 t0 c0' w0' H0. eapply IH. exact H0.
Qed.

(** ** The crawl finds the tree that the device describes *)

Lemma for_entries_complete recur nodes :
  Forall (fun n => if is_folder (entry n)
                   then forall c w, exists c' w',
                          recur (entry_id (entry n)) c w = (Ok (subtree n, c'), w')
                   else subtree n = mkFileTree []) nodes ->
  forall c w, exists c' w',
    for_entries recur (map entry nodes) c w = (Ok (nodes, c'), w').
Proof.
  induction 1 as [|n nodes Hn _ IH]; intros c w.
  - exists c, w. reflexivity.
  - destruct n as [e s]. cbn [map entry subtree for_entries] in *.
    unfold bind at 1. destruct (is_folder e).
    + destruct (Hn c w) as [c1 [w1 ->]].
      unfold bind at 1. destruct (IH c1 w1) as [c2 [w2 ->]].
      exists c2, w2. reflexivity.
    + subst s. unfold ret at 1.
      unfold bind at 1. destruct (IH c w) as [c2 [w2 ->]].
      exists c2, w2. reflexivity.
Qed.

(** A crawl whose progress callback never raises returns the tree that
    the device describes, when there is one. *)
Lemma build_from_complete env ip m gap root cb c w t :
  (forall f, cb = Some f -> forall msg w0, exists w1, f msg w0 = (Ok tt, w1)) ->
  describes env gap root t ->
  exists c' w', build_from env ip m gap root cb c w = (Ok (t, c'), w').
Proof.
  intros Hcb. revert root c w t.
  induction gap as [|g IH]; intros root c w t Hd.
  - cbn [describes] in Hd. subst t. cbn [build_from].
    unfold bind, log, ret. eexists. eexists. reflexivity.
  - cbn [describes] in Hd. destruct Hd as [raws [es [Hl [Hes [Hmap Hsub]]]]].
    cbn [build_from]. unfold bind at 1. unfold fetch_documents.
    unfold bind at 1. unfold send at 1. rewrite Hl. unfold ret at 1.
    unfold bind at 1. unfold lift at 1. rewrite Hes. cbv zeta.
    unfold bind at 1.
    match goal with
    | |- context [match ?k ?W with _ => _ end] =>
        assert (Hk : exists W1, k W = (Ok tt, W1))
    end.
    { destruct cb as [f|]; [apply (Hcb f eq_refl)|eexists; reflexivity]. }
    destruct Hk as [W1 ->].
    unfold bind at 1. rewrite <- Hmap.
    destruct t as [nodes]. cbn [entries] in *.
    destruct (@for_entries_complete
                (fun id c0 => build_from env ip m g id cb c0) nodes) with
      (c := c + length (map entry nodes)) (w := W1) as [c2 [w2 Hloop]].
    + eapply Forall_impl; [|exact Hsub]. cbv beta. intros n Hn.
      destruct (is_folder (entry n)); [|exact Hn].
      intros c0 w0. apply IH. exact Hn.
    + rewrite Hloop. exists c2, w2. reflexivity.
Qed.

Lemma build_file_tree_complete env ip root d m cb c w t :
  (forall f, cb = Some f -> forall msg w0, exists w1, f msg w0 = (Ok tt, w1)) ->
  describes env (m - d) root t ->
  exists w', build_file_tree env ip root d m cb c w = (Ok t, w').
Proof.
  intros Hcb Hd. unfold build_file_tree. unfold bind.
  destruct (@build_from_complete env ip m (m - d) root cb
              (match c with Some c0 => c0 | None => 0 end) w t Hcb Hd)
    as [c' [w' ->]].
  exists w'. reflexivity.
Qed.
(** X5. The requests of a crawl that returns a tree are the listing
    requests for the folders of that tree down to the depth bound, each
    folder listed once where it occurs, depth first in the order of the
    entries: nothing else is sent (the progress callback aside). *)
Theorem build_file_tree_requests env ip root d m cb c w t w' :
  (forall f, cb = Some f -> forall msg w0, requests (snd (f msg w0)) = requests w0) ->
  build_file_tree env ip root d m cb c w = (Ok t, w') ->
  requests w' = (requests w ++ map (GET_documents ip) (listed (m - d) root t))%list.
Proof.
  unfold build_file_tree. intros Hcb H.
  apply bind_Ok_inv in H. destruct H as [[t0 c0] [w1 [Hbuild H]]].
  apply ret_inv in H. destruct H as [-> ->].
  eapply build_from_requests; [exact Hcb|exact Hbuild].
Qed.

Lemma build_file_tree_requests_witness :
  requests (snd (build_file_tree Examples.calibre_env "10.11.99.1" "" 0 3
                   None None Examples.empty_world))
  = [GET_documents "10.11.99.1" ""; GET_documents "10.11.99.1" "f1"].
Proof.
  apply (@build_file_tree_requests Examples.calibre_env "10.11.99.1" "" 0 3
           None None Examples.empty_world
           (mkFileTree [mkFileTreeNode
                          (mkDeviceEntry "f1" "" "Calibre" COLLECTION "")
                          (mkFileTree [])])).
  - discriminate.
  - vm_compute. reflexivity.
Defined.

(** ** Reachability and the folder lookup *)

(** X6. [is_reachable] never raises.  It sends one listing request for the
    root and answers whether the device returned a listing; when it did
    not, whatever the error, the answer is false and a warning is logged. *)
Theorem is_reachable_never_raises env ip w :
  exists b w',
    is_reachable env ip w = (Ok b, w')
    /\ requests w' = (requests w ++ [GET_documents ip ""])%list
    /\ (b = true <-> exists raw_list, listing env "" = Listing raw_list)
    /\ logs w' = (if b then logs w
                  else List.app (logs w)
                         [(WARNING, "Cannot reach reMarkable at " ++ ip)]).
Proof.
  unfold is_reachable, try_except, bind, fetch_documents, send, log, ret, raise.
  destruct (listing env "") as [raws|e] eqn:E.
  - exists true. eexists. split; [reflexivity|]. cbn [requests logs].
    repeat split. exists raws. reflexivity.
  - exists false. eexists. split; [reflexivity|]. cbn [requests logs].
    repeat split; try discriminate. intros [raws H]. discriminate H.
Qed.

Lemma emits_for_entries P recur es c :
  (forall id c0, emits P (recur id c0)) -> emits P (for_entries recur es c).
Proof.
  intros Hrec. revert c. induction es as [|e rest IH]; intros c; simpl.
  - apply emits_ret.
  - apply emits_bind.
    + destruct (is_folder e); [apply Hrec|apply emits_ret].
    + intros [sub c1]. apply emits_bind; [apply IH|].
      intros [ns c2]. apply emits_ret.
Qed.

Lemma emits_build_from P env ip m gap root c :
  (forall id, P (GET_documents ip id) = true) ->
  emits P (build_from env ip m gap root None c).
Proof.
  intros HP. revert root c. induction gap as [|g IH]; intros root c; simpl.
  - apply emits_bind; [apply emits_log|]. intros _. apply emits_ret.
  - apply emits_bind; [apply emits_fetch_documents, HP|]. intros raws.
    apply emits_bind; [apply emits_lift|]. intros es.
    apply emits_bind; [apply emits_ret|]. intros _.
    apply emits_bind; [apply emits_for_entries; intros; apply IH|].
    intros [ns c1]. apply emits_ret.
Qed.

Lemma emits_find_folder_id env lower ip folder_name :
  emits is_GET (find_folder_id env lower ip folder_name).
Proof.
  unfold find_folder_id. destruct (negb _); [apply emits_ret|].
  apply emits_try_except.
  - apply emits_bind.
    + unfold build_file_tree. apply emits_bind.
      * apply emits_build_from. reflexivity.
      * intros [t c]. apply emits_ret.
    + intros t. destruct (dict_get _ _); [apply emits_ret|].
      destruct (find _ _); [apply emits_ret|].
      apply emits_bind; [apply emits_log|]. intros _. apply emits_ret.
  - intros e. apply emits_bind; [apply emits_log|]. intros _. apply emits_ret.
Qed.

(** X7. [find_folder_id] never raises, and all it sends are listing
    requests.  For the empty name it returns the empty id at once and
    leaves everything as it was. *)
Theorem find_folder_id_never_raises env lower ip folder_name w :
  exists fid w' gets,
    find_folder_id env lower ip folder_name w = (Ok fid, w')
    /\ requests w' = (requests w ++ gets)%list
    /\ forallb is_GET gets = true
    /\ (folder_name = "" -> fid = "" /\ w' = w).
Proof.
  destruct (emits_find_folder_id env lower ip folder_name w) as [gets [Hreq Hgets]].
  assert (Hok : exists fid w', find_folder_id env lower ip folder_name w = (Ok fid, w')).
  { unfold find_folder_id. destruct (negb (Py.truthy folder_name)).
    - eexists. eexists. reflexivity.
    - unfold try_except.
      match goal with
      | |- context [match ?c w with _ => _ end] => destruct (c w) as [[fid|e] w1]
      end; eexists; eexists; reflexivity. }
  destruct Hok as [fid [w' Hok]]. rewrite Hok in Hreq. cbn [snd] in Hreq.
  exists fid, w', gets.
  split; [exact Hok|]. split; [exact Hreq|]. split; [exact Hgets|].
  intros ->. unfold find_folder_id in Hok. cbn [Py.truthy String.eqb negb] in Hok.
  apply ret_inv in Hok. destruct Hok as [H1 H2]. split; [symmetry; exact H1|exact H2].
Qed.

(** X8. A non-empty id that [find_folder_id] returns is the id of a folder
    that the device lists within three levels below the root, and the path
    of that folder is the name asked for, up to case. *)
Theorem find_folder_id_found env lower ip folder_name w fid w' :
  find_folder_id env lower ip folder_name w = (Ok fid, w') ->
  fid <> "" ->
  exists t path n,
    describes env 3 "" t
    /\ In (path, fid) (folder_id_map t "")
    /\ lower path = lower folder_name
    /\ In n (nodes_of t) /\ is_folder (entry n) = true
    /\ entry_id (entry n) = fid.
Proof.
  unfold find_folder_id. intros H Hfid.
  destruct (negb (Py.truthy folder_name)).
  { apply ret_inv in H. destruct H as [H _]. congruence. }
  unfold try_except in H.
  match type of H with
  | context [match ?c w with _ => _ end] => destruct (c w) as [[a|e] w1] eqn:E
  end.
  2: { apply bind_Ok_inv in H. destruct H as [[] [w2 [_ H]]].
       apply ret_inv in H. destruct H as [H _]. congruence. }
  inversion H; subst a w1; clear H.
  apply bind_Ok_inv in E. destruct E as [t [w1 [Htree E]]].
  unfold build_file_tree in Htree.
  apply bind_Ok_inv in Htree. destruct Htree as [[t0 c0] [w2 [Hbuild Htree]]].
  apply ret_inv in Htree. destruct Htree as [-> _].
  apply build_from_describes in Hbuild.
  assert (Hfound : exists path, In (path, fid) (folder_id_map t "")
                                /\ lower path = lower folder_name).
  { destruct (dict_get folder_name (folder_id_map t "")) as [v|] eqn:Eget.
    - apply ret_inv in E. destruct E as [-> _].
      exists folder_name. split; [apply dict_get_In, Eget|reflexivity].
    - destruct (find _ (folder_id_map t "")) as [[k v]|] eqn:Efind.
      + apply ret_inv in E. destruct E as [E _]. cbn [snd] in E. subst v.
        apply find_some in Efind. destruct Efind as [Hin Hk]. cbn [fst] in Hk.
        exists k. split; [exact Hin|]. apply String.eqb_eq. exact Hk.
      + apply bind_Ok_inv in E. destruct E as [[] [w3 [_ E]]].
        apply ret_inv in E. destruct E as [E _]. congruence. }
  destruct Hfound as [path [Hin Hlow]].
  destruct (folder_id_map_values _ _ _ Hin) as [n [Hn [Hf Hid]]].
  exists t, path, n. repeat split; assumption.
Qed.

Lemma find_folder_id_found_witness :
  exists t path n,
    describes Examples.calibre_env 3 "" t
    /\ In (path, "f1") (folder_id_map t "")
    /\ Examples.ascii_lower path = Examples.ascii_lower "calibre"
    /\ In n (nodes_of t) /\ is_folder (entry n) = true
    /\ entry_id (entry n) = "f1".
Proof.
  apply (@find_folder_id_found Examples.calibre_env Examples.ascii_lower
           "10.11.99.1" "calibre" Examples.empty_world "f1"
           (snd (find_folder_id Examples.calibre_env Examples.ascii_lower
                   "10.11.99.1" "calibre" Examples.empty_world))).
  - vm_compute. reflexivity.
  - discriminate.
Defined.

(** ** Malformed listings *)

Lemma from_json_missing_id raws raw :
  In raw raws -> dict_get "ID" raw = None ->
  map_result from_json raws = Raise (KeyError "ID").
Proof.
  intros Hin Hid. induction raws as [|r raws IH]; [contradiction|].
  cbn [map_result]. destruct (from_json r) as [e|x] eqn:E.
  - destruct Hin as [->|Hin].
    + unfold from_json in E. rewrite Hid in E. discriminate E.
    + rewrite (IH Hin). reflexivity.
  - unfold from_json in E. destruct (dict_get "ID" r); [discriminate E|].
    inversion E. reflexivity.
Qed.

(** X9. When the listing of the folder to crawl has an entry without the
    key [ID], [build_file_tree] (below the depth bound) raises
    [KeyError] for that key: the one listing request has been sent, the
    progress callback is not called and no tree is returned. *)
Theorem build_file_tree_missing_id env ip root d m cb c w raw_list raw :
  d < m ->
  listing env root = Listing raw_list ->
  In raw raw_list ->
  dict_get "ID" raw = None ->
  build_file_tree env ip root d m cb c w
  = (Raise (KeyError "ID"), snd (send (GET_documents ip root) w)).
Proof.
  intros Hd Hlist Hin Hid. unfold build_file_tree.
  rewrite (build_from_below env ip root cb
             (match c with Some c0 => c0 | None => 0 end) Hd).
  unfold bind at 1. unfold bind at 1. unfold fetch_documents, bind, send.
  rewrite Hlist. unfold ret, lift.
  rewrite (from_json_missing_id _ _ Hin Hid). reflexivity.
Qed.

Lemma build_file_tree_missing_id_witness :
  build_file_tree
    (Examples.quiet_env (fun _ => Listing [[("VissibleName", "untitled")]]))
    "10.11.99.1" "" 0 20 None None Examples.empty_world
  = (Raise (KeyError "ID"),
     snd (send (GET_documents "10.11.99.1" "") Examples.empty_world)).
Proof.
  apply (@build_file_tree_missing_id
           (Examples.quiet_env (fun _ => Listing [[("VissibleName", "untitled")]]))
           "10.11.99.1" "" 0 20 None None Examples.empty_world
           [[("VissibleName", "untitled")]] [("VissibleName", "untitled")]).
  - lia.
  - reflexivity.
  - left. reflexivity.
  - reflexivity.
Defined.

End CrawlFacts.
(* ===================================================================== *)
(** * Repackaging: what it returns and what it leaves behind *)
(* ===================================================================== *)

Module RepackFacts.
Import Eff WebInterface EffFacts RequestFacts EpubFacts.

(** ** The steps of [_prepare_epub] on an archive that can be read *)




Lemma map_result_raises {A B} (f : A -> result B) l e :
  map_result f l = Raise e -> exists a, In a l /\ f a = Raise e.
Proof.
  induction l as [|a l IH]; cbn [map_result]; [discriminate|].
  destruct (f a) as [b|e1] eqn:Ea.
  - destruct (map_result f l) as [bs|e2]; [discriminate|].
    intros H. inversion H; subst e2.
    destruct (IH eq_refl) as [x [Hx Hfx]]. exists x. split; [right|]; assumption.
  - intros H. inversion H; subst e1. exists a. split; [left; reflexivity|exact Ea].
Qed.

Lemma map_result_stops {A B} (f : A -> result B) l a e :
  In a l -> f a = Raise e -> exists e', map_result f l = Raise e'.
Proof.
  intros Hin Ha. induction l as [|x l IH]; [destruct Hin|].
  cbn [map_result]. destruct (f x) as [b|e1] eqn:Ex; [|exists e1; reflexivity].
  destruct Hin as [->|Hin]; [rewrite Ha in Ex; discriminate Ex|].
  destruct (IH Hin) as [e' ->]. exists e'. reflexivity.
Qed.


(** The error that stops the copy loop is the error of a member other
    than [mimetype] that cannot be read, and there is one as soon as such
    a member exists. *)
Lemma write_epub_raises src opf_path patched_opf new_files e :
  write_epub src opf_path patched_opf new_files = Raise e ->
  exists item, In item src /\ filename item <> "mimetype"
               /\ zip_read src (filename item) = Raise e.
Proof.
  unfold write_epub.
  destruct (map_result _ _) as [copied|e1] eqn:E; [discriminate|].
  intros H. inversion H; subst e1.
  apply map_result_raises in E. destruct E as [item [Hin Hc]].
  apply filter_In in Hin. destruct Hin as [Hin Hname].
  exists item. split; [exact Hin|]. split.
  - intros Hn. rewrite Hn in Hname. discriminate Hname.
  - unfold copy_member in Hc.
    destruct (zip_read src (filename item)) as [d|e1]; [discriminate|].
    inversion Hc. reflexivity.
Qed.

Lemma write_epub_stops src opf_path patched_opf new_files item e :
  In item src -> filename item <> "mimetype" ->
  zip_read src (filename item) = Raise e ->
  exists e', write_epub src opf_path patched_opf new_files = Raise e'.
Proof.
  intros Hin Hname Hread. unfold write_epub.
  destruct (@map_result_stops _ _ (copy_member src opf_path patched_opf)
              (filter (fun item => negb (filename item =? "mimetype")) src)
              item e) as [e' ->].
  - apply filter_In. split; [exact Hin|]. apply negb_true_iff.
    apply String.eqb_neq. exact Hname.
  - unfold copy_member. rewrite Hread. reflexivity.
  - exists e'. reflexivity.
Qed.





Lemma remove_file_idem p fs : remove_file p (remove_file p fs) = remove_file p fs.
Proof.
  unfold remove_file. induction fs as [|kv fs IH]; simpl; [reflexivity|].
  destruct (negb (fst kv =? p)) eqn:E; simpl; [rewrite E, IH|]; auto.
Qed.

Lemma remove_file_absent p fs : dict_get p fs = None -> remove_file p fs = fs.
Proof.
  unfold remove_file. induction fs as [|[k v] fs IH]; simpl; [reflexivity|].
  destruct (k =? p); [discriminate|]. simpl. intros H. rewrite IH by exact H.
  reflexivity.
Qed.

Lemma remove_file_written p d fs :
  remove_file p ((p, d) :: remove_file p fs) = remove_file p fs.
Proof.
  unfold remove_file at 1. cbn [filter fst]. rewrite String.eqb_refl.
  cbn [negb]. apply remove_file_idem.
Qed.

(** ** The ways [_prepare_epub] can end *)

(** [_prepare_epub] on a file that opens as an archive, step by step: an
    error of the search for the package document or of the cover step
    comes before the output file exists, an error of the copy loop after
    it; [BadZipFile] is turned into the path itself, any other error gets
    out. *)
Lemma prepare_epub_archive lib env path inject_cover w bytes src :
  Py.endswith ".epub" (str_lower lib path) = true ->
  dict_get path (files w) = Some bytes ->
  zip_load lib bytes = Some src ->
  _prepare_epub lib env path inject_cover w
  = let out := tmp_name env (fresh w) ".epub" in
    let caught := fun (e : exn) (w1 : World) =>
      (match e with
       | BadZipFile => Ok (path, @None string)
       | _ => Raise e
       end, w1) in
    let written := fun (logged : list (level * string)) (content : string) =>
      mkWorld (requests w) (List.app (logs w) logged) (reported w)
        ((out, content) :: remove_file out (files w))
        (S (fresh w)) (_device w) (_ebook_convert_path w) in
    match _locate_opf lib src with
    | Raise e => caught e w
    | Ok opf_path =>
        match cover_step lib src opf_path inject_cover with
        | Raise e => caught e w
        | Ok (patched, new_files) =>
            match write_epub src opf_path patched new_files with
            | Raise e =>
                caught e
                  (written [] (zip_dump lib (unfinished_epub src opf_path patched)))
            | Ok dst =>
                (Ok (out, Some out),
                 written [(DEBUG, "Prepared epub: " ++ path ++ " -> " ++ out)]
                   (zip_dump lib dst))
            end
        end
    end.
Proof.
  intros Hext Hf Hz. cbv zeta. unfold _prepare_epub. rewrite Hext. cbn [negb].
  assert (Hopen : open_zip lib path w = (Ok src, w)).
  { unfold open_zip, bind, read_file. rewrite Hf, Hz. reflexivity. }
  unfold try_except. unfold bind at 1. rewrite Hopen.
  unfold bind at 1. unfold lift at 1.
  destruct (_locate_opf lib src) as [opf_path|e]; [|destruct e; reflexivity].
  unfold bind at 1. unfold lift at 1.
  destruct (cover_step lib src opf_path inject_cover) as [[patched new_files]|e];
    [|destruct e; reflexivity].
  unfold bind at 1. unfold draw at 1.
  unfold bind at 1. unfold write_file at 1, set_files at 1.
  cbn [files fresh requests logs reported _device _ebook_convert_path].
  destruct (write_epub src opf_path patched new_files) as [dst|e].
  - unfold bind, write_file, set_files, log, ret.
    cbn [files fresh requests logs reported _device _ebook_convert_path].
    rewrite remove_file_written. reflexivity.
  - unfold bind, write_file, set_files, raise, ret.
    cbn [files fresh requests logs reported _device _ebook_convert_path].
    rewrite remove_file_written, app_nil_r. destruct e; reflexivity.
Qed.

(** X10. A path that does not end in [.epub] (in any case of the letters),
    or a file that is no ZIP archive, passes through [_prepare_epub]:
    the result is the path itself with nothing to clean up, no file is
    created and nothing is logged. *)
Theorem prepare_epub_passthrough lib env path inject_cover w :
  Py.endswith ".epub" (str_lower lib path) = false
  \/ (exists bytes, dict_get path (files w) = Some bytes
                    /\ zip_load lib bytes = None) ->
  _prepare_epub lib env path inject_cover w = (Ok (path, None), w).
Proof.
  intros H. unfold _prepare_epub.
  destruct (Py.endswith ".epub" (str_lower lib path)) eqn:E; cbn [negb];
    [|reflexivity].
  destruct H as [H|[bytes [Hf Hz]]]; [discriminate H|].
  unfold try_except. unfold bind at 1. unfold open_zip, bind, read_file.
  rewrite Hf, Hz. reflexivity.
Qed.

Lemma prepare_epub_passthrough_witness :
  _prepare_epub Examples.toy_lib Examples.calibre_env "/books/paper.pdf" true
    Examples.library_world
  = (Ok ("/books/paper.pdf", None), Examples.library_world).
Proof.
  apply (@prepare_epub_passthrough Examples.toy_lib Examples.calibre_env
           "/books/paper.pdf" true Examples.library_world).
  left. vm_compute. reflexivity.
Defined.




(** ** What the first pass of the cover injection changes *)

(** X12. When [_ensure_cover_page] injects a cover page, the package
    document it returns is the serialized patch of the parsed one: the
    manifest has its items as before and the item of the new page after
    them, the spine refers to the new page first and then to the pages it
    referred to before, the cover image is still found under the same id,
    and the one new file is the cover page beside the package document,
    showing the image of the manifest item that the [cover] meta names. *)
Theorem ensure_cover_page_patch lib zf opf_path opf_bytes patched new_files :
  _ensure_cover_page lib zf opf_path opf_bytes = Ok (Some patched, new_files) ->
  exists root manifest cover_img_id cover_href,
    ET_fromstring lib opf_bytes = Some root
    /\ cover_image_id root = Some cover_img_id
    /\ find_child (opf "manifest") root = Some manifest
    /\ cover_image_href manifest cover_img_id = Some cover_href
    /\ patched = utf8_encode lib (ET_tostring lib (patch_package root))
    /\ new_files = [(beside_opf opf_path page_filename,
                     utf8_encode lib (cover_page_html cover_href))]
    /\ manifest_items (patch_package root)
       = List.app (manifest_items root) [new_item]
    /\ spine_idrefs (patch_package root) = page_id :: spine_idrefs root
    /\ cover_image_id (patch_package root) = Some cover_img_id.
Proof.
  unfold _ensure_cover_page. intros H.
  destruct (ET_fromstring lib opf_bytes) as [root|]; [|discriminate].
  destruct (cover_image_id root) as [cid|] eqn:Ecid; [|discriminate].
  destruct (negb (Py.truthy cid)); [discriminate|].
  destruct (find_child (opf "manifest") root) as [m|] eqn:Em; [|discriminate].
  destruct (cover_image_href m cid) as [href|] eqn:Eh; [|discriminate].
  destruct (negb (Py.truthy href)); [discriminate|].
  destruct (find_child (opf "spine") root) as [sp|] eqn:Esp; [|discriminate].
  destruct (children sp) as [|c cs] eqn:Ecs; [discriminate|].
  destruct (first_page_shows_cover lib zf opf_path m sp href) as [[|]|e0];
    try discriminate H.
  inversion H; subst patched new_files; clear H.
  exists root, m, cid, href.
  split; [reflexivity|]. split; [exact Ecid|]. split; [exact Em|].
  split; [exact Eh|]. split; [reflexivity|]. split; [reflexivity|].
  split; [|split].
  - unfold manifest_items. rewrite find_manifest_patch, Em. cbn [option_map].
    apply findall_item_append.
  - unfold spine_idrefs. rewrite find_spine_patch, Esp.
    cbn [option_map insert_first children map]. reflexivity.
  - rewrite cover_image_id_patch. exact Ecid.
Qed.

Lemma ensure_cover_page_patch_witness :
  exists root manifest cover_img_id cover_href,
    ET_fromstring Examples.toy_lib (Examples.render Examples.opf_doc) = Some root
    /\ cover_image_id root = Some cover_img_id
    /\ find_child (opf "manifest") root = Some manifest
    /\ cover_image_href manifest cover_img_id = Some cover_href
    /\ Examples.render (patch_package Examples.opf_doc)
       = utf8_encode Examples.toy_lib
           (ET_tostring Examples.toy_lib (patch_package root))
    /\ [("OEBPS/rm_cover.xhtml", cover_page_html "cover.jpg")]
       = [(beside_opf "OEBPS/content.opf" page_filename,
           utf8_encode Examples.toy_lib (cover_page_html cover_href))]
    /\ manifest_items (patch_package root)
       = List.app (manifest_items root) [new_item]
    /\ spine_idrefs (patch_package root) = page_id :: spine_idrefs root
    /\ cover_image_id (patch_package root) = Some cover_img_id.
Proof.
  apply (@ensure_cover_page_patch Examples.toy_lib Examples.book_zip
           "OEBPS/content.opf" (Examples.render Examples.opf_doc)).
  vm_compute. reflexivity.
Defined.

End RepackFacts.
(* ===================================================================== *)
(** * Transfers and the local files *)
(* ===================================================================== *)

Module TransferFacts.
Import Eff WebInterface Plugin EffFacts RequestFacts PluginFacts RepackFacts.

(** ** Computations that leave the local files alone *)

Lemma files_bind {A B} (c : M A) (k : A -> M B) :
  (forall w, files (snd (c w)) = files w) ->
  (forall a w, files (snd (k a w)) = files w) ->
  forall w, files (snd (bind c k w)) = files w.
Proof.
  intros Hc Hk w. unfold bind. specialize (Hc w).
  destruct (c w) as [[a|e] w1]; cbn [snd] in *.
  - rewrite Hk. exact Hc.
  - exact Hc.
Qed.

Lemma try_finally_snd {A} (c : M A) (f : M unit) w :
  snd (try_finally c f w) = snd (f (snd (c w))).
Proof.
  unfold try_finally. destruct (c w) as [r w1]. cbn [snd].
  destruct (f w1) as [[u|e] w2]; reflexivity.
Qed.


Lemma navigation_keeps env ip folder_id msg (navigate : bool) w :
  exists w0,
    (if navigate then
       try_except (fetch_documents env ip folder_id ;; ret tt)
         (fun _ => log WARNING msg)
     else ret tt) w = (Ok tt, w0)
    /\ files w0 = files w /\ fresh w0 = fresh w.
Proof.
  destruct navigate; [|exists w; repeat split].
  unfold try_except, fetch_documents, bind, send, log, ret, raise.
  destruct (listing env folder_id); eexists; repeat split.
Qed.

(** The [try] block of [upload_file]. *)
Lemma upload_body_keeps lib env ip folder_id display_name prepared_path w :
  files (snd ((file_data <- read_file prepared_path ;;
               ' (body, content_type) <- _build_multipart lib env display_name file_data ;;
               send (POST_upload ip content_type body) ;;
               match upload_response env body with
               | PostOk json => ret json
               | PostHTTPError code raw =>
                   let error_body := utf8_decode_replace lib raw in
                   log ERROR ("Upload HTTP " ++ Py.str_of_nat code ++ ": " ++ error_body
                              ++ " (file=" ++ display_name ++ ", folder=" ++ folder_id
                              ++ ", size=" ++ Py.str_of_nat (String.length body) ++ ")") ;;
                   raise (RuntimeError
                            (upload_error_message code error_body display_name
                               (String.length body)))
               | PostFails e => raise e
               end) w))
  = files w.
Proof.
  revert w. apply files_bind.
  - intros w. unfold read_file. destruct (dict_get prepared_path (files w)); reflexivity.
  - intros file_data. apply files_bind.
    + intros w. reflexivity.
    + intros [body content_type]. apply files_bind; [reflexivity|].
      intros _ w. destruct (upload_response env body); reflexivity.
Qed.



(** X30. An archive with a member that cannot be read leaves a temporary
    file behind.  When the package document is looked up and the cover
    step goes through, the copy loop of [_prepare_epub] stops at the first
    member other than [mimetype] that cannot be read; the output file
    exists by then and nothing removes it.  A [BadZipFile] (a wrong
    CRC-32) is turned into the result [(path, None)], so that the file is
    uploaded as it is; any other error (an encrypted member) gets out of
    [_prepare_epub] and of [upload_file].  Either way the local files
    after [upload_file] are those before and the unfinished archive. *)
Theorem upload_file_leaves_temp lib env ip local_path folder_id display_name
    inject_cover navigate w bytes src opf_path patched new_files item e0 :
  Py.endswith ".epub" (str_lower lib local_path) = true ->
  dict_get local_path (files w) = Some bytes ->
  zip_load lib bytes = Some src ->
  _locate_opf lib src = Ok opf_path ->
  cover_step lib src opf_path inject_cover = Ok (patched, new_files) ->
  In item src -> filename item <> "mimetype" ->
  zip_read src (filename item) = Raise e0 ->
  let out := tmp_name env (fresh w) ".epub" in
  let left_behind :=
    (out, zip_dump lib (unfinished_epub src opf_path patched))
    :: remove_file out (files w) in
  exists e bad w',
    In bad src /\ filename bad <> "mimetype"
    /\ zip_read src (filename bad) = Raise e
    /\ _prepare_epub lib env local_path inject_cover w
       = (match e with
          | BadZipFile => Ok (local_path, None)
          | _ => Raise e
          end, w')
    /\ files w' = left_behind
    /\ requests w' = requests w
    /\ files (snd (upload_file lib env ip local_path folder_id display_name
                     inject_cover navigate w))
       = left_behind.
Proof.
  intros Hext Hf Hz Hopf Hcover Hin Hname Hread. cbv zeta.
  destruct (@write_epub_stops src opf_path patched new_files item e0
              Hin Hname Hread) as [e Hw].
  destruct (write_epub_raises _ _ _ _ Hw) as [bad [Hbad [Hbname Hbread]]].
  assert (Hprep : forall w0, files w0 = files w -> fresh w0 = fresh w ->
            exists w1,
              _prepare_epub lib env local_path inject_cover w0
              = (match e with
                 | BadZipFile => Ok (local_path, None)
                 | _ => Raise e
                 end, w1)
              /\ files w1
                 = (tmp_name env (fresh w) ".epub",
                    zip_dump lib (unfinished_epub src opf_path patched))
                   :: remove_file (tmp_name env (fresh w) ".epub") (files w)
              /\ requests w1 = requests w0).
  { intros w0 Hfiles Hfresh. rewrite <- Hfiles in Hf.
    rewrite (@prepare_epub_archive lib env local_path inject_cover w0 bytes src
               Hext Hf Hz).
    cbv zeta. rewrite Hopf, Hcover, Hw, Hfiles, Hfresh.
    eexists. split; [reflexivity|]. split; reflexivity. }
  destruct (Hprep w eq_refl eq_refl) as [w' [Hp [Hfiles' Hreq']]].
  exists e, bad, w'.
  split; [exact Hbad|]. split; [exact Hbname|]. split; [exact Hbread|].
  split; [exact Hp|]. split; [exact Hfiles'|]. split; [exact Hreq'|].
  unfold upload_file. unfold bind at 1.
  destruct (navigation_keeps env ip folder_id
              ("Pre-upload navigation failed for folder=" ++ folder_id)
              navigate w) as [w0 [Hnav [Hfiles0 Hfresh0]]].
  rewrite Hnav. unfold bind at 1.
  destruct (Hprep w0 Hfiles0 Hfresh0) as [w1 [Hp1 [Hfiles1 _]]].
  rewrite Hp1.
  destruct e; try (cbn [snd]; exact Hfiles1).
  rewrite try_finally_snd. cbn [snd ret]. rewrite upload_body_keeps.
  exact Hfiles1.
Qed.

(** The book whose cover image fails the CRC check: it is uploaded as it
    is, and the unfinished copy stays. *)
Lemma upload_file_leaves_temp_witness :
  exists e bad w',
    In bad Examples.damaged_zip /\ filename bad <> "mimetype"
    /\ zip_read Examples.damaged_zip (filename bad) = Raise e
    /\ _prepare_epub Examples.toy_lib Examples.calibre_env
         "/books/damaged.epub" true Examples.damaged_world
       = (match e with
          | BadZipFile => Ok ("/books/damaged.epub", None)
          | _ => Raise e
          end, w')
    /\ files w'
       = ("/tmp/tmp0.epub",
          zip_dump Examples.toy_lib
            (unfinished_epub Examples.damaged_zip (Some "OEBPS/content.opf")
               (Some (Examples.render (patch_package Examples.opf_doc)))))
         :: remove_file "/tmp/tmp0.epub" (files Examples.damaged_world)
    /\ requests w' = requests Examples.damaged_world
    /\ files (snd (upload_file Examples.toy_lib Examples.calibre_env
                     "10.11.99.1" "/books/damaged.epub" "f1" "damaged.epub"
                     true true Examples.damaged_world))
       = ("/tmp/tmp0.epub",
          zip_dump Examples.toy_lib
            (unfinished_epub Examples.damaged_zip (Some "OEBPS/content.opf")
               (Some (Examples.render (patch_package Examples.opf_doc)))))
         :: remove_file "/tmp/tmp0.epub" (files Examples.damaged_world).
Proof.
  apply (@upload_file_leaves_temp Examples.toy_lib Examples.calibre_env
           "10.11.99.1" "/books/damaged.epub" "f1" "damaged.epub" true true
           Examples.damaged_world
           (Examples.toy_zip_dump Examples.damaged_zip) Examples.damaged_zip
           (Some "OEBPS/content.opf")
           (Some (Examples.render (patch_package Examples.opf_doc)))
           [("OEBPS/rm_cover.xhtml", cover_page_html "cover.jpg")]
           (mkZipInfo "OEBPS/cover.jpg" ZIP_DEFLATED "" "JFIF" (Some BadZipFile))
           BadZipFile).
  - vm_compute. reflexivity.
  - vm_compute. reflexivity.
  - vm_compute. reflexivity.
  - vm_compute. reflexivity.
  - vm_compute. reflexivity.
  - vm_compute. tauto.
  - vm_compute. discriminate.
  - vm_compute. reflexivity.
Defined.

(** The book with an encrypted chapter: the error of the read gets out.
    With cover injection it comes from the look at the first page of the
    spine, before the output file exists; without, from the copy loop,
    and the unfinished copy stays. *)
Example prepare_epub_encrypted_member :
  let e := RuntimeError
             "File 'OEBPS/ch1.xhtml' is encrypted, password required for extraction" in
  _prepare_epub Examples.toy_lib Examples.calibre_env "/books/locked.epub" true
    Examples.damaged_world
  = (Raise e, Examples.damaged_world)
  /\ exists w',
       _prepare_epub Examples.toy_lib Examples.calibre_env "/books/locked.epub"
         false Examples.damaged_world
       = (Raise e, w')
       /\ map fst (files w')
          = ["/tmp/tmp0.epub"; "/books/damaged.epub"; "/books/locked.epub"].
Proof.
  cbv zeta. split; [vm_compute; reflexivity|].
  eexists. split; vm_compute; reflexivity.
Qed.

(** ** The temporary file of a conversion *)

(** X15. [_convert_epub_to_pdf] sends no request.  When the converter exits
    with status 0 it returns the path of a new temporary file that holds
    the converter's output; in every other case (the converter cannot be
    started, times out or exits with another status) it raises, and the
    temporary file it had created is gone again. *)
Theorem convert_epub_to_pdf_temp env epub_path w :
  let out := tmp_name env (fresh w) ".pdf" in
  let res := _convert_epub_to_pdf env epub_path w in
  dict_get out (files w) = None ->
  requests (snd res) = requests w
  /\ match ebook_convert env epub_path with
     | ConvExit Z0 _ pdf =>
         fst res = Ok out /\ files (snd res) = (out, pdf) :: files w
     | _ => (exists e, fst res = Raise e) /\ files (snd res) = files w
     end.
Proof.
  intros out res Hnew.
  split; [apply (emits_nothing w (emits_convert no_request env epub_path))|].
  assert (Habs : remove_file out (files w) = files w)
    by (apply remove_file_absent; exact Hnew).
  assert (Hrm : forall d fs, remove_file out ((out, d) :: fs) = remove_file out fs).
  { intros d fs. unfold remove_file. cbn [filter fst].
    rewrite String.eqb_refl. reflexivity. }
  assert (Hres : exists r W,
             _convert_epub_to_pdf env epub_path w = (r, W)
             /\ match ebook_convert env epub_path with
                | ConvExit Z0 _ pdf => r = Ok out /\ files W = (out, pdf) :: files w
                | _ => (exists e, r = Raise e) /\ files W = files w
                end).
  2: { destruct Hres as [r [W [E H]]]. subst res. rewrite E. exact H. }
  clear res. unfold _convert_epub_to_pdf.
  unfold bind at 1. unfold draw at 1. fold out.
  unfold bind at 1. unfold write_file at 1, set_files at 1. cbn [files].
  rewrite Habs. unfold bind at 1.
  match goal with
  | |- context [_find_ebook_convert env ?W] =>
      assert (Hexe : exists exe W1,
                 _find_ebook_convert env W = (Ok exe, W1)
                 /\ files W1 = (out, "") :: files w);
      [unfold _find_ebook_convert; cbn [_ebook_convert_path];
       destruct (_ebook_convert_path w); eexists; eexists; split; reflexivity|]
  end.
  destruct Hexe as [exe [W1 [Hexe HW1]]]. rewrite Hexe. clear Hexe.
  match goal with
  | |- context [try_except ?c ?h W1] => set (body := c); set (handler := h)
  end.
  assert (Hhandler : forall e d W2,
             files W2 = (out, d) :: files w ->
             exists W3, handler e W2 = (Raise e, W3) /\ files W3 = files w).
  { intros e d W2 HW2. subst handler. cbv beta.
    unfold bind, unlink_quietly, try_except, unlink, set_files, raise.
    rewrite HW2. cbn [dict_get]. rewrite String.eqb_refl.
    eexists. split; [reflexivity|]. cbn [files]. rewrite Hrm. exact Habs. }
  assert (Hbody : match ebook_convert env epub_path with
                  | ConvExit Z0 _ pdf =>
                      exists W2, body W1 = (Ok out, W2)
                                 /\ files W2 = (out, pdf) :: files w
                  | _ => exists e d W2, body W1 = (Raise e, W2)
                                        /\ files W2 = (out, d) :: files w
                  end).
  { subst body.
    destruct (ebook_convert env epub_path) as [what| |rc stdout pdf];
      [| |destruct rc as [|pos|pos]];
      unfold bind, log, write_file, set_files, raise, ret;
      cbn [files Z.eqb negb]; rewrite ?HW1, ?Hrm, ?Habs.
    - eexists. exists "". eexists. split; reflexivity.
    - eexists. exists "". eexists. split; reflexivity.
    - eexists. split; reflexivity.
    - eexists. exists pdf. eexists. split; reflexivity.
    - eexists. exists pdf. eexists. split; reflexivity. }
  unfold try_except.
  destruct (ebook_convert env epub_path) as [what| |rc stdout pdf];
    [| |destruct rc as [|pos|pos]];
    try (destruct Hbody as [e [d [W2 [-> HW2]]]];
         destruct (Hhandler e d W2 HW2) as [W3 [-> HW3]];
         eexists; eexists; split; [reflexivity|];
         split; [exists e; reflexivity|exact HW3]).
  destruct Hbody as [W2 [-> HW2]].
  eexists. eexists. split; [reflexivity|]. split; [reflexivity|exact HW2].
Qed.

Lemma convert_epub_to_pdf_temp_witness :
  requests (snd (_convert_epub_to_pdf Examples.failing_env "/books/two.epub"
                   Examples.library_world))
  = requests Examples.library_world
  /\ (exists e, fst (_convert_epub_to_pdf Examples.failing_env "/books/two.epub"
                       Examples.library_world) = Raise e)
  /\ files (snd (_convert_epub_to_pdf Examples.failing_env "/books/two.epub"
                   Examples.library_world))
     = files Examples.library_world.
Proof.
  pose proof (@convert_epub_to_pdf_temp Examples.failing_env "/books/two.epub"
                Examples.library_world) as H.
  cbv zeta in H. specialize (H eq_refl).
  destruct H as [H1 H2]. split; [exact H1|]. exact H2.
Defined.

(** ** Batches *)

Lemma emits_bind_ret {A B} P (a : A) (k : A -> M B) :
  emits P (k a) -> emits P (bind (ret a) k).
Proof. intros H w. exact (H w). Qed.

(** X16. With no target folder configured (uploads go to the root),
    [upload_books] sends nothing but upload requests: there is no folder
    lookup and no navigation listing, neither before the first upload nor
    between uploads. *)
Theorem upload_books_root_uploads_only lib env cfg files_original names metadata w :
  target_folder cfg = "" ->
  exists posts,
    requests (snd (upload_books lib env cfg files_original names metadata w))
    = (requests w ++ posts)%list
    /\ forallb is_POST posts = true.
Proof.
  intros Htarget.
  assert (H : emits is_POST (upload_books lib env cfg files_original names metadata)).
  { unfold upload_books. apply emits_trace_calls.
    destruct files_original as [|f fs]; [apply emits_ret|].
    unfold resolve_folder. rewrite Htarget. cbn [Py.truthy String.eqb negb].
    apply emits_bind_ret.
    apply emits_bind.
    - apply (@emits_weaken _ no_request); [discriminate|].
      apply emits_convert_phase.
    - intros items. apply emits_bind; [|intros locs; apply emits_ret].
      unfold upload_phase. cbn [Py.truthy String.eqb negb].
      apply emits_bind; [apply emits_ret|]. intros _. apply emits_upload_loop. }
  destruct (H w) as [posts [E F]]. exists posts. split; assumption.
Qed.

Lemma upload_books_root_uploads_only_witness :
  exists posts,
    requests (snd (upload_books Examples.toy_lib Examples.calibre_env
                     (mkPluginSettings "10.11.99.1" "paper-pro" "epub" "" true
                        0 0 "" true)
                     ["/books/book.epub"; "/books/paper.pdf"]
                     ["book.epub"; "paper.pdf"] None Examples.library_world))
    = (requests Examples.library_world ++ posts)%list
    /\ forallb is_POST posts = true.
Proof.
  apply (@upload_books_root_uploads_only Examples.toy_lib Examples.calibre_env
           (mkPluginSettings "10.11.99.1" "paper-pro" "epub" "" true 0 0 "" true)).
  reflexivity.
Defined.

End TransferFacts.
(* ===================================================================== *)
(** * What a batch returns *)
(* ===================================================================== *)

Module BatchFacts.
Import Eff WebInterface Plugin EffFacts RequestFacts PluginFacts.

Lemma upload_loop_locations lib env cfg folder_id items locations w out w' :
  upload_loop lib env cfg folder_id items locations w = (Ok out, w') ->
  out = (locations ++ map visible_name items)%list.
Proof.
  revert locations w. induction items as [|item rest IH]; intros locations w H;
    cbn [upload_loop] in H.
  - apply ret_inv in H. destruct H as [<- _]. cbn [map]. rewrite app_nil_r.
    reflexivity.
  - apply bind_Ok_inv in H. destruct H as [[] [w1 [_ H]]].
    cbv zeta in H.
    apply bind_Ok_inv in H. destruct H as [r [w2 [_ H]]].
    apply bind_Ok_inv in H. destruct H as [[] [w3 [_ H]]].
    apply IH in H. rewrite H, <- app_assoc. reflexivity.
Qed.

Lemma update_item_visible i pdf items :
  map visible_name (update_item i (set_converted pdf) items)
  = map visible_name items.
Proof.
  induction items as [|it items IH]; [reflexivity|].
  cbn [update_item]. destruct (index it =? i)%nat; cbn [map].
  - reflexivity.
  - rewrite IH. reflexivity.
Qed.

Lemma collect_visible total to_convert outcomes done items w items' w' :
  collect total to_convert outcomes done items w = (Ok items', w') ->
  map visible_name items' = map visible_name items.
Proof.
  revert done items w. induction outcomes as [|[pos r] rest IH];
    intros done items w H; cbn [collect] in H.
  - apply ret_inv in H. destruct H as [<- _]. reflexivity.
  - destruct (nth_error to_convert pos) as [it0|]; [|eapply IH; exact H].
    cbv zeta in H. destruct r as [pdf|e].
    + apply bind_Ok_inv in H. destruct H as [[] [w1 [_ H]]].
      apply IH in H. rewrite H. apply update_item_visible.
    + apply bind_Ok_inv in H. destruct H as [[] [w1 [_ H]]]. discriminate H.
Qed.

Lemma convert_phase_visible env cfg items w items' w' :
  convert_phase env cfg items w = (Ok items', w') ->
  map visible_name items' = map visible_name items.
Proof.
  unfold convert_phase.
  destruct (filter needs_convert items) as [|it rest].
  - intros H. apply ret_inv in H. destruct H as [<- _]. reflexivity.
  - cbv zeta. intros H.
    apply bind_Ok_inv in H. destruct H as [[] [w1 [_ H]]].
    apply bind_Ok_inv in H. destruct H as [[] [w2 [_ H]]].
    apply bind_Ok_inv in H. destruct H as [outcomes [w3 [_ H]]].
    eapply collect_visible. exact H.
Qed.

Lemma build_items_visible lib cfg i fs ns ms :
  map visible_name (build_items lib cfg i fs ns ms)
  = firstn (Nat.min (length fs) (length ms)) ns.
Proof.
  revert i ns ms. induction fs as [|f fs IH]; intros i ns ms; [reflexivity|].
  cbn [build_items]. destruct ns as [|n ns].
  - rewrite firstn_nil. reflexivity.
  - destruct ms as [|m ms]; [reflexivity|].
    cbn [map visible_name length Nat.min firstn]. rewrite IH. reflexivity.
Qed.

(** X17. When [upload_books] returns, the locations it returns are the
    visible names of the batch in their order (as many as there are files
    and metadata entries), whatever was converted on the way, and the
    metadata are those passed in, or one [None] per file when none were. *)
Theorem upload_books_locations lib env cfg files_original names metadata w
    locations meta w' :
  upload_books lib env cfg files_original names metadata w
  = (Ok (locations, meta), w') ->
  meta = metadata_or_default metadata files_original
  /\ locations
     = firstn (Nat.min (length files_original) (length meta)) names.
Proof.
  unfold upload_books, trace_calls. intros H.
  apply bind_Ok_inv in H. destruct H as [[] [w1 [_ H]]].
  destruct files_original as [|f fs].
  - apply ret_inv in H. destruct H as [H _]. inversion H; subst.
    split; [|reflexivity].
    destruct metadata as [[|m ms]|]; reflexivity.
  - cbv zeta in H.
    apply bind_Ok_inv in H. destruct H as [folder_id [w2 [_ H]]].
    apply bind_Ok_inv in H. destruct H as [items [w3 [Hconv H]]].
    apply bind_Ok_inv in H. destruct H as [locs [w4 [Hup H]]].
    apply ret_inv in H. destruct H as [H _]. inversion H; subst. clear H.
    split; [reflexivity|].
    unfold upload_phase in Hup.
    apply bind_Ok_inv in Hup. destruct Hup as [[] [w5 [_ Hup]]].
    apply upload_loop_locations in Hup. cbn [app] in Hup. subst locations.
    rewrite (convert_phase_visible _ _ _ _ Hconv).
    apply build_items_visible.
Qed.

Lemma upload_books_locations_witness :
  [None; None]
  = @metadata_or_default None ["/books/book.epub"; "/books/paper.pdf"]
  /\ ["book.epub"; "paper.pdf"]
     = firstn (Nat.min (length ["/books/book.epub"; "/books/paper.pdf"])
                 (length [@None string; None]))
         ["book.epub"; "paper.pdf"].
Proof.
  apply (@upload_books_locations Examples.toy_lib Examples.calibre_env
           Examples.epub_settings ["/books/book.epub"; "/books/paper.pdf"]
           ["book.epub"; "paper.pdf"] None Examples.library_world
           ["book.epub"; "paper.pdf"] [None; None]
           (snd (upload_books Examples.toy_lib Examples.calibre_env
                   Examples.epub_settings
                   ["/books/book.epub"; "/books/paper.pdf"]
                   ["book.epub"; "paper.pdf"] None Examples.library_world))).
  vm_compute. reflexivity.
Defined.

End BatchFacts.
(* ===================================================================== *)
(** * Book lists *)
(* ===================================================================== *)

Module BooksFacts.
Import Eff WebInterface Plugin RmData PluginBooks EffFacts TreeFacts CrawlFacts.

(** ** Membership *)

Lemma same_refl b : same b b = true.
Proof. unfold same. rewrite Nat.eqb_refl. reflexivity. Qed.

Lemma In_py_in b l : In b l -> py_in b l = true.
Proof.
  intros H. unfold py_in. apply existsb_exists. exists b.
  split; [exact H|apply same_refl].
Qed.

Lemma py_in_app b l1 l2 : py_in b (l1 ++ l2)%list = py_in b l1 || py_in b l2.
Proof. unfold py_in. apply existsb_app. Qed.

(** ** The two loops of the synchronization *)

Lemma append_missing_cons book src dst :
  append_missing (book :: src) dst
  = append_missing src (if py_in book dst then dst else List.app dst [book]).
Proof. reflexivity. Qed.

Lemma append_missing_extends src dst :
  exists added,
    append_missing src dst = (dst ++ added)%list
    /\ incl added src
    /\ Forall (fun b => py_in b dst = false) added.
Proof.
  revert dst. induction src as [|book src IH]; intros dst.
  - exists []. cbn. rewrite app_nil_r. repeat split; [apply incl_refl|constructor].
  - rewrite append_missing_cons. destruct (py_in book dst) eqn:E.
    + destruct (IH dst) as [added [H1 [H2 H3]]]. exists added.
      split; [exact H1|]. split; [|exact H3].
      intros x Hx. right. apply H2, Hx.
    + destruct (IH (dst ++ [book])%list) as [added [H1 [H2 H3]]].
      exists (book :: added). rewrite H1, <- app_assoc. split; [reflexivity|].
      split.
      * intros x [<-|Hx]; [left; reflexivity|right; apply H2, Hx].
      * constructor; [exact E|].
        eapply Forall_impl; [|exact H3]. cbv beta. intros b Hb.
        rewrite py_in_app in Hb. apply orb_false_iff in Hb. apply Hb.
Qed.

Lemma append_missing_keeps b src dst :
  py_in b dst = true -> py_in b (append_missing src dst) = true.
Proof.
  intros H. destruct (append_missing_extends src dst) as [added [-> _]].
  rewrite py_in_app, H. reflexivity.
Qed.

Lemma append_missing_covers src dst :
  Forall (fun b => py_in b (append_missing src dst) = true) src.
Proof.
  revert dst. induction src as [|book src IH]; intros dst; constructor.
  - rewrite append_missing_cons. apply append_missing_keeps.
    destruct (py_in book dst) eqn:E; [exact E|].
    rewrite py_in_app. apply orb_true_iff. right.
    apply In_py_in. left. reflexivity.
  - rewrite append_missing_cons. apply IH.
Qed.

Lemma append_missing_nothing src dst :
  Forall (fun b => py_in b dst = true) src -> append_missing src dst = dst.
Proof.
  intros H. induction H as [|book src Hb _ IH]; [reflexivity|].
  rewrite append_missing_cons, Hb. exact IH.
Qed.

(** The book list after the two loops. *)
Lemma sync_loops booklist on_device :
  exists added,
    append_missing (append_missing booklist on_device) booklist
    = (booklist ++ added)%list
    /\ incl added on_device
    /\ Forall (fun b => py_in b booklist = false) added
    /\ Forall (fun b => py_in b (booklist ++ added)%list = true) on_device.
Proof.
  destruct (append_missing_extends booklist on_device) as [more [E1 [I1 _]]].
  destruct (append_missing_extends (append_missing booklist on_device) booklist)
    as [added [E2 [I2 F2]]].
  exists added. split; [exact E2|]. split; [|split; [exact F2|]].
  - intros x Hx. pose proof (I2 x Hx) as Hin. rewrite E1 in Hin.
    apply in_app_or in Hin. destruct Hin as [Hin|Hin]; [exact Hin|].
    exfalso. rewrite Forall_forall in F2. specialize (F2 x Hx).
    rewrite (In_py_in _ _ (I1 x Hin)) in F2. discriminate F2.
  - rewrite <- E2.
    pose proof (append_missing_covers (append_missing booklist on_device) booklist)
      as Hc.
    rewrite E1 in Hc at 1. apply Forall_app in Hc. apply Hc.
Qed.

(** X18. [sync_booklists] never raises.  The book list it returns is the
    list passed in followed by books scanned from the device that match
    none of the list, and every book scanned from the device matches a
    book of the returned list.  The scanned books are decided by the
    device: when it describes a tree (every listing down to 20 levels is
    answered and parses), they are the books of the files of that tree;
    when it describes none, the crawl has failed and there are none. *)
Theorem sync_booklists_extends env localtime cfg next_oid booklist w :
  exists result w' added on_device,
    sync_booklists env localtime cfg next_oid (Some booklist) w = (Ok result, w')
    /\ result = (booklist ++ added)%list
    /\ incl added on_device
    /\ Forall (fun b => py_in b booklist = false) added
    /\ Forall (fun b => py_in b result = true) on_device
    /\ (forall tree, describes env 20 "" tree ->
          on_device = _books_from_tree localtime next_oid tree)
    /\ ((forall tree, ~ describes env 20 "" tree) -> on_device = []).
Proof.
  unfold sync_booklists, trace_calls.
  unfold bind at 1. unfold log at 1. unfold bind at 1. unfold report_progress at 1.
  unfold bind at 1.
  match goal with
  | |- context [try_except ?c ?h ?W] =>
      assert (Hscan : exists on_device W1,
                 try_except c h W = (Ok on_device, W1)
                 /\ (forall tree, describes env 20 "" tree ->
                       on_device = _books_from_tree localtime next_oid tree)
                 /\ ((forall tree, ~ describes env 20 "" tree) -> on_device = []))
  end.
  { unfold try_except. unfold bind at 1.
    match goal with
    | |- context [build_file_tree env (IP cfg) "" 0 20 ?cb None ?W] =>
        set (W0 := W);
        assert (Hcomplete : forall tree, describes env 20 "" tree ->
                  exists W3,
                    build_file_tree env (IP cfg) "" 0 20 cb None W0 = (Ok tree, W3));
        [ intros tree Hd; apply build_file_tree_complete;
          [ intros f Hf msg w0; inversion Hf; subst f; eexists; reflexivity
          | exact Hd ]
        | destruct (build_file_tree env (IP cfg) "" 0 20 cb None W0)
            as [[tree0|e] W2] eqn:Eb ]
    end.
    - unfold bind, report_progress, log, ret. cbv zeta.
      eexists. eexists. split; [reflexivity|]. split.
      + intros tree Hd. destruct (Hcomplete tree Hd) as [W3 Hc].
        inversion Hc. reflexivity.
      + intros Hnone. exfalso. apply (Hnone tree0).
        unfold build_file_tree in Eb.
        apply bind_Ok_inv in Eb. destruct Eb as [[t0 c0] [W5 [Hb Eb]]].
        apply ret_inv in Eb. destruct Eb as [-> _].
        apply build_from_describes in Hb. exact Hb.
    - unfold bind, log, ret. eexists. eexists. split; [reflexivity|]. split.
      + intros tree Hd. exfalso. destruct (Hcomplete tree Hd) as [W3 Hc].
        discriminate Hc.
      + intros _. reflexivity. }
  destruct Hscan as [on_device [W1 [-> [Hsome Hnone]]]].
  unfold bind at 1. unfold report_progress at 1. cbv zeta.
  unfold bind, report_progress, ret.
  destruct (sync_loops booklist on_device) as [added [E [I [F C]]]].
  eexists. eexists. exists added, on_device.
  split; [reflexivity|]. split; [exact E|]. split; [exact I|].
  split; [exact F|]. split; [rewrite E; exact C|]. split; assumption.
Qed.

(** On the device with a shelf, a library book that is on the device
    under the same path stays the one entry for it, and the other three
    files of the device are added in the order of the crawl. *)
Example sync_booklists_shelf :
  let mine := mkBookObj 100 (mkBook "Mine" "u-1" "" [] "" 0 [] [] "f1/d3" None) in
  exists w',
    sync_booklists Examples.shelf_env (fun _ => []) Examples.epub_settings 0
      (Some [mine]) Examples.empty_world
    = (Ok [mine;
           mkBookObj 0 (mkBook "d1" "" "d1" [] "" 0 [] [] "d1" None);
           mkBookObj 2 (mkBook "d4" "" "d4" [] "" 0 [] [] "f1/d4" None);
           mkBookObj 3 (mkBook "d2" "" "d2" [] "" 0 [] [] "d2" None)],
       w').
Proof.
  cbv zeta. eexists. vm_compute. reflexivity.
Qed.

(** X19. When the device does not answer the listing of its root,
    [sync_booklists] returns the book list as it was passed in: nothing is
    added and nothing is removed.  It has sent the one listing request and
    logged a warning. *)
Theorem sync_booklists_unreachable env localtime cfg next_oid booklist w e :
  listing env "" = FetchFails e ->
  exists w',
    sync_booklists env localtime cfg next_oid (Some booklist) w = (Ok booklist, w')
    /\ requests w' = (requests w ++ [GET_documents (IP cfg) ""])%list
    /\ In (WARNING, "Failed to fetch book list") (logs w').
Proof.
  intros Hfail.
  assert (Hloops : append_missing (append_missing booklist []) booklist = booklist).
  { apply append_missing_nothing.
    destruct (append_missing_extends booklist []) as [more [-> [I _]]].
    cbn [app]. rewrite Forall_forall. intros b Hb. apply In_py_in, I, Hb. }
  unfold sync_booklists, trace_calls.
  unfold bind at 1. unfold log at 1. unfold bind at 1. unfold report_progress at 1.
  unfold bind at 1.
  match goal with
  | |- context [try_except ?c ?h ?W] =>
      assert (Hscan : exists W1,
                 try_except c h W = (Ok [], W1)
                 /\ requests W1 = (requests w ++ [GET_documents (IP cfg) ""])%list
                 /\ In (WARNING, "Failed to fetch book list") (logs W1))
  end.
  { unfold try_except. unfold bind at 1. unfold build_file_tree.
    unfold bind at 1. cbn [Nat.sub build_from]. unfold bind at 1.
    unfold fetch_documents, bind, send, raise, log, ret. rewrite Hfail.
    eexists. split; [reflexivity|]. cbn [requests logs]. split; [reflexivity|].
    apply in_or_app. right. left. reflexivity. }
  destruct Hscan as [W1 [-> [Hreq Hlog]]].
  unfold bind at 1. unfold report_progress at 1. cbv zeta.
  rewrite Hloops. unfold bind, report_progress, ret.
  eexists. split; [reflexivity|]. cbn [requests logs]. split; assumption.
Qed.

Lemma sync_booklists_unreachable_witness :
  exists w',
    sync_booklists (Examples.quiet_env (fun _ => FetchFails (URLError "refused")))
      (fun _ => []) Examples.epub_settings 0
      (Some [mkBookObj 7 bare_book]) Examples.empty_world
    = (Ok [mkBookObj 7 bare_book], w')
    /\ requests w'
       = (requests Examples.empty_world ++ [GET_documents "10.11.99.1" ""])%list
    /\ In (WARNING, "Failed to fetch book list") (logs w').
Proof.
  apply (@sync_booklists_unreachable
           (Examples.quiet_env (fun _ => FetchFails (URLError "refused")))
           (fun _ => []) Examples.epub_settings 0
           [mkBookObj 7 bare_book] Examples.empty_world (URLError "refused")).
  reflexivity.
Defined.

End BooksFacts.
(* ===================================================================== *)
(** * Book lists: removing and adding *)
(* ===================================================================== *)

Module MetadataFacts.
Import Eff WebInterface Plugin RmData PluginBooks EffFacts BooksFacts.

(** ** Removing *)

Lemma list_remove_here pre t suf :
  (forall y, In y pre -> same y t = false) ->
  list_remove t (pre ++ t :: suf) = Some (pre ++ suf)%list.
Proof.
  induction pre as [|y pre IH]; intros H; cbn [app list_remove].
  - rewrite same_refl. reflexivity.
  - rewrite (H y (or_introl eq_refl)).
    rewrite IH by (intros z Hz; apply H; right; exact Hz). reflexivity.
Qed.

Lemma list_remove_before pre t suf :
  exists pre',
    list_remove t (pre ++ t :: suf) = Some (pre' ++ suf)%list
    /\ length pre' = length pre.
Proof.
  induction pre as [|y pre IH]; cbn [app list_remove].
  - rewrite same_refl. exists []. split; reflexivity.
  - destruct (same y t).
    + exists (pre ++ [t])%list. rewrite <- app_assoc. split; [reflexivity|].
      rewrite length_app. cbn [length]. lia.
    + destruct IH as [pre' [-> Hlen]]. exists (y :: pre').
      split; [reflexivity|]. cbn [length]. rewrite Hlen. reflexivity.
Qed.

Lemma remove_loop_length (p : BookObj -> bool) suf pre :
  exists l',
    fold_left (fun acc book => match acc with
                               | Some l => list_remove book l
                               | None => None
                               end)
              (filter p suf) (Some (pre ++ suf)%list)
    = Some l'
    /\ length l' + length (filter p suf) = length pre + length suf.
Proof.
  revert pre. induction suf as [|a suf IH]; intros pre.
  - exists pre. cbn. rewrite app_nil_r. split; [reflexivity|lia].
  - cbn [filter]. destruct (p a).
    + cbn [fold_left].
      destruct (list_remove_before pre a suf) as [pre' [-> Hlen]].
      destruct (IH pre') as [l' [E Hl]]. exists l'. split; [exact E|].
      cbn [length]. lia.
    + replace (pre ++ a :: suf)%list with ((pre ++ [a]) ++ suf)%list
        by (rewrite <- app_assoc; reflexivity).
      destruct (IH (pre ++ [a])%list) as [l' [E Hl]]. exists l'.
      split; [exact E|]. rewrite length_app in Hl. cbn [length] in *. lia.
Qed.

(** X20. [remove_books_from_metadata] never fails with [ValueError], and it
    shortens the book list by exactly the number of its books whose path is
    among the paths given. *)
Theorem remove_books_from_metadata_length paths bl :
  exists bl',
    remove_books_from_metadata paths bl = Some bl'
    /\ length bl'
       + length (filter (fun b => existsb (fun p => p =? path (value b)) paths) bl)
       = length bl.
Proof.
  unfold remove_books_from_metadata.
  destruct (remove_loop_length
              (fun b => existsb (fun p => p =? path (value b)) paths) bl [])
    as [l' [E H]].
  exists l'. split; [exact E|exact H].
Qed.

Lemma remove_loop_distinct (p : BookObj -> bool) suf pre :
  (forall y, In y pre -> Forall (fun t => same y t = false) suf) ->
  pairwise_distinct suf ->
  fold_left (fun acc book => match acc with
                             | Some l => list_remove book l
                             | None => None
                             end)
            (filter p suf) (Some (pre ++ suf)%list)
  = Some (pre ++ filter (fun b => negb (p b)) suf)%list.
Proof.
  revert pre. induction suf as [|a suf IH]; intros pre Hpre Hd.
  - reflexivity.
  - destruct Hd as [Ha Hd]. cbn [filter]. destruct (p a); cbn [negb].
    + cbn [fold_left]. rewrite list_remove_here.
      * apply IH; [|exact Hd]. intros y Hy.
        specialize (Hpre y Hy). inversion Hpre; assumption.
      * intros y Hy. specialize (Hpre y Hy). inversion Hpre; assumption.
    + replace (pre ++ a :: suf)%list with ((pre ++ [a]) ++ suf)%list
        by (rewrite <- app_assoc; reflexivity).
      rewrite IH; [rewrite <- app_assoc; reflexivity| |exact Hd].
      intros y Hy. apply in_app_or in Hy. destruct Hy as [Hy|[<-|[]]].
      * specialize (Hpre y Hy). inversion Hpre; assumption.
      * exact Ha.
Qed.

(** X21. On a book list in which no book is, or equals, a later one,
    [remove_books_from_metadata] removes exactly the books whose path is
    among the paths given and keeps the others in their order. *)
Theorem remove_books_from_metadata_distinct paths bl :
  pairwise_distinct bl ->
  remove_books_from_metadata paths bl
  = Some (filter (fun b => negb (existsb (fun p => p =? path (value b)) paths)) bl).
Proof.
  intros Hd. unfold remove_books_from_metadata.
  apply (@remove_loop_distinct
           (fun b => existsb (fun p => p =? path (value b)) paths) bl []).
  - intros y [].
  - exact Hd.
Qed.

Lemma remove_books_from_metadata_distinct_witness :
  remove_books_from_metadata ["/b"]
    [mkBookObj 1 (book "A" "u1" "r1" "/a"); mkBookObj 2 (book "B" "u2" "r2" "/b")]
  = Some [mkBookObj 1 (book "A" "u1" "r1" "/a")].
Proof.
  apply (@remove_books_from_metadata_distinct ["/b"]
           [mkBookObj 1 (book "A" "u1" "r1" "/a");
            mkBookObj 2 (book "B" "u2" "r2" "/b")]).
  cbn [pairwise_distinct]. repeat split; repeat constructor.
Defined.

(** ** Adding *)

Lemma add_books_extends i locations0 metadata next_oid bl :
  exists added ok,
    add_books i locations0 metadata next_oid bl = ((bl ++ added)%list, ok)
    /\ length added <= length metadata
    /\ Forall (fun b => py_in b bl = false /\ rm_uuid (value b) = "") added
    /\ (ok = true <-> metadata = [] \/ i + length metadata <= length locations0).
Proof.
  revert i next_oid bl.
  induction metadata as [|meta rest IH]; intros i next_oid bl.
  - exists [], true. cbn. rewrite app_nil_r. repeat split; auto.
  - cbn [add_books].
    destruct (nth_error locations0 i) as [location|] eqn:En.
    + assert (Hi : i < length locations0)
        by (apply nth_error_Some; rewrite En; discriminate).
      cbv zeta.
      match goal with
      | |- context [py_in ?b bl] => set (book := b)
      end.
      destruct (py_in book bl) eqn:Ein.
      * destruct (IH (S i) (S next_oid) bl) as [added [ok [E [Hl [Hf Hok]]]]].
        exists added, ok. split; [exact E|]. split; [cbn [length]; lia|].
        split; [exact Hf|]. rewrite Hok. cbn [length].
        split.
        -- intros [->|H]; right; cbn [length] in *; lia.
        -- intros [H|H]; [discriminate H|].
           destruct rest; [left; reflexivity|right; cbn [length] in *; lia].
      * destruct (IH (S i) (S next_oid) (bl ++ [book])%list)
          as [added [ok [E [Hl [Hf Hok]]]]].
        exists (book :: added), ok. rewrite E, <- app_assoc.
        split; [reflexivity|]. split; [cbn [length]; lia|]. split.
        -- constructor; [split; [exact Ein|reflexivity]|].
           eapply Forall_impl; [|exact Hf]. cbv beta. intros b [Hb Hr].
           split; [|exact Hr]. rewrite py_in_app in Hb.
           apply orb_false_iff in Hb. apply Hb.
        -- rewrite Hok. cbn [length]. split.
           ++ intros [->|H]; right; cbn [length] in *; lia.
           ++ intros [H|H]; [discriminate H|].
              destruct rest; [left; reflexivity|right; cbn [length] in *; lia].
    + assert (Hi : length locations0 <= i) by (apply nth_error_None; exact En).
      exists [], false. rewrite app_nil_r. split; [reflexivity|].
      split; [cbn [length]; lia|]. split; [constructor|].
      split; [discriminate|]. intros [H|H]; [discriminate H|].
      cbn [length] in H. lia.
Qed.

(** X22. [add_books_to_metadata] only appends: the book list afterwards is
    the list before followed by new books, at most one per metadata entry,
    each of which matched no book of the list before and has no device id.
    It sends nothing, and it fails with [IndexError] exactly when there are
    fewer locations than metadata entries. *)
Theorem add_books_to_metadata_extends locations0 metadata next_oid bl w :
  exists added ok w',
    add_books_to_metadata locations0 metadata next_oid bl w
    = (Ok ((bl ++ added)%list, ok), w')
    /\ requests w' = requests w
    /\ length added <= length metadata
    /\ Forall (fun b => py_in b bl = false /\ rm_uuid (value b) = "") added
    /\ (ok = true <-> length metadata <= length locations0).
Proof.
  destruct (add_books_extends 0 locations0 metadata next_oid bl)
    as [added [ok [E [Hl [Hf Hok]]]]].
  exists added, ok. unfold add_books_to_metadata, trace_calls, bind, log, ret.
  rewrite E. eexists. split; [reflexivity|]. split; [reflexivity|].
  split; [exact Hl|]. split; [exact Hf|]. rewrite Hok. cbn [Nat.add].
  split.
  - intros [->|H]; [cbn [length]; lia|exact H].
  - intros H. right. exact H.
Qed.

End MetadataFacts.
(* ===================================================================== *)
(** * Device presence *)
(* ===================================================================== *)

Module PresenceFacts.
Import Eff WebInterface Plugin PluginBooks EffFacts.

Lemma is_reachable_cases env ip w :
  is_reachable env ip w
  = match listing env "" with
    | Listing _ =>
        (Ok true, snd (send (GET_documents ip "") w))
    | FetchFails _ =>
        (Ok false, snd (log WARNING ("Cannot reach reMarkable at " ++ ip)
                          (snd (send (GET_documents ip "") w))))
    end.
Proof.
  unfold is_reachable, try_except, fetch_documents, bind, send, log, ret, raise.
  destruct (listing env ""); reflexivity.
Qed.

(** X23. [detect_managed_devices] never raises and sends at most one
    request, a listing of the root.  A call that is not forced and comes
    within the detection interval of the last check sends nothing: it
    answers with the device remembered and leaves the time of the last
    check as it is. *)
Theorem detect_managed_devices_polls_once env (time : Type) within_interval randint
    cfg (now last : time) force_refresh w :
  exists r w' sent,
    detect_managed_devices env within_interval randint cfg now last force_refresh w
    = (Ok r, w')
    /\ requests w' = (requests w ++ sent)%list
    /\ (sent = [] \/ sent = [GET_documents (IP cfg) ""])
    /\ (force_refresh = false -> within_interval now last = true ->
        sent = [] /\ r = (_device w, last) /\ _device w' = _device w).
Proof.
  unfold detect_managed_devices, trace_calls. unfold bind at 1. unfold log at 1.
  destruct (negb force_refresh && within_interval now last) eqn:Et.
  - unfold bind, get_device, ret. cbn [_device requests].
    eexists. eexists. exists []. split; [reflexivity|].
    rewrite app_nil_r. repeat split. left. reflexivity.
  - unfold try_except. unfold bind at 1. rewrite is_reachable_cases.
    assert (Hforced : force_refresh = false -> within_interval now last = true ->
                      False).
    { intros -> Hw. rewrite Hw in Et. discriminate Et. }
    destruct (listing env "") as [raws|e].
    + unfold send, bind, get_device. cbn [snd _device requests].
      destruct (_device w) as [dev|].
      * unfold ret. eexists. eexists. exists [GET_documents (IP cfg) ""].
        split; [reflexivity|]. split; [reflexivity|]. split; [right; reflexivity|].
        intros Hf Hw. destruct (Hforced Hf Hw).
      * unfold draw, set_device, log, ret. cbn [requests fresh].
        eexists. eexists. exists [GET_documents (IP cfg) ""].
        split; [reflexivity|]. split; [reflexivity|]. split; [right; reflexivity|].
        intros Hf Hw. destruct (Hforced Hf Hw).
    + unfold send, log, ret. cbn [snd requests].
      eexists. eexists. exists [GET_documents (IP cfg) ""].
      split; [reflexivity|]. split; [reflexivity|]. split; [right; reflexivity|].
      intros Hf Hw. destruct (Hforced Hf Hw).
Qed.

(** X24. When a check is due and the device does not answer,
    [detect_managed_devices] reports no device, but the device remembered
    from an earlier detection stays: [is_usb_connected] goes on to report
    it as connected. *)
Theorem detect_unreachable_keeps_device env (time : Type) within_interval randint
    cfg (now last : time) force_refresh w e :
  listing env "" = FetchFails e ->
  negb force_refresh && within_interval now last = false ->
  exists w',
    detect_managed_devices env within_interval randint cfg now last force_refresh w
    = (Ok (None, now), w')
    /\ _device w' = _device w
    /\ fst (is_usb_connected w')
       = Ok (match _device w with Some _ => true | None => false end, _device w).
Proof.
  intros Hfail Hdue.
  unfold detect_managed_devices, trace_calls. unfold bind at 1. unfold log at 1.
  rewrite Hdue. unfold try_except. unfold bind at 1.
  rewrite is_reachable_cases, Hfail.
  unfold send, log, ret. cbn [snd].
  eexists. split; [reflexivity|]. cbn [_device]. split; reflexivity.
Qed.

Lemma detect_unreachable_keeps_device_witness :
  exists w',
    detect_managed_devices
      (Examples.quiet_env (fun _ => FetchFails (URLError "refused")))
      (fun now last : nat => (now - last <? 5)%nat) (fun n => n)
      Examples.epub_settings 100 0 false
      (mkWorld [] [] [] [] 0 (Some (mkDeviceInfo "10.11.99.1" 42)) None)
    = (Ok (None, 100), w')
    /\ _device w' = Some (mkDeviceInfo "10.11.99.1" 42)
    /\ fst (is_usb_connected w')
       = Ok (true, Some (mkDeviceInfo "10.11.99.1" 42)).
Proof.
  apply (@detect_unreachable_keeps_device
           (Examples.quiet_env (fun _ => FetchFails (URLError "refused")))
           nat (fun now last : nat => (now - last <? 5)%nat) (fun n => n)
           Examples.epub_settings 100 0 false
           (mkWorld [] [] [] [] 0 (Some (mkDeviceInfo "10.11.99.1" 42)) None)
           (URLError "refused")).
  - reflexivity.
  - reflexivity.
Defined.

(** X25. When a check is due and the device answers,
    [detect_managed_devices] reports a device and remembers it: the device
    remembered before, if there was one (also when the configured address
    has changed since), else a new one for the configured address with a
    random session id. *)
Theorem detect_reachable_remembers env (time : Type) within_interval randint
    cfg (now last : time) force_refresh w raw_list :
  listing env "" = Listing raw_list ->
  negb force_refresh && within_interval now last = false ->
  exists dev w',
    detect_managed_devices env within_interval randint cfg now last force_refresh w
    = (Ok (Some dev, now), w')
    /\ _device w' = Some dev
    /\ dev = match _device w with
             | Some d => d
             | None => mkDeviceInfo (IP cfg) (randint (fresh w))
             end.
Proof.
  intros Hlist Hdue.
  unfold detect_managed_devices, trace_calls. unfold bind at 1. unfold log at 1.
  rewrite Hdue. unfold try_except. unfold bind at 1.
  rewrite is_reachable_cases, Hlist.
  unfold send, bind, get_device. cbn [snd _device].
  destruct (_device w) as [d|] eqn:Ed.
  - unfold ret. eexists. eexists. split; [reflexivity|].
    cbn [_device]. split; reflexivity.
  - unfold draw, set_device, log, ret. cbn [fresh].
    eexists. eexists. split; [reflexivity|]. cbn [_device].
    split; reflexivity.
Qed.

Lemma detect_reachable_remembers_witness :
  exists dev w',
    detect_managed_devices Examples.calibre_env
      (fun now last : nat => (now - last <? 5)%nat) (fun n => n + 1000)
      Examples.epub_settings 100 0 true Examples.empty_world
    = (Ok (Some dev, 100), w')
    /\ _device w' = Some dev
    /\ dev = mkDeviceInfo "10.11.99.1" 1000.
Proof.
  apply (@detect_reachable_remembers Examples.calibre_env
           nat (fun now last : nat => (now - last <? 5)%nat) (fun n => n + 1000)
           Examples.epub_settings 100 0 true Examples.empty_world
           [Examples.calibre_raw]).
  - reflexivity.
  - reflexivity.
Defined.

(** X26. After [eject] no device is remembered, whatever was before:
    [is_usb_connected] answers no, the device uid is empty and the device
    information is that of no connection.  [eject] itself sends nothing
    and touches no file. *)
Theorem eject_forgets_device w :
  let w1 := snd (eject w) in
  fst (eject w) = Ok tt
  /\ fst (is_usb_connected w1) = Ok (false, None)
  /\ fst (get_device_uid w1) = Ok ""
  /\ fst (get_device_information w1) = Ok ("reMarkable (not connected)", "", "", "")
  /\ requests w1 = requests w
  /\ files w1 = files w.
Proof. cbv zeta. repeat split. Qed.

End PresenceFacts.
(* ===================================================================== *)
(** * The body of an upload as it is read, and which books match *)
(* ===================================================================== *)

Module ReadingFacts.
Import Eff WebInterface Plugin RmData PluginBooks RmDataFacts.

(** ** Substrings *)

Lemma substring_empty n m : String.substring n m "" = "".
Proof. destruct n, m; reflexivity. Qed.

Lemma substring_prefix_length n s :
  String.substring 0 (String.length (String.substring 0 n s)) s
  = String.substring 0 n s.
Proof.
  revert n. induction s as [|c s IH]; intros n.
  - rewrite !substring_empty. reflexivity.
  - destruct n as [|n]; [reflexivity|]. cbn. rewrite IH. reflexivity.
Qed.

Lemma substring_split s p n :
  String.substring 0 (p + String.length (String.substring p n s)) s
  = String.substring 0 p s ++ String.substring p n s.
Proof.
  revert p n. induction s as [|c s IH]; intros p n.
  - rewrite !substring_empty. reflexivity.
  - destruct p as [|p].
    + cbn [Nat.add]. rewrite substring_prefix_length. reflexivity.
    + cbn. rewrite IH. reflexivity.
Qed.

Lemma substring_within s p n :
  p <= String.length s -> p + String.length (String.substring p n s) <= String.length s.
Proof.
  revert p n. induction s as [|c s IH]; intros p n Hp.
  - rewrite substring_empty. cbn in *. lia.
  - destruct p as [|p].
    + clear Hp. revert c s IH. induction n as [|n IHn]; intros c s IH.
      * cbn. lia.
      * cbn. specialize (IH 0 n (Nat.le_0_l _)). cbn in IH. lia.
    + cbn in *. specialize (IH p n). lia.
Qed.

Lemma substring_exact s p n :
  p + n <= String.length s -> String.length (String.substring p n s) = n.
Proof.
  revert p n. induction s as [|c s IH]; intros p n H.
  - cbn in H. assert (n = 0) by lia. subst. rewrite substring_empty. reflexivity.
  - destruct p as [|p].
    + destruct n as [|n]; [reflexivity|]. cbn in *.
      rewrite (IH 0 n) by lia. reflexivity.
    + cbn in *. apply IH. lia.
Qed.

(** X27. One [read] of a [_ProgressBody] whose position is within its data
    returns the data between the old and the new position: what has been
    read up to now is always the beginning of the data up to the position.
    The position never moves back and never passes the end; a negative
    size reads all that is left.  The callback, when there is one and the
    data are not empty, gets the new position over the length. *)
Theorem ProgressBody_read_invariant size self :
  _pos self <= String.length (_data self) ->
  let chunk := fst (fst (ProgressBody_read size self)) in
  let after := snd (fst (ProgressBody_read size self)) in
  _data after = _data self
  /\ Py.take (_pos after) (_data self) = Py.take (_pos self) (_data self) ++ chunk
  /\ _pos self <= _pos after <= String.length (_data self)
  /\ ((size < 0)%Z -> _pos after = String.length (_data self))
  /\ snd (ProgressBody_read size self)
     = (if _cb self && Py.truthy (_data self)
        then Some (_pos after, String.length (_data self))
        else None).
Proof.
  intros Hpos chunk after. subst chunk after.
  unfold ProgressBody_read. cbn [fst snd _data _pos].
  destruct (size <? 0)%Z eqn:Es.
  - split; [reflexivity|]. unfold Py.take, Py.drop.
    assert (Hlen : String.length
                     (String.substring (_pos self)
                        (String.length (_data self) - _pos self) (_data self))
                   = String.length (_data self) - _pos self)
      by (apply substring_exact; lia).
    split.
    + rewrite <- substring_split, Hlen. f_equal. lia.
    + split; [lia|]. split; reflexivity.
  - split; [reflexivity|]. unfold Py.take.
    split; [apply substring_split|].
    split; [split; [lia|apply substring_within; exact Hpos]|].
    split; [|reflexivity].
    intros Hneg. apply Z.ltb_ge in Es. lia.
Qed.

Lemma ProgressBody_read_invariant_witness :
  _data (snd (fst (ProgressBody_read 4 (mkProgressBody "reMarkable" 2 true))))
  = "reMarkable"
  /\ Py.take (_pos (snd (fst (ProgressBody_read 4
                                (mkProgressBody "reMarkable" 2 true)))))
       "reMarkable"
     = Py.take 2 "reMarkable"
       ++ fst (fst (ProgressBody_read 4 (mkProgressBody "reMarkable" 2 true)))
  /\ 2 <= _pos (snd (fst (ProgressBody_read 4
                            (mkProgressBody "reMarkable" 2 true)))) <= 10
  /\ ((4 < 0)%Z ->
      _pos (snd (fst (ProgressBody_read 4 (mkProgressBody "reMarkable" 2 true))))
      = 10)
  /\ snd (ProgressBody_read 4 (mkProgressBody "reMarkable" 2 true))
     = Some (6, 10).
Proof.
  apply (@ProgressBody_read_invariant 4 (mkProgressBody "reMarkable" 2 true)).
  cbn. lia.
Defined.

(** ** Which books match *)

Lemma books_from_tree_uuid localtime next_oid tree x :
  In x (_books_from_tree localtime next_oid tree) ->
  uuid (value x) = "" /\ exists pe, In pe (all_files tree "")
                                    /\ path (value x) = fst pe
                                    /\ rm_uuid (value x) = entry_id (snd pe).
Proof.
  unfold _books_from_tree. cbv zeta. intros H.
  apply in_map_iff in H. destruct H as [[i pe] [<- Hin]].
  cbn [value uuid path rm_uuid fst snd]. split; [reflexivity|].
  exists pe. split; [|split; reflexivity].
  apply in_combine_r in Hin. exact Hin.
Qed.

(** X28. A book scanned from the device and a book that has no device id
    (as [add_books_to_metadata] makes them) are equal exactly when they
    have the same path and that path is neither empty nor the root: the
    library id of the one and the device id of the other never make a
    match. *)
Theorem scanned_book_matches_by_path localtime next_oid tree x b :
  In x (_books_from_tree localtime next_oid tree) ->
  rm_uuid b = "" ->
  (Book_eq (value x) b = true
   <-> path (value x) = path b /\ path b <> "" /\ path b <> "/").
Proof.
  intros Hin Hb. apply books_from_tree_uuid in Hin. destruct Hin as [Hu _].
  rewrite Book_eq_true_iff. unfold tier_rm_uuid, tier_uuid, tier_path.
  rewrite Hu, Hb. split.
  - intros [[_ [H _]]|[[H _]|[H1 [H2 [H3 [H4 H5]]]]]]; try congruence.
    repeat split; assumption.
  - intros [H1 [H2 H3]]. right. right. rewrite H1. repeat split; assumption.
Qed.

Lemma scanned_book_matches_by_path_witness :
  Book_eq (book "notes" "" "d1" "notes") (book "Notes" "u1" "" "notes") = true
  <-> "notes" = "notes" /\ "notes" <> "" /\ "notes" <> "/".
Proof.
  apply (@scanned_book_matches_by_path (fun _ => []) 0
           (mkFileTree [mkFileTreeNode
                          (mkDeviceEntry "d1" "" "notes" DOCUMENT "pdf")
                          (mkFileTree [])])
           (mkBookObj 0 (book "notes" "" "d1" "notes"))
           (book "Notes" "u1" "" "notes")).
  - left. reflexivity.
  - reflexivity.
Defined.

End ReadingFacts.
(* ===================================================================== *)
(** * Locating the package document *)
(* ===================================================================== *)

Module LocateFacts.
Import Eff WebInterface EffFacts.

(** X29. A path that [_locate_opf] returns is either the [full-path] that
    the first [rootfile] element of a readable container descriptor gives,
    or, when there is no such descriptor or it has no [rootfile] element,
    the name of the first member of the archive that ends in [.opf].  A
    descriptor with a [rootfile] element decides alone: when that element
    has no [full-path], nothing is returned, whatever the archive holds.
    An error of the read of the descriptor other than [KeyError] and
    [ParseError] gets out. *)
Theorem locate_opf_result lib zf :
  (forall p, _locate_opf lib zf = Ok (Some p) ->
     (exists bytes container rootfile,
        zip_read zf "META-INF/container.xml" = Ok bytes
        /\ ET_fromstring lib bytes = Some container
        /\ find_descendant ("{" ++ _CONTAINER_NS ++ "}rootfile") container
           = Some rootfile
        /\ get "full-path" rootfile = Some p)
     \/ (exists item,
           find (fun item => Py.endswith ".opf" (filename item)) zf = Some item
           /\ In item zf /\ filename item = p
           /\ Py.endswith ".opf" p = true))
  /\ (forall bytes container rootfile,
        zip_read zf "META-INF/container.xml" = Ok bytes ->
        ET_fromstring lib bytes = Some container ->
        find_descendant ("{" ++ _CONTAINER_NS ++ "}rootfile") container
        = Some rootfile ->
        _locate_opf lib zf = Ok (get "full-path" rootfile))
  /\ (forall e,
        zip_read zf "META-INF/container.xml" = Raise e ->
        (forall k, e <> KeyError k) -> e <> ParseError ->
        _locate_opf lib zf = Raise e).
Proof.
  split; [|split].
  - intros p H. unfold _locate_opf in H. cbv zeta in H.
    assert (Hfall : match find (fun item => Py.endswith ".opf" (filename item)) zf with
                    | Some item => Some (filename item)
                    | None => None
                    end = Some p ->
                    exists item,
                      find (fun item => Py.endswith ".opf" (filename item)) zf
                      = Some item
                      /\ In item zf /\ filename item = p
                      /\ Py.endswith ".opf" p = true).
    { destruct (find (fun item => Py.endswith ".opf" (filename item)) zf)
        as [item|] eqn:Ef; [|discriminate].
      intros Hp. inversion Hp; subst. exists item.
      apply find_some in Ef. destruct Ef as [Hin He].
      repeat split; assumption. }
    destruct (zip_read zf "META-INF/container.xml") as [bytes|e] eqn:Eb.
    2: { right. apply Hfall. destruct e; try discriminate H;
         inversion H; reflexivity. }
    destruct (ET_fromstring lib bytes) as [container|] eqn:Ec.
    2: { right. apply Hfall. inversion H. reflexivity. }
    destruct (find_descendant ("{" ++ _CONTAINER_NS ++ "}rootfile") container)
      as [rootfile|] eqn:Er.
    2: { right. apply Hfall. inversion H. reflexivity. }
    left. exists bytes, container, rootfile. inversion H.
    repeat split; try reflexivity; assumption.
  - intros bytes container rootfile Hb Hc Hr. unfold _locate_opf.
    rewrite Hb, Hc, Hr. reflexivity.
  - intros e He Hkey Hparse. unfold _locate_opf. rewrite He.
    destruct e; try reflexivity.
    + exfalso. apply (Hkey key). reflexivity.
    + exfalso. apply Hparse. reflexivity.
Qed.

Lemma locate_opf_result_witness :
  (exists bytes container rootfile,
     zip_read Examples.book_zip "META-INF/container.xml" = Ok bytes
     /\ ET_fromstring Examples.toy_lib bytes = Some container
     /\ find_descendant ("{" ++ _CONTAINER_NS ++ "}rootfile") container
        = Some rootfile
     /\ get "full-path" rootfile = Some "OEBPS/content.opf")
  \/ (exists item,
        find (fun item => Py.endswith ".opf" (filename item)) Examples.book_zip
        = Some item
        /\ In item Examples.book_zip /\ filename item = "OEBPS/content.opf"
        /\ Py.endswith ".opf" "OEBPS/content.opf" = true).
Proof.
  apply (proj1 (@locate_opf_result Examples.toy_lib Examples.book_zip)
           "OEBPS/content.opf").
  vm_compute. reflexivity.
Defined.

End LocateFacts.
